(** * Basalt-Viscosity: the import / normalise / group / project pipeline

    A shallow embedding of the decision logic of
    [src/components/ProjectBuilder.tsx] (fuzzyGet, fuzzyGetStr,
    processImportedData, handleFileUpload, the mock connection and the
    edits of the configuration, parseGeneratedOutput, handleGenerate,
    handleSendMessage), of the DataView component
    (getCompositionSignature, groupedData, the two selection effects,
    sampleOptions, currentData), of App (the two callbacks that receive
    the imported data, the verification of the key) and of the key check
    of [src/services/geminiService.ts].

    The first module, [JS], is the fragment of ECMAScript the program relies
    on: binary64 numbers, strings, objects with ordered own keys, and the
    array and string built-ins the source calls. *)

From Stdlib Require Import ZArith List String Ascii Bool Lia Arith.
From Stdlib Require Import Floats.SpecFloat.
From Stdlib Require Import Numbers.DecimalString Numbers.DecimalPos.
From Stdlib Require Import Sorting.Permutation Sorting.Sorted.
Import ListNotations.

Local Open Scope string_scope.
Local Open Scope list_scope.
Local Open Scope nat_scope.

(* ================================================================== *)
(** * The ECMAScript fragment *)
(* ================================================================== *)

Module JS.

(** ** Numbers

    A JS number is an IEEE 754 binary64 value.  [spec_float] is the
    Standard Library's specification of such values (one NaN, signed zeros
    and infinities, finite values [(-1)^s * m * 2^e]); all arithmetic below
    is its arithmetic at precision 53 and maximal exponent 1024. *)

Definition number : Type := spec_float.

Definition prec : Z := 53.
Definition emax : Z := 1024.

Definition NaN : number := S754_nan.
Definition Infinity : number := S754_infinity false.
Definition zero : number := S754_zero false.

(** [isNaN(x)] on a number. *)
Definition isNaN (x : number) : bool :=
  match x with S754_nan => true | _ => false end.

(** [x > y] and [x !== y] on numbers.  The program only compares with
    [0], which looks at the class and the sign of [x]. *)
Definition gt (x y : number) : bool := SFltb y x.
Definition strict_neq (x y : number) : bool := negb (SFeqb x y).

(** [x - y]. *)
Definition sub (x y : number) : number := SFsub prec emax x y.

(** ToBoolean on a number: [+0], [-0] and NaN are falsy. *)
Definition truthy (x : number) : bool :=
  match x with
  | S754_zero _ | S754_nan => false
  | _ => true
  end.

(** [a || b] on numbers. *)
Definition or (a b : number) : number := if truthy a then a else b.

(** [a || b] on strings: the empty string is the only falsy string. *)
Definition or_str (a b : string) : string :=
  match a with EmptyString => b | _ => a end.

(** The number nearest to the rational [(-1)^neg * m / d] ([d > 0]), ties
    to even: the "Number value for" a mathematical value.  The quotient is
    taken with enough bits to round once. *)
Definition round_ratio (neg : bool) (m d : positive) : number :=
  let '(q, e, l) := SFdiv_core_binary prec emax (Zpos m) 0 (Zpos d) 0 in
  binary_round_aux prec emax neg q e l.

(** The number value of [(-1)^neg * m * 10^e], [m >= 0]. *)
Definition of_decimal (neg : bool) (m : Z) (e : Z) : number :=
  match m with
  | Zpos p =>
      match e with
      | Zneg k => round_ratio neg p (Pos.pow 10 k)
      | _ => binary_round prec emax neg (p * Z.to_pos (10 ^ e)) 0%Z
      end
  | _ => S754_zero neg
  end.

(** ** Strings

    A JS string is a sequence of UTF-16 code units.  The model is the
    Standard Library's [string], one [ascii] per code unit, so it covers the
    strings whose code units are below 256 (U+0000 to U+00FF). *)

Definition code (c : ascii) : nat := nat_of_ascii c.

(** WhiteSpace and LineTerminator code units below 256: TAB, LF, VT, FF,
    CR, SP and NBSP. *)
Definition isWhiteSpace (c : ascii) : bool :=
  let n := code c in
  ((9 <=? n) && (n <=? 13)) || (n =? 32) || (n =? 160).

Definition isDigit (c : ascii) : bool :=
  let n := code c in (48 <=? n) && (n <=? 57).

Definition digitValue (c : ascii) : Z := (Z.of_nat (code c) - 48)%Z.

(** Unicode lower-casing of one code unit below 256: [A-Z], and the
    Latin-1 capitals U+00C0..U+00DE other than the multiplication sign. *)
Definition lowerChar (c : ascii) : ascii :=
  let n := code c in
  if ((65 <=? n) && (n <=? 90))
     || ((192 <=? n) && (n <=? 222) && negb (n =? 215))
  then ascii_of_nat (n + 32) else c.

(** [s.toLowerCase()]. *)
Fixpoint toLowerCase (s : string) : string :=
  match s with
  | EmptyString => EmptyString
  | String c r => String (lowerChar c) (toLowerCase r)
  end.

(** [s.startsWith(p)]. *)
Fixpoint startsWith (p s : string) : bool :=
  match p with
  | EmptyString => true
  | String a p' =>
      match s with
      | EmptyString => false
      | String b s' => Ascii.eqb a b && startsWith p' s'
      end
  end.

(** [s.includes(p)]: [p] occurs in [s] at some position. *)
Fixpoint includes (s p : string) : bool :=
  startsWith p s ||
  match s with
  | EmptyString => false
  | String _ s' => includes s' p
  end.

(** [s.endsWith(p)]. *)
Fixpoint endsWith (s p : string) : bool :=
  String.eqb s p ||
  match s with
  | EmptyString => false
  | String _ s' => endsWith s' p
  end.

Fixpoint trimStart (s : string) : string :=
  match s with
  | String c r => if isWhiteSpace c then trimStart r else s
  | EmptyString => EmptyString
  end.

Fixpoint trimEnd (s : string) : string :=
  match s with
  | EmptyString => EmptyString
  | String c r =>
      match trimEnd r with
      | EmptyString =>
          if isWhiteSpace c then EmptyString else String c EmptyString
      | r' => String c r'
      end
  end.

(** [s.trim()]. *)
Definition trim (s : string) : string := trimEnd (trimStart s).

(** [s.split(sep)] for a separator of one code unit: never empty, and one
    more piece than there are separators. *)
Fixpoint split (sep : ascii) (s : string) : list string :=
  match s with
  | EmptyString => [EmptyString]
  | String c r =>
      if Ascii.eqb c sep then EmptyString :: split sep r
      else match split sep r with
           | p :: ps => String c p :: ps
           | [] => [String c EmptyString]
           end
  end.

(** The longest prefix of decimal digits, and what follows it. *)
Fixpoint spanDigits (s : string) : list ascii * string :=
  match s with
  | String c r =>
      if isDigit c then let '(ds, t) := spanDigits r in (c :: ds, t)
      else ([], s)
  | EmptyString => ([], EmptyString)
  end.

(** The mathematical value of a digit sequence. *)
Definition digitsValue (ds : list ascii) : Z :=
  fold_left (fun acc c => (acc * 10 + digitValue c)%Z) ds 0%Z.

(** The decimal digits of a natural number, ["0"] for zero. *)
Definition decimal (n : N) : string :=
  DecimalString.NilEmpty.string_of_uint (N.to_uint n).

(** ** parseFloat on a string

    The longest prefix of the left-trimmed string that is a
    StrDecimalLiteral, [[+-]? (Infinity | d+ (. d* )? | . d+) ([eE] [+-]? d+)?],
    is read; its value is rounded to the nearest number.  NaN when no
    prefix is one. *)

(** An ExponentPart at the head of [s], if it is complete. *)
Definition exponentPart (s : string) : Z :=
  match s with
  | String c r =>
      if Ascii.eqb c "e" || Ascii.eqb c "E" then
        let '(neg, r') :=
          match r with
          | String "-" t => (true, t)
          | String "+" t => (false, t)
          | _ => (false, r)
          end in
        match fst (spanDigits r') with
        | [] => 0%Z
        | ds => if neg then (- digitsValue ds)%Z else digitsValue ds
        end
      else 0%Z
  | EmptyString => 0%Z
  end.

Definition parseFloatString (input : string) : number :=
  let t := trimStart input in
  let '(neg, u) :=
    match t with
    | String "-" r => (true, r)
    | String "+" r => (false, r)
    | _ => (false, t)
    end in
  if startsWith "Infinity" u then S754_infinity neg
  else
    let '(ip, r1) := spanDigits u in
    let '(fp, r2) :=
      match r1 with
      | String "." r => spanDigits r
      | _ => ([], r1)
      end in
    match ip, fp with
    | [], [] => NaN
    | _, _ =>
        of_decimal neg (digitsValue (ip ++ fp))
                   (exponentPart r2 - Z.of_nat (List.length fp))%Z
    end.

(** ** Number::toString and Number.prototype.toFixed *)

Local Open Scope string_scope.

(** The magnitude of a finite number as an exact fraction [num / den]. *)
Definition fraction (m : positive) (e : Z) : Z * Z :=
  match e with
  | Zneg k => (Zpos m, Zpos (Pos.pow 2 k))
  | _ => (Zpos m * 2 ^ e, 1)%Z
  end.

Definition digitCount (z : Z) : Z :=
  Z.of_nat (String.length (decimal (Z.to_N z))).

(** The decimal exponent [n] of a positive fraction:
    [10^(n-1) <= num/den < 10^n].  Below one, the fraction is first scaled
    by [10^400], which lifts every positive binary64 value above one. *)
Definition decimalExponent (num den : Z) : Z :=
  if (den <=? num)%Z then digitCount (num / den)
  else (digitCount (num * 10 ^ 400 / den) - 400)%Z.

(** A candidate digit string: [s * 10^(n-k)] with [k] digits in [s]. *)
Record digits : Type := { dig_s : Z; dig_n : Z }.

Section Shortest.
Variable x : number.   (* the positive finite number to print *)
Variables num den : Z. (* its exact value *)

(** The candidates with [k] digits are the neighbours of [x] among the
    multiples of [10^(n-k)], for the decimal exponent of [x] and the next
    one (a value just below a power of ten may print as that power),
    kept when they have [k] digits and read back as [x]. *)
Definition candidates (k : Z) : list (digits * Z) :=
  let n0 := decimalExponent num den in
  let q := (n0 - k)%Z in
  let A := (den * 10 ^ Z.max q 0)%Z in
  let B := (num * 10 ^ Z.max (- q) 0)%Z in
  let dist (s scale : Z) := Z.abs (s * scale * A - B) in
  let cand (s n scale : Z) := ({| dig_s := s; dig_n := n |}, dist s scale) in
  let ok (c : digits * Z) :=
    let s := dig_s (fst c) in
    ((10 ^ (k - 1) <=? s)%Z && (s <? 10 ^ k)%Z
     && match of_decimal false s (dig_n (fst c) - k), x with
        | S754_finite _ m1 e1, S754_finite _ m2 e2 =>
            Pos.eqb m1 m2 && Z.eqb e1 e2
        | _, _ => false
        end) in
  filter ok
    [ cand (B / A)%Z n0 1%Z; cand (B / A + 1)%Z n0 1%Z;
      cand (B / (10 * A))%Z (n0 + 1)%Z 10%Z;
      cand (B / (10 * A) + 1)%Z (n0 + 1)%Z 10%Z ].

(** Of two candidates the one nearer to [x]; the even one on a tie. *)
Definition nearer (c1 c2 : digits * Z) : digits * Z :=
  match (snd c1 ?= snd c2)%Z with
  | Lt => c1
  | Gt => c2
  | Eq => if Z.even (dig_s (fst c1)) then c1 else c2
  end.

(** The fewest digits that read back as [x]; seventeen always do. *)
Fixpoint shortestFrom (k : Z) (fuel : nat) : digits * Z :=
  match fuel with
  | O => ({| dig_s := 0; dig_n := 0 |}, k)
  | S fuel' =>
      match candidates k with
      | c :: cs => (fst (fold_left nearer cs c), k)
      | [] => shortestFrom (k + 1)%Z fuel'
      end
  end.
End Shortest.

Fixpoint zeros (n : nat) : string :=
  match n with
  | O => EmptyString
  | S n' => String "0" (zeros n')
  end.

(** The first [n] code units of [s], and the rest. *)
Fixpoint splitAt (n : nat) (s : string) : string * string :=
  match n, s with
  | S n', String c r => let '(a, b) := splitAt n' r in (String c a, b)
  | _, _ => (EmptyString, s)
  end.

(** Number::toString of a positive finite number, radix 10. *)
Definition toStringPositive (m : positive) (e : Z) : string :=
  let '(num, den) := fraction m e in
  let '(d, k) := shortestFrom (S754_finite false m e) num den 1 17 in
  let s := decimal (Z.to_N (dig_s d)) in
  let n := dig_n d in
  if ((k <=? n) && (n <=? 21))%Z then
    s ++ zeros (Z.to_nat (n - k))
  else if ((0 <? n) && (n <=? 21))%Z then
    let '(a, b) := splitAt (Z.to_nat n) s in a ++ "." ++ b
  else if ((-6 <? n) && (n <=? 0))%Z then
    "0." ++ zeros (Z.to_nat (- n)) ++ s
  else
    let ex := (n - 1)%Z in
    let c := if (ex <? 0)%Z then "-" else "+" in
    let mant :=
      match s with
      | String c0 (String _ _ as r) => String c0 ("." ++ r)
      | _ => s
      end in
    mant ++ "e" ++ c ++ decimal (Z.to_N (Z.abs ex)).

(** [String(x)] for a number. *)
Definition numberToString (x : number) : string :=
  match x with
  | S754_nan => "NaN"
  | S754_zero _ => "0"
  | S754_infinity false => "Infinity"
  | S754_infinity true => "-Infinity"
  | S754_finite false m e => toStringPositive m e
  | S754_finite true m e => "-" ++ toStringPositive m e
  end.

(** [x.toFixed(f)] for [0 <= f <= 100].  Below [10^21] the digits are
    those of the integer [n] nearest to [|x| * 10^f], the larger one on a
    tie; at least one digit stands before the point. *)
Definition toFixed (x : number) (f : nat) : string :=
  match x with
  | S754_finite neg m e =>
      let '(num, den) := fraction m e in
      let sign := if neg then "-" else "" in
      if (10 ^ 21 <=? num / den)%Z then sign ++ toStringPositive m e
      else
        let n := ((2 * num * 10 ^ Z.of_nat f + den) / (2 * den))%Z in
        let ds := decimal (Z.to_N n) in
        let ds := zeros (S f - String.length ds) ++ ds in
        let '(a, b) := splitAt (String.length ds - f) ds in
        sign ++ match f with O => a | _ => a ++ "." ++ b end
  | S754_zero _ =>
      match f with O => "0" | _ => "0." ++ zeros f end
  | _ => numberToString x
  end.

(** ** Values, objects and arrays *)

(** The scalars a decoded cell can hold. *)
Inductive value : Type :=
  | VUndefined
  | VNull
  | VBoolean (b : bool)
  | VNumber (x : number)
  | VString (s : string).

(** [String(v)]. *)
Definition ToString (v : value) : string :=
  match v with
  | VUndefined => "undefined"
  | VNull => "null"
  | VBoolean true => "true"
  | VBoolean false => "false"
  | VNumber x => numberToString x
  | VString s => s
  end.

(** [parseFloat(v)]: the argument is converted to a string first. *)
Definition parseFloat (v : value) : number := parseFloatString (ToString v).

Local Open Scope list_scope.

(** An ordinary object with string keys: its own properties in the order
    [Object.keys] lists them, array indices first in ascending order, then
    the other keys in order of creation. *)
Definition object (V : Type) : Type := list (string * V).

(** The array index a key denotes: the canonical decimal form of an
    integer below [2^32 - 1]. *)
Definition arrayIndex (k : string) : option Z :=
  let ds := list_ascii_of_string k in
  let n := digitsValue ds in
  if forallb isDigit ds && String.eqb (decimal (Z.to_N n)) k
     && (n <=? 4294967294)%Z
  then Some n else None.

Definition keys {V} (o : object V) : list string := map fst o.

(** [o[k]] for an own property; [None] is [undefined]. *)
Fixpoint get {V} (o : object V) (k : string) : option V :=
  match o with
  | [] => None
  | (k', v) :: r => if String.eqb k' k then Some v else get r k
  end.

Definition has {V} (o : object V) (k : string) : bool :=
  match get o k with Some _ => true | None => false end.

(** The property names every ordinary object inherits from
    [Object.prototype]; they name functions, and [__proto__] the prototype
    itself. *)
Definition objectPrototype : list string :=
  [ "constructor"; "__proto__"; "__defineGetter__"; "__defineSetter__";
    "__lookupGetter__"; "__lookupSetter__"; "hasOwnProperty";
    "isPrototypeOf"; "propertyIsEnumerable"; "toLocaleString"; "toString";
    "valueOf" ].

Definition inherited (k : string) : bool :=
  existsb (String.eqb k) objectPrototype.

(** What [o[k]] finds on an object literal: an own property, a property of
    the prototype (truthy, not an array), or nothing ([undefined]). *)
Inductive property (V : Type) : Type :=
  | Own (v : V)
  | Inherited
  | Missing.
Arguments Own {V} v.
Arguments Inherited {V}.
Arguments Missing {V}.

Definition lookup {V} (o : object V) (k : string) : property V :=
  match get o k with
  | Some v => Own v
  | None => if inherited k then Inherited else Missing
  end.

(** Overwrite the value of a key that exists; the order is kept. *)
Fixpoint update {V} (o : object V) (k : string) (v : V) : object V :=
  match o with
  | [] => []
  | (k', v') :: r =>
      if String.eqb k' k then (k', v) :: r else (k', v') :: update r k v
  end.

(** Create the array-index key [k = i]: after the smaller indices. *)
Fixpoint insertIndex {V} (o : object V) (i : Z) (k : string) (v : V)
  : object V :=
  match o with
  | [] => [(k, v)]
  | (k', v') :: r =>
      match arrayIndex k' with
      | Some j => if (j <? i)%Z then (k', v') :: insertIndex r i k v
                  else (k, v) :: o
      | None => (k, v) :: o
      end
  end.

(** [o[k] = v] for a key other than [__proto__]: an own property is
    overwritten in place, a new one is created. *)
Definition set {V} (o : object V) (k : string) (v : V) : object V :=
  if has o k then update o k v
  else match arrayIndex k with
       | Some i => insertIndex o i k v
       | None => o ++ [(k, v)]
       end.

(** [a.map((x, idx) => f(x, idx))]. *)
Fixpoint mapFrom {A B} (f : A -> nat -> B) (idx : nat) (a : list A) : list B :=
  match a with
  | [] => []
  | x :: r => f x idx :: mapFrom f (S idx) r
  end.

Definition mapi {A B} (f : A -> nat -> B) (a : list A) : list B :=
  mapFrom f 0 a.

(** [a.forEach((x, idx) => ...)] threading the state the callback mutates. *)
Fixpoint forEachFrom {A St} (f : St -> A -> nat -> St) (idx : nat)
    (a : list A) (st : St) : St :=
  match a with
  | [] => st
  | x :: r => forEachFrom f (S idx) r (f st x idx)
  end.

(** [a[i]]; [None] is [undefined]. *)
Definition at_ {A} (a : list A) (i : nat) : option A := nth_error a i.

(** [a.sort(comparefn)].  The sort is stable; [comparefn(x, y)] positive
    puts [y] first, anything else (negative, zero, NaN) leaves [x] before
    [y].  For a consistent comparator every conforming sort returns this
    list. *)
Section Sort.
Context {A : Type}.
Variable comparefn : A -> A -> number.

Fixpoint insert (x : A) (l : list A) : list A :=
  match l with
  | [] => [x]
  | y :: r =>
      if gt (comparefn x y) zero then y :: insert x r else x :: l
  end.

Fixpoint sort (l : list A) : list A :=
  match l with
  | [] => []
  | x :: r => insert x (sort r)
  end.
End Sort.

End JS.

(* ================================================================== *)
(** * types.ts and constants.ts *)
(* ================================================================== *)

(** [ChemicalData].  [sampleID] is a small non-negative integer (an array
    index plus one, or a literal of the mock table); the optional fields are
    absent as [None]. *)
Record ChemicalData : Type := {
  sampleID : nat;
  SiO2 : JS.number;
  Al2O3 : JS.number;
  FexOy : JS.number;
  Na2O : JS.number;
  K2O : JS.number;
  CaO : JS.number;
  MgO : JS.number;
  TiO2 : JS.number;
  source : option string;
  temperature : JS.number;
  viscosityValue : JS.number; Remark : option string;
  actualMeasuredData : option JS.number
}.

(** A numeric literal of the source text. *)
Definition lit (s : string) : JS.number := JS.parseFloatString s.

Definition hawaii (id : nat) (temp visc : string) : ChemicalData :=
  {| sampleID := id; SiO2 := lit "53.5"; Al2O3 := lit "15.33";
     FexOy := lit "10.6"; Na2O := lit "2.32"; K2O := lit "1.87";
     CaO := lit "7.58"; MgO := lit "7.48"; TiO2 := lit "0.94";
     source := None; temperature := lit temp; viscosityValue := lit visc;
     Remark := Some "Hawaii"; actualMeasuredData := Some (lit "1") |}.

Definition iceland (id : nat) (temp visc : string) : ChemicalData :=
  {| sampleID := id; SiO2 := lit "48.2"; Al2O3 := lit "13.10";
     FexOy := lit "11.2"; Na2O := lit "1.95"; K2O := lit "0.45";
     CaO := lit "10.8"; MgO := lit "9.50"; TiO2 := lit "1.80";
     source := None; temperature := lit temp; viscosityValue := lit visc;
     Remark := Some "Iceland"; actualMeasuredData := Some (lit "1") |}.

(** [MOCK_DATA]: two compositions, five temperatures each.  The remarks
    are abbreviated to their Latin part. *)
Definition MOCK_DATA : list ChemicalData :=
  [ hawaii 1 "1488" "2.268"; hawaii 2 "1470" "2.232";
    hawaii 3 "1460" "2.241"; hawaii 4 "1450" "2.280";
    hawaii 5 "1440" "2.322";
    iceland 6 "1480" "1.850"; iceland 7 "1450" "1.920";
    iceland 8 "1420" "2.015"; iceland 9 "1390" "2.150";
    iceland 10 "1360" "2.350" ].

(** [ModelType] and [TrainingConfig]. *)
Inductive ModelType : Type :=
  | DISTILLATION | PHYSICS_LIGHTGBM | STACKING | XGBOOST | MLP.

Record DbConfig : Type := {
  host : string;
  port : string;
  user : string;
  password : option string;
  database : string;
  table : string
}.

Record TrainingConfig : Type := {
  target : string;
  features : list string;
  testSize : JS.number;
  modelType : ModelType;
  dbConfig : DbConfig
}.

Definition AVAILABLE_FEATURES : list string :=
  [ "SiO2"; "Al2O3"; "FexOy"; "Na2O"; "K2O"; "CaO"; "MgO"; "TiO2";
    "temperature" ].

(* ================================================================== *)
(** * What the import hands to its surroundings *)
(* ================================================================== *)

(** The texts of the four [alert] calls of ProjectBuilder. *)
Inductive message : Type :=
  | NoValidData        (* no valid data parsed; check the header row *)
  | ProcessingFailed   (* data processing failed *)
  | ExcelParseFailed   (* Excel parsing failed *)
  | CsvParseFailed.    (* CSV parsing failed *)

(** The calls that leave ProjectBuilder, in the order they are made. *)
Inductive effect : Type :=
  | OnDataLoaded (data : list ChemicalData)
  | OnConnect (host db : string)
  | Alert (m : message)
  | ConsoleError.

(* ================================================================== *)
(** * components/ProjectBuilder.tsx *)
(* ================================================================== *)

Module ProjectBuilder.

(** An element of [rawData]: a decoded row object, or a falsy value
    ([null], [undefined]) as [None]. *)
Definition row : Type := option (JS.object JS.value).

(** [keys.find(k => k.toLowerCase().includes(keyPart.toLowerCase()))]. *)
Definition findKey (o : JS.object JS.value) (keyPart : string)
  : option string :=
  find (fun k => JS.includes (JS.toLowerCase k) (JS.toLowerCase keyPart))
       (JS.keys o).

(** [row[match]] for a key that [Object.keys] listed. *)
Definition cell (o : JS.object JS.value) (k : string) : JS.value :=
  match JS.get o k with Some v => v | None => JS.VUndefined end.

Definition fuzzyGet (r : row) (keyPart : string) : JS.number :=
  match r with
  | None => JS.zero
  | Some o =>
      match findKey o keyPart with
      | Some (String _ _ as k) =>
          let val := JS.parseFloat (cell o k) in
          if JS.isNaN val then JS.zero else val
      | _ => JS.zero                 (* no match, or the empty key *)
      end
  end.

Definition fuzzyGetStr (r : row) (keyPart : string) : string :=
  match r with
  | None => ""
  | Some o =>
      match findKey o keyPart with
      | Some (String _ _ as k) => JS.ToString (cell o k)
      | _ => ""
      end
  end.

(** The object literal built for one row. *)
Definition parseRow (r : row) (idx : nat) : ChemicalData :=
  {| sampleID := idx + 1;
     SiO2 := fuzzyGet r "SiO2";
     Al2O3 := fuzzyGet r "Al2O3";
     FexOy := JS.or (fuzzyGet r "Fe") (fuzzyGet r "FexOy");
     Na2O := fuzzyGet r "Na2O";
     K2O := fuzzyGet r "K2O";
     CaO := fuzzyGet r "CaO";
     MgO := fuzzyGet r "MgO";
     TiO2 := fuzzyGet r "TiO2";
     source := None;
     temperature := JS.or (fuzzyGet r "temp") (fuzzyGet r "temperature");
     viscosityValue :=
       JS.or (JS.or (fuzzyGet r "viscosity") (fuzzyGet r "log10"))
             (fuzzyGet r "Value");
     Remark :=
       Some (JS.or_str (JS.or_str (fuzzyGetStr r "remark")
                                  (fuzzyGetStr r "source"))
                       (fuzzyGetStr r "name"));
     actualMeasuredData := Some (lit "1") |}.

Definition parsedData (rawData : list row) : list ChemicalData :=
  JS.mapi parseRow rawData.

(** The predicate of [parsedData.filter]. *)
Definition accepted (d : ChemicalData) : bool :=
  JS.gt (temperature d) JS.zero
  && (JS.strict_neq (viscosityValue d) JS.zero
      || JS.strict_neq (SiO2 d) JS.zero).

Definition validData (rawData : list row) : list ChemicalData :=
  filter accepted (parsedData rawData).

(** [processImportedData]: nothing in the body of its [try] throws on an
    array of rows, so the [catch] branch is not taken. *)
Definition processImportedData (rawData : list row) : list effect :=
  let valid := validData rawData in
  if 0 <? List.length valid then
    [ OnDataLoaded valid;
      OnConnect "Imported File"
        ("Found " ++ JS.decimal (N.of_nat (List.length valid))
                  ++ " rows")%string ]
  else [ Alert NoValidData ].

(** The file chosen in the input element: its name and what the
    [FileReader] yields for it. *)
Record File : Type := { name : string; result : string }.

Definition isExcel (file : File) : bool :=
  JS.endsWith (name file) ".xlsx" || JS.endsWith (name file) ".xls".

Definition newline : ascii := ascii_of_nat 10.

(** The object built for one data line: [obj[h] = values[i]] for each
    header.  Assigning a string or [undefined] to [__proto__] is ignored by
    the setter the object inherits. *)
Definition lineObject (headers : list string) (rowStr : string)
  : JS.object JS.value :=
  let values := JS.split "," rowStr in
  JS.forEachFrom
    (fun obj h i =>
       if String.eqb h "__proto__" then obj
       else JS.set obj h (match JS.at_ values i with
                          | Some v => JS.VString v
                          | None => JS.VUndefined
                          end))
    0 headers [].

(** [reader.onload] of the delimited-text branch. *)
Definition onTextLoad (text : string) : list effect :=
  match text with
  | EmptyString => []
  | _ =>
      let rows :=
        filter (fun r => negb (String.eqb (JS.trim r) ""))
               (JS.split newline text) in
      if List.length rows <? 2 then []
      else
        match rows with
        | [] => []
        | r0 :: rest =>
            let headers := map JS.trim (JS.split "," r0) in
            processImportedData
              (map (fun rowStr => Some (lineObject headers rowStr)) rest)
        end
  end.

Section Upload.
(** [read] followed by [utils.sheet_to_json] on the first sheet, from the
    xlsx package; [None] when it throws. *)
Variable sheet_to_json : string -> option (list row).

(** [handleFileUpload], with each reader's [onload] run on the result of
    the read. *)

Definition handleFileUpload (file : option File) : list effect :=
  match file with
  | None => []
  | Some f =>
      if isExcel f then
        match sheet_to_json (result f) with
        | Some jsonData => processImportedData jsonData
        | None => [ ConsoleError; Alert ExcelParseFailed ]
        end
      else onTextLoad (result f)
  end.
End Upload.

(** ** The configuration and the mock connection *)

(** The initial value of [config]. *)
Definition initialConfig : TrainingConfig :=
  {| target := "viscosityValue";
     features := AVAILABLE_FEATURES;
     testSize := lit "0.2";
     modelType := PHYSICS_LIGHTGBM;
     dbConfig := {| host := "localhost"; port := "3306"; user := "root";
                    password := Some "sql2008";
                    database := "basalt_research"; table := "melt_data" |} |}.

(** The keys of [config.dbConfig]. *)
Inductive DbKey : Type :=
  | KeyHost | KeyPort | KeyUser | KeyPassword | KeyDatabase | KeyTable.

(** [{ ...db, [key]: value }]. *)
Definition withKey (db : DbConfig) (key : DbKey) (value : string)
  : DbConfig :=
  {| host := match key with KeyHost => value | _ => host db end;
     port := match key with KeyPort => value | _ => port db end;
     user := match key with KeyUser => value | _ => user db end;
     password := match key with
                 | KeyPassword => Some value
                 | _ => password db
                 end;
     database := match key with KeyDatabase => value | _ => database db end;
     table := match key with KeyTable => value | _ => table db end |}.

(** [updateDbConfig], as the function it passes to [setConfig]. *)
Definition updateDbConfig (key : DbKey) (value : string)
    (prev : TrainingConfig) : TrainingConfig :=
  {| target := target prev;
     features := features prev;
     testSize := testSize prev;
     modelType := modelType prev;
     dbConfig := withKey (dbConfig prev) key value |}.

(** [handleTestConnection], with the timer run: the calls it makes. *)
Definition handleTestConnection (isLocal : bool) (config : TrainingConfig)
  : list effect :=
  if negb isLocal then []
  else [ OnDataLoaded MOCK_DATA;
         OnConnect (host (dbConfig config)) (database (dbConfig config)) ].

(** ** The files of a generated answer *)

Module GeneratedFile.
Record t : Type := { name : string; content : string }.
End GeneratedFile.

(** What [.] matches in a regular expression without the [s] flag: any
    code unit but a line terminator (LF and CR, below 256). *)
Definition isLineTerminator (c : ascii) : bool :=
  (JS.code c =? 10) || (JS.code c =? 13).

(** [s.substring(n)]. *)
Fixpoint drop (n : nat) (s : string) : string :=
  match n, s with
  | S m, String _ r => drop m r
  | _, _ => s
  end.

(** [(.*?) ---] tried at the head of [s]: the capture is the shortest run
    of code units, none a line terminator, that [" ---"] follows. *)
Fixpoint lazyCapture (s : string) : option string :=
  if JS.startsWith " ---" s then Some ""
  else
    match s with
    | String c r =>
        if isLineTerminator c then None
        else option_map (String c) (lazyCapture r)
    | EmptyString => None
    end.

(** [/--- FILE: (.*?) ---/] tried at the head of [s]: the capture of the
    match, which is 14 code units longer. *)
Definition matchDelimiter (s : string) : option string :=
  if JS.startsWith "--- FILE: " s then lazyCapture (drop 10 s) else None.

(** [s.split(/--- FILE: (.*?) ---/g)]: the text before the first match,
    then for each match, from left to right and without overlap, its
    capture and the text up to the next match.  [skip] counts the code
    units of the last match that are still to be passed. *)
Fixpoint splitFrom (skip : nat) (s : string) : list string :=
  match s with
  | EmptyString => [EmptyString]
  | String c r =>
      match skip with
      | S n => splitFrom n r
      | O =>
          match matchDelimiter s with
          | Some capture =>
              EmptyString :: capture
                :: splitFrom (13 + String.length capture) r
          | None =>
              match splitFrom 0 r with
              | p :: ps => String c p :: ps
              | [] => [String c EmptyString]
              end
          end
      end
  end.

Definition splitFiles (text : string) : list string := splitFrom 0 text.

(** The loop [for (i = 1; i < parts.length; i += 2)] on [parts] from
    index [i]; [None] when [parts[i + 1]] is missing, where [trim] throws. *)
Fixpoint filesFrom (parts : list string) : option (list GeneratedFile.t) :=
  match parts with
  | [] => Some []
  | name :: rest =>
      match rest with
      | [] => None
      | content :: rest' =>
          match filesFrom rest' with
          | Some files =>
              Some ({| GeneratedFile.name := JS.trim name;
                       GeneratedFile.content := JS.trim content |} :: files)
          | None => None
          end
      end
  end.

(** The tabs and the state of the code tab. *)
Inductive tab : Type := Config | Code | Advice.

Record codeView : Type := {
  loading : bool;
  activeTab : tab;
  generatedFiles : list GeneratedFile.t;
  selectedFileIndex : nat
}.

(** [parseGeneratedOutput]; [None] when it throws. *)
Definition parseGeneratedOutput (text : string) (st : codeView)
  : option codeView :=
  match filesFrom (tl (splitFiles text)) with
  | Some files =>
      let files :=
        match files with
        | [] => [ {| GeneratedFile.name := "generated_script.py";
                     GeneratedFile.content := text |} ]
        | _ => files
        end in
      Some {| loading := loading st; activeTab := activeTab st;
              generatedFiles := files; selectedFileIndex := 0 |}
  | None => None
  end.

(** What a handler guarded by the API key does: it alerts that the key is
    missing and returns, or it runs to its end. *)
Inductive guarded (St : Type) : Type :=
  | MissingKey
  | Completed (st : St).
Arguments MissingKey {St}.
Arguments Completed {St} st.

(** The file list of the [catch] branch of [handleGenerate]. *)
Definition errorLog : GeneratedFile.t :=
  {| GeneratedFile.name := "error.log";
     GeneratedFile.content :=
       "Error generating code. Please check API Key or Network." |}.

(** [handleGenerate], with the awaited call run to its end.  [API_KEY] is
    [process.env.API_KEY], empty when unset; [generated] is the text
    [generatePythonCode] resolves with, [None] when it rejects or resolves
    with [undefined], on which [split] throws. *)
Definition handleGenerate (API_KEY : string) (generated : option string)
    (st : codeView) : guarded codeView :=
  match API_KEY with
  | EmptyString => MissingKey
  | _ =>
      let st1 :=
        {| loading := true; activeTab := Code; generatedFiles := [];
           selectedFileIndex := selectedFileIndex st |} in
      let caught :=
        {| loading := loading st1; activeTab := activeTab st1;
           generatedFiles := [errorLog];
           selectedFileIndex := selectedFileIndex st1 |} in
      let st2 :=
        match generated with
        | Some text =>
            match parseGeneratedOutput text st1 with
            | Some st' => st'
            | None => caught
            end
        | None => caught
        end in
      Completed {| loading := false; activeTab := activeTab st2;
                   generatedFiles := generatedFiles st2;
                   selectedFileIndex := selectedFileIndex st2 |}
  end.

(** [generatedFiles[selectedFileIndex]], which the code tab reads [name]
    and [content] of when the list is not empty. *)
Definition selectedFile (st : codeView) : option GeneratedFile.t :=
  JS.at_ (generatedFiles st) (selectedFileIndex st).

(** The click on the entry [idx] of the file list. *)
Definition selectFile (idx : nat) (st : codeView) : codeView :=
  {| loading := loading st; activeTab := activeTab st;
     generatedFiles := generatedFiles st; selectedFileIndex := idx |}.

(** ** The chat with the expert *)

(** A message of the history.  Its [content] is a string, or [undefined]
    as [None]: the answer of the model is whatever [askExpert] resolved
    with. *)
Module ChatMessage.
Inductive Role : Type := user | model.
Record t : Type := { role : Role; content : option string }.
End ChatMessage.

(** What awaiting [askExpert] yields: the value it resolves with, which is
    [response.text] and so [undefined] when the response holds no text, or
    a rejection. *)
Inductive answer : Type :=
  | Resolved (text : option string)
  | Rejected.

Record chat : Type := {
  chatHistory : list ChatMessage.t;
  questionInput : string;
  isChatThinking : bool
}.

Section Chat.
(** The sentence the [catch] branch answers with. *)
Variable apology : string.

(** [handleSendMessage], with the awaited call run to its end.  [reply] is
    what awaiting [askExpert] yields. *)
Definition handleSendMessage (API_KEY : string) (msgOverride : option string)
    (reply : answer) (st : chat) : guarded chat :=
  match API_KEY with
  | EmptyString => MissingKey
  | _ =>
      let msg :=
        JS.or_str (match msgOverride with Some m => m | None => "" end)
                  (questionInput st) in
      if String.eqb (JS.trim msg) "" then Completed st
      else
        let userMsg :=
          {| ChatMessage.role := ChatMessage.user;
             ChatMessage.content := Some msg |} in
        let aiMsg :=
          {| ChatMessage.role := ChatMessage.model;
             ChatMessage.content :=
               match reply with
               | Resolved response => response
               | Rejected => Some apology
               end |} in
        Completed {| chatHistory := (chatHistory st ++ [userMsg]) ++ [aiMsg];
                     questionInput := "";
                     isChatThinking := false |}
  end.
End Chat.

End ProjectBuilder.

(* ================================================================== *)
(** * services/geminiService.ts: the key check *)
(* ================================================================== *)

Module GeminiService.

Section Service.
(** Whether the one-word request made with a key succeeds. *)
Variable ping : string -> bool.

(** [validateApiKey], awaited: no request is made for an empty key, and a
    failed request is caught. *)
Definition validateApiKey (apiKey : string) : bool :=
  match apiKey with
  | EmptyString => false
  | _ => ping apiKey
  end.
End Service.

End GeminiService.

(* ================================================================== *)
(** * App.tsx: the state the two callbacks write *)
(* ================================================================== *)

Module App.

Record state : Type := {
  viscosityData : list ChemicalData;
  isConnected : bool;
  connectedDbInfo : option (string * string)
}.

Definition initial : state :=
  {| viscosityData := []; isConnected := false; connectedDbInfo := None |}.

Definition handleDbConnect (host db : string) (st : state) : state :=
  {| viscosityData := viscosityData st;
     isConnected := true;
     connectedDbInfo := Some (host, db) |}.

Definition handleDataLoaded (data : list ChemicalData) (st : state) : state :=
  {| viscosityData := data;
     isConnected := true;
     connectedDbInfo := connectedDbInfo st |}.

(** ProjectBuilder is mounted with [onConnect = handleDbConnect] and
    [onDataLoaded = handleDataLoaded]; alerts and console output do not
    touch the state. *)
Definition perform (st : state) (e : effect) : state :=
  match e with
  | OnDataLoaded data => handleDataLoaded data st
  | OnConnect host db => handleDbConnect host db st
  | Alert _ | ConsoleError => st
  end.

Definition run (es : list effect) (st : state) : state :=
  fold_left perform es st.

(** The key field, its status light, and [process.env.API_KEY], which is
    empty when unset. *)
Inductive KeyStatus : Type := idle | checking | valid | invalid.

Record keyState : Type := {
  keyInput : string;
  keyStatus : KeyStatus;
  API_KEY : string
}.

Definition handleKeyChange (value : string) (st : keyState) : keyState :=
  {| keyInput := value; keyStatus := idle; API_KEY := API_KEY st |}.

Section Verify.
Variable ping : string -> bool.

(** [handleVerifyKey], with the awaited check run to its end. *)
Definition handleVerifyKey (st : keyState) : keyState :=
  if String.eqb (JS.trim (keyInput st)) "" then st
  else if GeminiService.validateApiKey ping (keyInput st) then
    {| keyInput := keyInput st; keyStatus := valid;
       API_KEY := keyInput st |}
  else
    {| keyInput := keyInput st; keyStatus := invalid; API_KEY := "" |}.
End Verify.

End App.

(* ================================================================== *)
(** * components/DataView.tsx *)
(* ================================================================== *)

Module DataView.

Local Open Scope string_scope.

Definition getCompositionSignature (row : ChemicalData) : string :=
  JS.toFixed (JS.or (SiO2 row) JS.zero) 2 ++ "-" ++
  JS.toFixed (JS.or (Al2O3 row) JS.zero) 2 ++ "-" ++
  JS.toFixed (JS.or (FexOy row) JS.zero) 2 ++ "-" ++
  JS.toFixed (JS.or (Na2O row) JS.zero) 2 ++ "-" ++
  JS.toFixed (JS.or (K2O row) JS.zero) 2 ++ "-" ++
  JS.toFixed (JS.or (CaO row) JS.zero) 2 ++ "-" ++
  JS.toFixed (JS.or (MgO row) JS.zero) 2 ++ "-" ++
  JS.toFixed (JS.or (TiO2 row) JS.zero) 2.

Local Open Scope list_scope.

Definition groups : Type := JS.object (list ChemicalData).

(** The body of [data.forEach]: create the group if [groups[sig]] is
    falsy, then push the row onto it.  After the first step [groups[sig]]
    is an own array for every signature (lemma [addRow_pushes]), so the
    last branch, where [push] would fail, is never taken. *)
Definition addRow (g : groups) (row : ChemicalData) : groups :=
  let sig := getCompositionSignature row in
  let g1 :=
    match JS.lookup g sig with
    | JS.Missing => JS.set g sig []
    | _ => g
    end in
  match JS.lookup g1 sig with
  | JS.Own rows => JS.update g1 sig (rows ++ [row])
  | _ => g1
  end.

Definition groupedData (data : list ChemicalData) : groups :=
  match data with
  | [] => []
  | _ => fold_left addRow data []
  end.

Definition groupKeys (data : list ChemicalData) : list string :=
  JS.keys (groupedData data).

(** The first effect, "update selection when keys change": the value it
    passes to [setSelectedGroupSignature], if it calls it. *)
Definition keysEffect (groupKeys : list string)
    (selectedGroupSignature : string) : option string :=
  match groupKeys with
  | k0 :: _ =>
      if String.eqb selectedGroupSignature ""
         || negb (existsb (String.eqb selectedGroupSignature) groupKeys)
      then Some k0 else None
  | [] => Some ""
  end.

(** The second effect, "reset selection when data reference changes". *)
Definition dataEffect (groupKeys : list string) : option string :=
  match groupKeys with
  | k0 :: _ => Some k0
  | [] => None
  end.

(** One commit of the component showing [data] with the selection at
    [selectedGroupSignature].  [groupKeys] is a fresh array on every
    render, so the first effect runs on every commit; the second runs when
    the [data] reference differs from the previous commit's (and on mount).
    Both read the values of this render; the state after the commit is the
    one of the last setter call. *)
Definition commit (dataChanged : bool) (data : list ChemicalData)
    (selectedGroupSignature : string) : string :=
  let ks := groupKeys data in
  let s1 :=
    match keysEffect ks selectedGroupSignature with
    | Some v => v
    | None => selectedGroupSignature
    end in
  if dataChanged then
    match dataEffect ks with Some v => v | None => s1 end
  else s1.

(** A commit that changed the selection renders again with the same
    [data]; [settle] is the selection once the re-render has committed. *)
Definition settle (dataChanged : bool) (data : list ChemicalData)
    (selectedGroupSignature : string) : string :=
  commit false data (commit dataChanged data selectedGroupSignature).

(** The comparator of the projection. *)
Definition byTemperature (a b : ChemicalData) : JS.number :=
  JS.sub (temperature a) (temperature b).

(** [currentData]; [None] when the render throws, which spreading a
    property of the prototype does. *)
Definition currentData (data : list ChemicalData)
    (selectedGroupSignature : string) : option (list ChemicalData) :=
  match selectedGroupSignature with
  | EmptyString => Some []
  | _ =>
      match JS.lookup (groupedData data) selectedGroupSignature with
      | JS.Own rows => Some (JS.sort byTemperature rows)
      | JS.Missing => Some []
      | JS.Inherited => None
      end
  end.

(** [currentData[0]], [undefined] on an empty projection. *)
Definition currentSample (data : list ChemicalData)
    (selectedGroupSignature : string) : option ChemicalData :=
  match currentData data selectedGroupSignature with
  | Some rows => JS.at_ rows 0
  | None => None
  end.

(** An entry of the dropdown. *)
Record SampleOption : Type := { value : string; label : string }.

Local Open Scope string_scope.

(** The label of an entry, from the first row of its group.  A truthy
    [Remark] is a string that is not empty; the identifier is printed in
    decimal. *)
Definition labelOf (firstRow : ChemicalData) : string :=
  match Remark firstRow with
  | Some (String _ _ as remark) =>
      JS.decimal (N.of_nat (sampleID firstRow)) ++ " - " ++ remark
  | _ => "Sample " ++ JS.decimal (N.of_nat (sampleID firstRow))
  end.

(** The callback of [groupKeys.map] in [sampleOptions]; [None] when it
    throws, which reading [Remark] of a missing first row (or an index of a
    missing group) does. *)
Definition sampleOption (groupedData : groups) (sig : string)
  : option SampleOption :=
  match JS.lookup groupedData sig with
  | JS.Own rows =>
      match JS.at_ rows 0 with
      | Some firstRow => Some {| value := sig; label := labelOf firstRow |}
      | None => None
      end
  | _ => None
  end.

Local Open Scope list_scope.

(** [sampleOptions]: one entry per key, unless a callback throws. *)
Definition sampleOptions (data : list ChemicalData)
  : option (list SampleOption) :=
  fold_right
    (fun sig rest =>
       match sampleOption (groupedData data) sig, rest with
       | Some o, Some os => Some (o :: os)
       | _, _ => None
       end)
    (Some []) (groupKeys data).

(** The test of the empty-state render. *)
Definition emptyState (isConnected : bool) (data : list ChemicalData) : bool :=
  negb isConnected || (List.length data =? 0)%nat.

End DataView.

(* ================================================================== *)
(** * Vocabulary of the statements *)
(* ================================================================== *)

(** The rows of the scenarios. *)
Definition rowA : ProjectBuilder.row :=
  Some [ ("SiO2", JS.VString "53.5"); ("temp", JS.VString "1488");
         ("viscosity", JS.VString "2.268") ].

Definition rowB : ProjectBuilder.row :=
  Some [ ("SiO2", JS.VString "53.5"); ("temperature", JS.VString "1470");
         ("log10", JS.VString "2.232") ].

Definition rowFoo : ProjectBuilder.row := Some [ ("foo", JS.VString "bar") ].

(** The property a key part selects: the first one, in the order of
    [Object.keys], whose lower-cased key contains the lower-cased part. *)
Definition firstMatch (o : JS.object JS.value) (keyPart : string)
  : option (string * JS.value) :=
  find (fun kv => JS.includes (JS.toLowerCase (fst kv))
                              (JS.toLowerCase keyPart)) o.

(** The lines of a text that survive the blank-line filter of the
    delimited-text branch, and the lines that are not empty. *)
Definition nonBlankLines (text : string) : list string :=
  filter (fun r => negb (String.eqb (JS.trim r) ""))
         (JS.split ProjectBuilder.newline text).

Definition nonEmptyLines (text : string) : list string :=
  filter (fun r => negb (String.eqb r ""))
         (JS.split ProjectBuilder.newline text).

(** [s] occurs in [l]. *)
Definition mem (s : string) (l : list string) : bool :=
  existsb (String.eqb s) l.

(** The distinct elements of a list in the order they are first seen. *)
Fixpoint firstSeen (l : list string) : list string :=
  match l with
  | [] => []
  | x :: r => x :: filter (fun y => negb (String.eqb y x)) (firstSeen r)
  end.

(** The samples of [data] whose signature is [k], in the order of [data]. *)
Definition withSignature (k : string) (data : list ChemicalData)
  : list ChemicalData :=
  filter (fun d => String.eqb (DataView.getCompositionSignature d) k) data.

(** The grouping read off the sample sequence: one group per signature, in
    first-seen order, each holding its samples in input order. *)
Definition grouping (data : list ChemicalData) : DataView.groups :=
  map (fun k => (k, withSignature k data))
      (firstSeen (map DataView.getCompositionSignature data)).

(** Two samples of [data] are placed in the same group. *)
Definition sameGroup (data : list ChemicalData) (a b : ChemicalData) : Prop :=
  exists k rows,
    JS.get (DataView.groupedData data) k = Some rows
    /\ In a rows /\ In b rows.

(** The eight composition fields, in the order of the signature. *)
Definition compositionFields : list (ChemicalData -> JS.number) :=
  [ SiO2; Al2O3; FexOy; Na2O; K2O; CaO; MgO; TiO2 ].

(** A composition field rounded to two decimal digits, as the signature
    holds it. *)
Definition rounded (x : JS.number) : string :=
  JS.toFixed (JS.or x JS.zero) 2.

(** Two samples whose rounded composition fields are pairwise identical. *)
Definition sameRounded (a b : ChemicalData) : Prop :=
  Forall (fun f => rounded (f a) = rounded (f b)) compositionFields.

(** The decimal expansion of a number cut after its second decimal place,
    in hundredths: two numbers with the same cut differ only beyond the
    second decimal place. *)
Definition truncated2 (x : JS.number) : option Z :=
  match x with
  | S754_zero _ => Some 0%Z
  | S754_finite neg m e =>
      let '(num, den) := JS.fraction m e in
      let h := (100 * num / den)%Z in
      Some (if neg then (- h)%Z else h)
  | _ => None
  end.

(** A sample with the given SiO2 content and nothing else. *)
Definition silica (id : nat) (sio2 temp : string) : ChemicalData :=
  {| sampleID := id; SiO2 := lit sio2; Al2O3 := JS.zero; FexOy := JS.zero;
     Na2O := JS.zero; K2O := JS.zero; CaO := JS.zero; MgO := JS.zero;
     TiO2 := JS.zero; source := None; temperature := lit temp;
     viscosityValue := lit "2"; Remark := None; actualMeasuredData := None |}.

(** A string without a hyphen. *)
Fixpoint noHyphen (s : string) : bool :=
  match s with
  | EmptyString => true
  | String c r => negb (Ascii.eqb c "-") && noHyphen r
  end.

(** The shape of a printed field: an optional minus sign and a non-empty
    body without a hyphen. *)
Definition fieldShape (s : string) : Prop :=
  exists body, body <> "" /\ noHyphen body = true
               /\ (s = body \/ s = String "-" body).

(** ** The order of number values

    A number other than NaN whose exponent is not below that of the
    smallest subnormal denotes a value: minus or plus infinity, or an
    integer multiple of [2^-1074]. *)
Definition comparable (x : JS.number) : bool :=
  match x with
  | S754_nan => false
  | S754_finite _ _ e => (-1074 <=? e)%Z
  | _ => true
  end.

(** -1 for minus infinity, 1 for plus infinity, 0 in between. *)
Definition level (x : JS.number) : Z :=
  match x with
  | S754_infinity true => (-1)%Z
  | S754_infinity false => 1%Z
  | _ => 0%Z
  end.

(** The value of a finite number in units of [2^-1074]. *)
Definition scaled (x : JS.number) : Z :=
  match x with
  | S754_finite s m e =>
      ((if s then -1 else 1) * Zpos m * 2 ^ (e + 1074))%Z
  | _ => 0%Z
  end.

(** [x] is below [y], is at most [y], has the value of [y]. *)
Definition value_lt (x y : JS.number) : Prop :=
  (level x < level y)%Z \/ (level x = level y /\ (scaled x < scaled y)%Z).

Definition value_le (x y : JS.number) : Prop :=
  (level x < level y)%Z \/ (level x = level y /\ (scaled x <= scaled y)%Z).

Definition sameValue (x y : JS.number) : bool :=
  (level x =? level y)%Z && (scaled x =? scaled y)%Z.

(** The temperature of a sample denotes a value. *)
Definition hasTemperature (d : ChemicalData) : Prop :=
  comparable (temperature d) = true.

(** Samples in ascending order of temperature. *)
Definition ascending (l : list ChemicalData) : Prop :=
  StronglySorted (fun a b => value_le (temperature a) (temperature b)) l.

(** The samples of [l] whose temperature has the value of [t], in the
    order of [l]. *)
Definition atTemperature (t : JS.number) (l : list ChemicalData)
  : list ChemicalData :=
  filter (fun d => sameValue (temperature d) t) l.

(** ** Rows and their keys *)

(** The row with every key replaced by its image under [rename]. *)
Definition renameKeys {V} (rename : string -> string) (o : JS.object V)
  : JS.object V :=
  map (fun kv => (rename (fst kv), snd kv)) o.

(** A row none of whose keys contains temp, whatever the case; a falsy
    row has no key at all. *)
Definition lacksTemperature (r : ProjectBuilder.row) : Prop :=
  match r with
  | Some o =>
      forall k, In k (JS.keys o) ->
                JS.includes (JS.toLowerCase k) "temp" = false
  | None => True
  end.

(** The ten numeric fields of a sample. *)
Definition numericFields : list (ChemicalData -> JS.number) :=
  compositionFields ++ [ temperature; viscosityValue ].

Definition isEmpty (s : string) : bool := String.eqb s "".

(** [headers.lastIndexOf(h)], counting from [idx]. *)
Fixpoint lastIndexFrom (h : string) (idx : nat) (l : list string)
  : option nat :=
  match l with
  | [] => None
  | x :: r =>
      match lastIndexFrom h (S idx) r with
      | Some i => Some i
      | None => if String.eqb x h then Some idx else None
      end
  end.

(** The cell of a line at a column: a string, or [undefined] past the end
    of the line. *)
Definition cellAt (values : list string) (i : nat) : JS.value :=
  match JS.at_ values i with
  | Some v => JS.VString v
  | None => JS.VUndefined
  end.

(** The callback of [headers.forEach] in the delimited-text branch, on the
    cells of a line. *)
Definition assignCell (values : list string) (obj : JS.object JS.value)
    (h : string) (i : nat) : JS.object JS.value :=
  if String.eqb h "__proto__" then obj else JS.set obj h (cellAt values i).

(** ** Generated answers *)

(** The delimiter matches somewhere in the text. *)
Fixpoint delimited (s : string) : bool :=
  match ProjectBuilder.matchDelimiter s with
  | Some _ => true
  | None =>
      match s with
      | String _ r => delimited r
      | EmptyString => false
      end
  end.

(** A string without white space or line terminators. *)
Fixpoint noWhiteSpace (s : string) : bool :=
  match s with
  | EmptyString => true
  | String c r => negb (JS.isWhiteSpace c) && noWhiteSpace r
  end.

(** The code unit [c] does not occur in [s]. *)
Fixpoint lacks (c : ascii) (s : string) : bool :=
  match s with
  | EmptyString => true
  | String a r => negb (Ascii.eqb a c) && lacks c r
  end.

(** A line break. *)
Definition lineBreak : string := String ProjectBuilder.newline "".

(** An answer in the format the prompt of the service asks for: each file
    announced by a delimiter line and followed by its content. *)
Fixpoint render (files : list ProjectBuilder.GeneratedFile.t) : string :=
  match files with
  | [] => ""
  | f :: rest =>
      ("--- FILE: " ++ ProjectBuilder.GeneratedFile.name f ++ " ---"
       ++ lineBreak ++ ProjectBuilder.GeneratedFile.content f ++ lineBreak
       ++ render rest)%string
  end.

(** A file whose name holds no white space and whose content holds no
    delimiter prefix. *)
Definition plain (f : ProjectBuilder.GeneratedFile.t) : Prop :=
  noWhiteSpace (ProjectBuilder.GeneratedFile.name f) = true
  /\ JS.includes (ProjectBuilder.GeneratedFile.content f) "--- FILE: " = false.

(** A file with its content trimmed. *)
Definition trimmed (f : ProjectBuilder.GeneratedFile.t)
  : ProjectBuilder.GeneratedFile.t :=
  {| ProjectBuilder.GeneratedFile.name := ProjectBuilder.GeneratedFile.name f;
     ProjectBuilder.GeneratedFile.content :=
       JS.trim (ProjectBuilder.GeneratedFile.content f) |}.

(** A question: a message of the user whose content is a string that is
    not blank. *)
Definition isQuestion (m : ProjectBuilder.ChatMessage.t) : bool :=
  match ProjectBuilder.ChatMessage.role m,
        ProjectBuilder.ChatMessage.content m with
  | ProjectBuilder.ChatMessage.user, Some text =>
      negb (String.eqb (JS.trim text) "")
  | _, _ => false
  end.

(** An answer: a message of the model, whatever its content. *)
Definition isAnswer (m : ProjectBuilder.ChatMessage.t) : bool :=
  match ProjectBuilder.ChatMessage.role m with
  | ProjectBuilder.ChatMessage.model => true
  | ProjectBuilder.ChatMessage.user => false
  end.

(** A history of exchanges: a question, then its answer, and so on. *)
Fixpoint alternating (h : list ProjectBuilder.ChatMessage.t) : bool :=
  match h with
  | [] => true
  | q :: rest =>
      match rest with
      | a :: rest' => isQuestion q && isAnswer a && alternating rest'
      | [] => false
      end
  end.

(** ** Sessions *)

(** What the user does to load data: choose a file, or ask for the mock
    connection under the configuration of the moment. *)
Inductive action : Type :=
  | Upload (file : option ProjectBuilder.File)
  | TestConnection (isLocal : bool) (config : TrainingConfig).

Section Session.
Variable sheet_to_json : string -> option (list ProjectBuilder.row).

(** The state of the application after an action. *)
Definition act (st : App.state) (a : action) : App.state :=
  App.run
    match a with
    | Upload file => ProjectBuilder.handleFileUpload sheet_to_json file
    | TestConnection isLocal config =>
        ProjectBuilder.handleTestConnection isLocal config
    end
    st.

Definition session (actions : list action) (st : App.state) : App.state :=
  fold_left act actions st.
End Session.

(** The view shows its empty state. *)
Definition showsEmptyState (st : App.state) : bool :=
  DataView.emptyState (App.isConnected st) (App.viscosityData st).

(** [db[key]]. *)
Definition readKey (db : DbConfig) (key : ProjectBuilder.DbKey)
  : option string :=
  match key with
  | ProjectBuilder.KeyHost => Some (host db)
  | ProjectBuilder.KeyPort => Some (port db)
  | ProjectBuilder.KeyUser => Some (user db)
  | ProjectBuilder.KeyPassword => password db
  | ProjectBuilder.KeyDatabase => Some (database db)
  | ProjectBuilder.KeyTable => Some (table db)
  end.

Definition sameKey (a b : ProjectBuilder.DbKey) : bool :=
  match a, b with
  | ProjectBuilder.KeyHost, ProjectBuilder.KeyHost
  | ProjectBuilder.KeyPort, ProjectBuilder.KeyPort
  | ProjectBuilder.KeyUser, ProjectBuilder.KeyUser
  | ProjectBuilder.KeyPassword, ProjectBuilder.KeyPassword
  | ProjectBuilder.KeyDatabase, ProjectBuilder.KeyDatabase
  | ProjectBuilder.KeyTable, ProjectBuilder.KeyTable => true
  | _, _ => false
  end.

(** The configuration after a sequence of edits of its database fields. *)
Definition edited (edits : list (ProjectBuilder.DbKey * string))
    (config : TrainingConfig) : TrainingConfig :=
  fold_left (fun c e => ProjectBuilder.updateDbConfig (fst e) (snd e) c)
            edits config.

(** The value the last edit of a key wrote, if the key was edited. *)
Fixpoint lastWritten (key : ProjectBuilder.DbKey)
    (edits : list (ProjectBuilder.DbKey * string)) : option string :=
  match edits with
  | [] => None
  | (k, v) :: rest =>
      match lastWritten key rest with
      | Some w => Some w
      | None => if sameKey k key then Some v else None
      end
  end.

(* ================================================================== *)
(** * Numbers: zero tests *)
(* ================================================================== *)

Lemma truthy_strict_neq (x : JS.number) :
  JS.isNaN x = false -> JS.truthy x = JS.strict_neq x JS.zero.
Proof.
  destruct x as [s | s | | s m e]; simpl; try discriminate; intros _;
    try destruct s; reflexivity.
Qed.

Lemma or_not_NaN (a b : JS.number) :
  JS.isNaN a = false -> JS.isNaN b = false -> JS.isNaN (JS.or a b) = false.
Proof. unfold JS.or. destruct (JS.truthy a); auto. Qed.

Lemma or_first_nonzero (a b : JS.number) :
  JS.isNaN a = false ->
  JS.or a b = if JS.strict_neq a JS.zero then a else b.
Proof. intros H. unfold JS.or. now rewrite (truthy_strict_neq a H). Qed.

(* ================================================================== *)
(** * The printed form of a number *)
(* ================================================================== *)

Local Open Scope string_scope.

Lemma noHyphen_app (a b : string) :
  noHyphen (a ++ b) = noHyphen a && noHyphen b.
Proof.
  induction a as [| c a IH]; simpl; [reflexivity |].
  now rewrite IH, andb_assoc.
Qed.

Lemma noHyphen_zeros (n : nat) : noHyphen (JS.zeros n) = true.
Proof. induction n; simpl; auto. Qed.

Lemma noHyphen_uint (u : Decimal.uint) :
  noHyphen (NilEmpty.string_of_uint u) = true.
Proof. induction u; simpl; auto. Qed.

Lemma noHyphen_decimal (n : N) : noHyphen (JS.decimal n) = true.
Proof. apply noHyphen_uint. Qed.

Lemma decimal_nonempty (n : N) : JS.decimal n <> "".
Proof.
  unfold JS.decimal. destruct n as [| p]; [discriminate |].
  simpl. pose proof (DecimalPos.Unsigned.to_uint_nonnil p) as H.
  destruct (Pos.to_uint p); [congruence | ..]; discriminate.
Qed.

Lemma noHyphen_splitAt (n : nat) (s : string) :
  noHyphen s = true ->
  noHyphen (fst (JS.splitAt n s)) = true
  /\ noHyphen (snd (JS.splitAt n s)) = true.
Proof.
  revert s. induction n as [| n IH]; intros s H.
  - destruct s; simpl; auto.
  - destruct s as [| c s]; simpl; auto.
    simpl in H. apply andb_true_iff in H. destruct H as [Hc Hs].
    destruct (IH s Hs) as [Ha Hb].
    destruct (JS.splitAt n s) as [a b]. simpl in *.
    now rewrite Hc, Ha, Hb.
Qed.

Lemma app_nonempty_l (a b : string) : a <> "" -> a ++ b <> "".
Proof. destruct a; [congruence | discriminate]. Qed.

Lemma app_nonempty_r (a b : string) : b <> "" -> a ++ b <> "".
Proof. destruct a; [now simpl | discriminate]. Qed.

(** The digits the shortest-form search settles on carry a decimal
    exponent that is not negative when the value is at least one. *)
Section ShortestExponent.
Variable x : JS.number.
Variables num den : Z.
Hypothesis above_one : (den <= num)%Z.

Lemma decimalExponent_nonneg : (0 <= JS.decimalExponent num den)%Z.
Proof.
  unfold JS.decimalExponent. apply Z.leb_le in above_one.
  rewrite above_one. unfold JS.digitCount. lia.
Qed.

Lemma candidates_nonneg (k : Z) (c : JS.digits * Z) :
  In c (JS.candidates x num den k) -> (0 <= JS.dig_n (fst c))%Z.
Proof.
  unfold JS.candidates. cbv zeta. intros H.
  apply filter_In in H. destruct H as [H _].
  pose proof decimalExponent_nonneg.
  simpl in H. repeat destruct H as [H | H]; try subst c; simpl; try lia.
Qed.

Lemma nearer_either (c1 c2 : JS.digits * Z) :
  JS.nearer c1 c2 = c1 \/ JS.nearer c1 c2 = c2.
Proof.
  unfold JS.nearer.
  destruct (snd c1 ?= snd c2)%Z; auto.
  destruct (Z.even _); auto.
Qed.

Lemma fold_nearer_In (cs : list (JS.digits * Z)) (c : JS.digits * Z) :
  In (fold_left JS.nearer cs c) (c :: cs).
Proof.
  revert c. induction cs as [| c' cs IH]; intros c; simpl; [now left |].
  destruct (IH (JS.nearer c c')) as [H | H].
  - rewrite <- H.
    destruct (nearer_either c c') as [E | E]; rewrite E; auto.
  - auto.
Qed.

Lemma shortestFrom_nonneg (fuel : nat) (k : Z) :
  (0 <= JS.dig_n (fst (JS.shortestFrom x num den k fuel)))%Z.
Proof.
  revert k. induction fuel as [| fuel IH]; intros k; simpl; [lia |].
  destruct (JS.candidates x num den k) as [| c cs] eqn:E; [apply IH |].
  simpl. apply (candidates_nonneg k). rewrite E. apply fold_nearer_In.
Qed.
End ShortestExponent.

Lemma fraction_den_pos (m : positive) (e : Z) :
  (0 < snd (JS.fraction m e))%Z.
Proof. unfold JS.fraction. destruct e; simpl; lia. Qed.

Lemma fraction_num_pos (m : positive) (e : Z) :
  (0 < fst (JS.fraction m e))%Z.
Proof.
  unfold JS.fraction. destruct e as [| p | p]; cbn [fst]; lia.
Qed.

Lemma toStringPositive_shape (m : positive) (e : Z) :
  (1 <= fst (JS.fraction m e) / snd (JS.fraction m e))%Z ->
  noHyphen (JS.toStringPositive m e) = true
  /\ JS.toStringPositive m e <> "".
Proof.
  intros Hbig. unfold JS.toStringPositive.
  pose proof (fraction_den_pos m e) as Hden.
  pose proof (fraction_num_pos m e) as Hnum.
  destruct (JS.fraction m e) as [num den]. simpl in Hbig, Hden, Hnum.
  assert (Hle : (den <= num)%Z).
  { destruct (Z_lt_le_dec num den) as [Hlt | Hge]; [| exact Hge].
    rewrite Z.div_small in Hbig by lia. lia. }
  pose proof (shortestFrom_nonneg (S754_finite false m e) num den Hle 17 1)
    as Hn.
  destruct (JS.shortestFrom (S754_finite false m e) num den 1 17) as [d k].
  simpl in Hn.
  set (s := JS.decimal (Z.to_N (JS.dig_s d))).
  assert (Hs : noHyphen s = true) by apply noHyphen_decimal.
  assert (Hs' : s <> "") by apply decimal_nonempty.
  destruct ((k <=? JS.dig_n d)%Z && (JS.dig_n d <=? 21)%Z).
  { split; [| now apply app_nonempty_l].
    now rewrite noHyphen_app, Hs, noHyphen_zeros. }
  destruct ((0 <? JS.dig_n d)%Z && (JS.dig_n d <=? 21)%Z) eqn:E2.
  { destruct (noHyphen_splitAt (Z.to_nat (JS.dig_n d)) s Hs) as [Ha Hb].
    destruct (JS.splitAt (Z.to_nat (JS.dig_n d)) s) as [a b]. simpl in *.
    split; [| apply app_nonempty_r; discriminate].
    rewrite noHyphen_app, Ha. simpl. exact Hb. }
  destruct ((-6 <? JS.dig_n d)%Z && (JS.dig_n d <=? 0)%Z) eqn:E3.
  { split; [| discriminate].
    simpl. now rewrite noHyphen_app, noHyphen_zeros, Hs. }
  assert (Hex : (JS.dig_n d - 1 <? 0)%Z = false).
  { apply Z.ltb_ge. apply andb_false_iff in E2, E3.
    rewrite !Z.ltb_ge, !Z.leb_gt in *. lia. }
  rewrite Hex. split.
  - rewrite noHyphen_app. apply andb_true_iff. split.
    + destruct s as [| c0 [| c1 r]]; exact Hs.
    + simpl. apply noHyphen_decimal.
  - apply app_nonempty_r. discriminate.
Qed.

(** Every string [toFixed] returns with at least one fraction digit is an
    optional minus sign before a non-empty body without a hyphen. *)
Lemma toFixed_shape (x : JS.number) (f : nat) :
  fieldShape (JS.toFixed x (S f)).
Proof.
  unfold fieldShape. destruct x as [s | s | | neg m e].
  - exists ("0." ++ JS.zeros (S f)). simpl.
    rewrite noHyphen_zeros. repeat split; [discriminate | now left].
  - exists "Infinity". repeat split; [discriminate |].
    destruct s; simpl; auto.
  - exists "NaN". repeat split; [discriminate | now left].
  - unfold JS.toFixed.
    pose proof (toStringPositive_shape m e) as Hbig.
    destruct (JS.fraction m e) as [num den] eqn:Ef. simpl in Hbig.
    destruct (10 ^ 21 <=? num / den)%Z eqn:E21.
    + apply Z.leb_le in E21. destruct Hbig as [H1 H2]; [lia |].
      exists (JS.toStringPositive m e). repeat split; trivial.
      destruct neg; simpl; auto.
    + set (ds := JS.zeros _ ++ JS.decimal _).
      assert (Hds : noHyphen ds = true)
        by (subst ds; now rewrite noHyphen_app, noHyphen_zeros,
                                  noHyphen_decimal).
      destruct (noHyphen_splitAt (String.length ds - S f) ds Hds) as [Ha Hb].
      destruct (JS.splitAt (String.length ds - S f) ds) as [a b].
      simpl in Ha, Hb. exists (a ++ "." ++ b). repeat split.
      * apply app_nonempty_r. discriminate.
      * rewrite noHyphen_app, Ha. simpl. exact Hb.
      * destruct neg; simpl; auto.
Qed.

(** Reading a hyphen-separated sequence of fields back is unambiguous. *)
Lemma noHyphen_split (b b' r r' : string) :
  noHyphen b = true -> noHyphen b' = true ->
  b ++ String "-" r = b' ++ String "-" r' -> b = b' /\ r = r'.
Proof.
  revert b'. induction b as [| c b IH]; intros [| c' b'] Hb Hb' E;
    simpl in *.
  - now inversion E.
  - inversion E; subst. rewrite Ascii.eqb_refl in Hb'. discriminate.
  - inversion E; subst. rewrite Ascii.eqb_refl in Hb. discriminate.
  - apply andb_true_iff in Hb, Hb'. destruct Hb as [_ Hb], Hb' as [_ Hb'].
    inversion E; subst. destruct (IH b' Hb Hb' H1) as [-> ->]. auto.
Qed.

Lemma noHyphen_head (body rest : string) :
  body <> "" -> noHyphen body = true ->
  forall t, body ++ rest <> String "-" t.
Proof.
  intros Hne Hb t E. destruct body as [| c body]; [congruence |].
  simpl in *. inversion E; subst. discriminate.
Qed.

Lemma field_split (f f' r r' : string) :
  fieldShape f -> fieldShape f' ->
  f ++ String "-" r = f' ++ String "-" r' -> f = f' /\ r = r'.
Proof.
  intros [b [Hne [Hb [-> | ->]]]] [b' [Hne' [Hb' [-> | ->]]]] E.
  - now apply noHyphen_split.
  - exfalso. now apply (noHyphen_head b (String "-" r) Hne Hb) in E.
  - exfalso. symmetry in E.
    now apply (noHyphen_head b' (String "-" r') Hne' Hb') in E.
  - simpl in E. inversion E as [E'].
    destruct (noHyphen_split _ _ _ _ Hb Hb' E') as [-> ->]. auto.
Qed.

Local Open Scope list_scope.

(* ================================================================== *)
(** * Rounding keeps the sign *)
(* ================================================================== *)

Section Rounding.
Local Open Scope Z_scope.

Lemma digits2_size (m : positive) : digits2_pos m = Pos.size m.
Proof. induction m; simpl; congruence. Qed.

(** A positive number with [d] binary digits is at least [2^(d-1)]. *)
Lemma digits2_lower (m : positive) :
  2 ^ (Zpos (digits2_pos m) - 1) <= Zpos m.
Proof.
  rewrite digits2_size.
  pose proof (Pos.size_le m) as H.
  apply Pos2Z.pos_le_pos in H. rewrite Pos2Z.inj_pow in H.
  replace (Zpos (Pos.size m)) with (Z.succ (Zpos (Pos.size m) - 1)) in H
    by lia.
  rewrite Z.pow_succ_r in H by lia.
  lia.
Qed.

(** The exponent of the smallest subnormal bounds every working
    exponent from below. *)
Lemma emin_value : SpecFloat.emin JS.prec JS.emax = -1074.
Proof. reflexivity. Qed.

Lemma fexp_ge_emin (e : Z) : -1074 <= SpecFloat.fexp JS.prec JS.emax e.
Proof. unfold SpecFloat.fexp. rewrite emin_value. lia. Qed.

Lemma shr_1_m (mrs : shr_record) :
  0 <= shr_m mrs -> shr_m (shr_1 mrs) = shr_m mrs / 2.
Proof.
  destruct mrs as [m r s]. simpl. intros Hm.
  destruct m as [| [p | p |] |]; simpl; try reflexivity; try lia.
  - apply (Z.div_unique _ _ _ 1); lia.
  - apply (Z.div_unique _ _ _ 0); lia.
Qed.

Lemma shr_m_iter (p : positive) (mrs : shr_record) :
  0 <= shr_m mrs ->
  shr_m (iter_pos shr_1 p mrs) = shr_m mrs / 2 ^ Zpos p.
Proof.
  revert mrs. induction p as [p IH | p IH |]; intros mrs Hm;
    cbn [iter_pos].
  - assert (H1 : 0 <= shr_m (shr_1 mrs))
      by (rewrite shr_1_m by exact Hm; apply Z.div_pos; lia).
    assert (H2 : 0 <= shr_m (iter_pos shr_1 p (shr_1 mrs)))
      by (rewrite IH by exact H1; apply Z.div_pos; lia).
    rewrite IH, IH, shr_1_m by assumption.
    rewrite !Z.div_div by lia. f_equal.
    replace (Zpos p~1) with (1 + Zpos p + Zpos p) by lia.
    rewrite !Z.pow_add_r by lia. ring.
  - assert (H2 : 0 <= shr_m (iter_pos shr_1 p mrs))
      by (rewrite IH by exact Hm; apply Z.div_pos; lia).
    rewrite IH, IH by assumption.
    rewrite Z.div_div by lia. f_equal.
    replace (Zpos p~0) with (Zpos p + Zpos p) by lia.
    rewrite Z.pow_add_r by lia. ring.
  - rewrite shr_1_m by exact Hm. reflexivity.
Qed.

(** Shifting to the working exponent never lowers the exponent, and keeps
    a positive mantissa positive when the exponent is in range. *)
Lemma shr_fexp_exponent (m e : Z) (l : location) :
  e <= snd (shr_fexp JS.prec JS.emax m e l).
Proof.
  unfold shr_fexp, shr.
  destruct (SpecFloat.fexp _ _ _ - e) eqn:E; simpl; lia.
Qed.

Lemma shr_fexp_positive (m e : Z) (l : location) :
  0 < m -> -1074 <= e ->
  0 < shr_m (fst (shr_fexp JS.prec JS.emax m e l)).
Proof.
  intros Hm He. unfold shr_fexp, shr.
  assert (Hrec : shr_m (shr_record_of_loc m l) = m)
    by (destruct l as [| []]; reflexivity).
  destruct (SpecFloat.fexp _ _ _ - e) as [| p | p] eqn:E; simpl;
    try (rewrite Hrec; exact Hm).
  rewrite shr_m_iter by (rewrite Hrec; lia). rewrite Hrec.
  destruct m as [| m' |]; try lia. cbn [Zdigits2] in E.
  unfold SpecFloat.fexp in E.
  change (SpecFloat.emin JS.prec JS.emax) with (-1074) in E.
  change JS.prec with 53 in E.
  assert (Hp : Zpos p = Zpos (digits2_pos m') - 53) by lia.
  pose proof (digits2_lower m') as Hd.
  apply Z.div_str_pos. split; [apply Z.pow_pos_nonneg; lia |].
  eapply Z.le_trans; [| exact Hd].
  apply Z.pow_le_mono_r; lia.
Qed.

Lemma round_nearest_even_positive (m : Z) (l : location) :
  0 < m -> 0 < round_nearest_even m l.
Proof.
  intros Hm. destruct l as [| []]; simpl; try lia.
  destruct (Z.even m); lia.
Qed.

(** Rounding a positive mantissa at an exponent in range gives a finite
    number or an infinity of the same sign, never zero. *)
Lemma binary_round_aux_sign (s : bool) (m e : Z) (l : location) :
  0 < m -> -1074 <= e ->
  (exists m' e', binary_round_aux JS.prec JS.emax s m e l
                 = S754_finite s m' e')
  \/ binary_round_aux JS.prec JS.emax s m e l = S754_infinity s.
Proof.
  intros Hm He. unfold binary_round_aux.
  pose proof (shr_fexp_positive m e l Hm He) as H1.
  pose proof (shr_fexp_exponent m e l) as E1.
  destruct (shr_fexp JS.prec JS.emax m e l) as [mrs' e']. simpl in H1, E1.
  set (m1 := round_nearest_even (shr_m mrs') (loc_of_shr_record mrs')).
  assert (Hm1 : 0 < m1) by now apply round_nearest_even_positive.
  pose proof (shr_fexp_positive m1 e' loc_Exact Hm1 ltac:(lia)) as H2.
  destruct (shr_fexp JS.prec JS.emax m1 e' loc_Exact) as [mrs'' e''].
  simpl in H2.
  destruct (shr_m mrs'') as [| m2 |]; try lia.
  destruct (e'' <=? JS.emax - JS.prec); [left; eauto | now right].
Qed.

Lemma binary_round_aux_exponent (s : bool) (m e : Z) (l : location) :
  -1074 <= e ->
  comparable (binary_round_aux JS.prec JS.emax s m e l) = true
  \/ binary_round_aux JS.prec JS.emax s m e l = S754_nan.
Proof.
  intros He. unfold binary_round_aux.
  pose proof (shr_fexp_exponent m e l) as E1.
  destruct (shr_fexp JS.prec JS.emax m e l) as [mrs' e']. simpl in E1.
  set (m1 := round_nearest_even (shr_m mrs') (loc_of_shr_record mrs')).
  pose proof (shr_fexp_exponent m1 e' loc_Exact) as E2.
  destruct (shr_fexp JS.prec JS.emax m1 e' loc_Exact) as [mrs'' e''].
  simpl in E2.
  destruct (shr_m mrs'') as [| m2 |]; [now left | | now right].
  destruct (e'' <=? JS.emax - JS.prec); left; [| reflexivity].
  simpl. apply Z.leb_le. lia.
Qed.

Lemma iter_xO_value (m d : positive) :
  Zpos (Pos.iter xO m d) = Zpos m * 2 ^ Zpos d.
Proof.
  induction d as [| d IH] using Pos.peano_ind.
  - simpl. lia.
  - rewrite Pos.iter_succ, Pos2Z.inj_xO, IH, Pos2Z.inj_succ.
    rewrite Z.pow_succ_r by lia. lia.
Qed.

Lemma shl_align_value (m : positive) (e e' : Z) :
  e' <= e ->
  Zpos (fst (shl_align m e e')) = Zpos m * 2 ^ (e - e').
Proof.
  intros H. unfold shl_align.
  destruct (e' - e) as [| d | d] eqn:E; cbn [fst].
  - replace (e - e') with 0 by lia. rewrite Z.pow_0_r. lia.
  - lia.
  - rewrite iter_xO_value. f_equal. f_equal. lia.
Qed.

Lemma shl_align_exponent (m : positive) (e e' : Z) :
  -1074 <= e -> -1074 <= e' -> -1074 <= snd (shl_align m e e').
Proof. unfold shl_align. destruct (e' - e); simpl; lia. Qed.

Lemma binary_round_sign (s : bool) (m : positive) (e : Z) :
  -1074 <= e ->
  (exists m' e', binary_round JS.prec JS.emax s m e = S754_finite s m' e')
  \/ binary_round JS.prec JS.emax s m e = S754_infinity s.
Proof.
  intros He. unfold binary_round.
  pose proof (shl_align_exponent m e
                (SpecFloat.fexp JS.prec JS.emax (Zpos (digits2_pos m) + e))
                He (fexp_ge_emin _)) as H.
  destruct (shl_align m e _) as [mz ez]. simpl in H.
  apply binary_round_aux_sign; [lia | exact H].
Qed.

Lemma binary_round_exponent (s : bool) (m : positive) (e : Z) :
  -1074 <= e ->
  comparable (binary_round JS.prec JS.emax s m e) = true.
Proof.
  intros He.
  destruct (binary_round_sign s m e He) as [[m' [e' E]] | E].
  - unfold binary_round in *.
    pose proof (shl_align_exponent m e
                  (SpecFloat.fexp JS.prec JS.emax (Zpos (digits2_pos m) + e))
                  He (fexp_ge_emin _)) as H.
    destruct (shl_align m e _) as [mz ez]. simpl in H.
    destruct (binary_round_aux_exponent s (Zpos mz) ez loc_Exact H)
      as [C | C]; [exact C | congruence].
  - now rewrite E.
Qed.

End Rounding.

(* ================================================================== *)
(** * The sign of a difference *)
(* ================================================================== *)

Section Difference.
Local Open Scope Z_scope.

Lemma gt_zero_sign (r : JS.number) (s : bool) :
  (exists m e, r = S754_finite s m e) \/ r = S754_infinity s ->
  JS.gt r JS.zero = negb s.
Proof. intros [[m [e ->]] | ->]; destruct s; reflexivity. Qed.

Lemma scaled_split (s : bool) (m : positive) (e ez : Z) :
  -1074 <= ez -> ez <= e ->
  scaled (S754_finite s m e)
  = (if s then -1 else 1) * (Zpos m * 2 ^ (e - ez)) * 2 ^ (ez + 1074).
Proof.
  intros H1 H2. unfold scaled.
  replace (e + 1074) with ((e - ez) + (ez + 1074)) by lia.
  rewrite Z.pow_add_r by lia. ring.
Qed.

Lemma cond_Zopp_sign (s : bool) (z : Z) :
  cond_Zopp s z = (if s then -1 else 1) * z.
Proof. unfold cond_Zopp. destruct s; lia. Qed.

(** The difference of two finite numbers is positive exactly when the
    first is the larger; it is never rounded to zero. *)
Lemma sub_finite_sign (sx sy : bool) (mx my : positive) (ex ey : Z) :
  -1074 <= ex -> -1074 <= ey ->
  JS.gt (JS.sub (S754_finite sx mx ex) (S754_finite sy my ey)) JS.zero = true
  <-> scaled (S754_finite sy my ey) < scaled (S754_finite sx mx ex).
Proof.
  intros Hx Hy. unfold JS.sub, SFsub.
  set (ez := Z.min ex ey).
  assert (Hez : -1074 <= ez) by (subst ez; lia).
  rewrite (scaled_split sx mx ex ez), (scaled_split sy my ey ez)
    by (subst ez; lia).
  rewrite !shl_align_value by (subst ez; lia).
  rewrite !cond_Zopp_sign.
  set (X := (if sx then -1 else 1) * (Zpos mx * 2 ^ (ex - ez))).
  set (Y := (if sy then -1 else 1) * (Zpos my * 2 ^ (ey - ez))).
  assert (HP : 0 < 2 ^ (ez + 1074)) by (apply Z.pow_pos_nonneg; lia).
  rewrite <- Z.mul_lt_mono_pos_r by exact HP.
  unfold binary_normalize.
  destruct (X - Y) as [| d | d] eqn:ED.
  - simpl. split; [discriminate | lia].
  - rewrite (gt_zero_sign _ false)
      by (apply binary_round_sign; exact Hez).
    simpl. split; [lia | reflexivity].
  - rewrite (gt_zero_sign _ true)
      by (apply binary_round_sign; exact Hez).
    simpl. split; [discriminate | lia].
Qed.

Lemma scaled_sign (s : bool) (m : positive) (e : Z) :
  -1074 <= e ->
  (scaled (S754_finite s m e) < 0 <-> s = true)
  /\ (0 < scaled (S754_finite s m e) <-> s = false).
Proof.
  intros He. unfold scaled.
  assert (HP : 0 < 2 ^ (e + 1074)) by (apply Z.pow_pos_nonneg; lia).
  destruct s; split; split; intros H; try reflexivity; try discriminate;
    nia.
Qed.

(** [x - y > 0] exactly when the value of [y] is below the value of [x]. *)
Lemma sub_gt_zero (x y : JS.number) :
  comparable x = true -> comparable y = true ->
  (JS.gt (JS.sub x y) JS.zero = true <-> value_lt y x).
Proof.
  unfold value_lt.
  destruct x as [sx | sx | | sx mx ex], y as [sy | sy | | sy my ey];
    simpl comparable; try discriminate; intros Hx Hy.
  - (* zero, zero *)
    destruct sx, sy; simpl; split; try discriminate; lia.
  - (* zero, infinity *)
    destruct sx, sy; simpl; split; try discriminate; try lia; auto.
  - (* zero, finite *)
    apply Z.leb_le in Hy. destruct (scaled_sign sy my ey Hy) as [Hneg _].
    cbn [level]. change (scaled (S754_zero sx)) with 0.
    unfold JS.sub, SFsub.
    destruct sx, sy; simpl JS.gt; split; try discriminate; try reflexivity;
      try (intros _; right; split; [reflexivity | now apply Hneg]);
      intros [H | [_ H]]; try lia; apply Hneg in H; discriminate.
  - (* infinity, zero *)
    destruct sx, sy; simpl; split; try discriminate; try lia; auto.
  - (* infinity, infinity *)
    destruct sx, sy; simpl; split; try discriminate; try lia; auto.
  - (* infinity, finite *)
    destruct sx, sy; simpl; split; try discriminate; try lia; auto.
  - (* finite, zero *)
    apply Z.leb_le in Hx. destruct (scaled_sign sx mx ex Hx) as [_ Hpos].
    cbn [level]. change (scaled (S754_zero sy)) with 0.
    unfold JS.sub, SFsub.
    destruct sx, sy; simpl JS.gt; split; try discriminate; try reflexivity;
      try (intros _; right; split; [reflexivity | now apply Hpos]);
      intros [H | [_ H]]; try lia; apply Hpos in H; discriminate.
  - (* finite, infinity *)
    destruct sx, sy; simpl; split; try discriminate; try lia; auto.
  - (* finite, finite *)
    apply Z.leb_le in Hx, Hy. cbn [level].
    rewrite (sub_finite_sign sx sy mx my ex ey Hx Hy).
    split; [intros H; right; split; [reflexivity | exact H] |].
    intros [H | [_ H]]; [lia | exact H].
Qed.

End Difference.

(* ================================================================== *)
(** * The order of values is the order of the language *)
(* ================================================================== *)

Section Canonical.
Local Open Scope Z_scope.

(** A positive number with [d] binary digits is below [2^d]. *)
Lemma digits2_upper (m : positive) : Zpos m < 2 ^ Zpos (digits2_pos m).
Proof.
  rewrite digits2_size.
  pose proof (Pos.size_gt m) as H.
  apply Pos2Z.pos_lt_pos in H. now rewrite Pos2Z.inj_pow in H.
Qed.

(** Of two canonical finite numbers the one with the smaller exponent
    has the smaller magnitude. *)
Lemma canonical_exponent_lt (m1 m2 : positive) (e1 e2 : Z) :
  bounded JS.prec JS.emax m1 e1 = true ->
  bounded JS.prec JS.emax m2 e2 = true ->
  e1 < e2 ->
  Zpos m1 * 2 ^ (e1 + 1074) < Zpos m2 * 2 ^ (e2 + 1074).
Proof.
  unfold bounded, canonical_mantissa, SpecFloat.fexp.
  rewrite emin_value. change JS.prec with 53.
  rewrite !andb_true_iff, !Z.eqb_eq. intros [C1 _] [C2 _] Hlt.
  pose proof (digits2_upper m1) as U1.
  pose proof (digits2_lower m2) as L2.
  assert (D1 : Zpos (digits2_pos m1) <= 53) by lia.
  assert (D2 : Zpos (digits2_pos m2) = 53) by lia.
  assert (E1 : -1074 <= e1) by lia.
  rewrite D2 in L2. change (53 - 1) with 52 in L2.
  assert (U1' : Zpos m1 < 2 ^ 53).
  { eapply Z.lt_le_trans; [exact U1 |]. apply Z.pow_le_mono_r; lia. }
  assert (P1 : 0 < 2 ^ (e1 + 1074)) by (apply Z.pow_pos_nonneg; lia).
  assert (P2 : 2 * 2 ^ (e1 + 1074) <= 2 ^ (e2 + 1074)).
  { rewrite <- Z.pow_succ_r by lia. apply Z.pow_le_mono_r; lia. }
  change (2 ^ 53) with (2 * 2 ^ 52) in U1'.
  nia.
Qed.


Lemma bounded_exponent (m : positive) (e : Z) :
  bounded JS.prec JS.emax m e = true -> -1074 <= e.
Proof.
  unfold bounded, canonical_mantissa. rewrite andb_true_iff, Z.eqb_eq.
  intros [C _]. rewrite <- C. apply fexp_ge_emin.
Qed.

(** On canonical finite numbers of one sign, the comparison of the
    library (exponents first, then mantissas) is the comparison of the
    magnitudes. *)
Lemma canonical_compare (m1 m2 : positive) (e1 e2 : Z) :
  bounded JS.prec JS.emax m1 e1 = true ->
  bounded JS.prec JS.emax m2 e2 = true ->
  match e1 ?= e2 with
  | Lt => Lt
  | Gt => Gt
  | Eq => Pos.compare_cont Eq m1 m2
  end
  = (Zpos m1 * 2 ^ (e1 + 1074) ?= Zpos m2 * 2 ^ (e2 + 1074)).
Proof.
  intros B1 B2. symmetry.
  destruct (e1 ?= e2) eqn:E.
  - apply Z.compare_eq in E. subst e2.
    pose proof (bounded_exponent m1 e1 B1) as He.
    assert (P : 0 < 2 ^ (e1 + 1074)) by (apply Z.pow_pos_nonneg; lia).
    change (Pos.compare_cont Eq m1 m2) with (Zpos m1 ?= Zpos m2).
    destruct (Zpos m1 ?= Zpos m2) eqn:C.
    + apply Z.compare_eq in C. rewrite C. apply Z.compare_refl.
    + apply Z.compare_lt_iff. apply Z.compare_lt_iff in C.
      now apply Z.mul_lt_mono_pos_r.
    + apply Z.compare_gt_iff. apply Z.compare_gt_iff in C.
      now apply Z.mul_lt_mono_pos_r.
  - apply Z.compare_lt_iff.
    apply canonical_exponent_lt; [exact B1 | exact B2 | exact E].
  - apply Z.compare_gt_iff.
    apply canonical_exponent_lt; [exact B2 | exact B1 |].
    now apply Z.compare_gt_iff.
Qed.

(** On binary64 values other than NaN, [x < y] is the order of the
    values. *)
Lemma lt_value_lt (x y : JS.number) :
  valid_binary JS.prec JS.emax x = true ->
  valid_binary JS.prec JS.emax y = true ->
  JS.isNaN x = false -> JS.isNaN y = false ->
  (SFltb x y = true <-> value_lt x y).
Proof.
  unfold value_lt, SFltb.
  destruct x as [sx | sx | | sx mx ex], y as [sy | sy | | sy my ey];
    simpl valid_binary; simpl JS.isNaN; try discriminate;
    intros Vx Vy _ _.
  - simpl. split; [discriminate | lia].
  - destruct sy; simpl; split; try discriminate; try lia; auto.
  - pose proof (bounded_exponent my ey Vy) as Hy.
    destruct (scaled_sign sy my ey Hy) as [Hneg Hpos].
    cbn [level SFcompare]. change (scaled (S754_zero sx)) with 0.
    destruct sy; split; try discriminate; try reflexivity.
    + intros [H | [_ H]]; [lia |]. apply Hpos in H. discriminate.
    + intros _. right. split; [reflexivity | now apply Hpos].
  - destruct sx; simpl; split; try discriminate; try lia; auto.
  - destruct sx, sy; simpl; split; try discriminate; try lia; auto.
  - destruct sx; simpl; split; try discriminate; try lia; auto.
  - pose proof (bounded_exponent mx ex Vx) as Hx.
    destruct (scaled_sign sx mx ex Hx) as [Hneg Hpos].
    cbn [level SFcompare]. change (scaled (S754_zero sy)) with 0.
    destruct sx; split; try discriminate; try reflexivity.
    + intros _. right. split; [reflexivity | now apply Hneg].
    + intros [H | [_ H]]; [lia |]. apply Hneg in H. discriminate.
  - destruct sy; simpl; split; try discriminate; try lia; auto.
  - pose proof (bounded_exponent mx ex Vx) as Hx.
    pose proof (bounded_exponent my ey Vy) as Hy.
    pose proof (canonical_compare mx my ex ey Vx Vy) as C.
    set (X := Zpos mx * 2 ^ (ex + 1074)) in *.
    set (Y := Zpos my * 2 ^ (ey + 1074)) in *.
    assert (Px : 0 < X)
      by (apply Z.mul_pos_pos; [lia | apply Z.pow_pos_nonneg; lia]).
    assert (Py : 0 < Y)
      by (apply Z.mul_pos_pos; [lia | apply Z.pow_pos_nonneg; lia]).
    assert (Sx : scaled (S754_finite sx mx ex) = if sx then - X else X)
      by (unfold scaled; subst X; destruct sx; ring).
    assert (Sy : scaled (S754_finite sy my ey) = if sy then - Y else Y)
      by (unfold scaled; subst Y; destruct sy; ring).
    rewrite Sx, Sy. cbn [level SFcompare]. clear Sx Sy. clearbody X Y.
    destruct sx, sy.
    + assert (G : match ex ?= ey with
                  | Eq => CompOpp (Pos.compare_cont Eq mx my)
                  | Lt => Gt
                  | Gt => Lt
                  end = CompOpp (X ?= Y))
        by (rewrite <- C; destruct (ex ?= ey); reflexivity).
      rewrite G. destruct (X ?= Y) eqn:E; cbn [CompOpp].
      * apply Z.compare_eq in E. split; [discriminate | intros H; exfalso; lia].
      * change (X < Y) in E.
        split; [discriminate | intros H; exfalso; lia].
      * apply Z.compare_gt_iff in E. split; [intros _; right; lia | auto].
    + split; [intros _; right; lia | auto].
    + split; [discriminate | intros H; exfalso; lia].
    + rewrite C. destruct (X ?= Y) eqn:E.
      * apply Z.compare_eq in E. split; [discriminate | intros H; exfalso; lia].
      * change (X < Y) in E. split; [intros _; right; lia | auto].
      * apply Z.compare_gt_iff in E.
        split; [discriminate | intros H; exfalso; lia].
Qed.

End Canonical.

(* ================================================================== *)
(** * Objects as ordered property lists *)
(* ================================================================== *)

Lemma mem_In (s : string) (l : list string) : mem s l = true <-> In s l.
Proof.
  unfold mem. rewrite existsb_exists. split.
  - intros [x [Hx E]]. apply String.eqb_eq in E. now subst.
  - intros H. exists s. split; [exact H | apply String.eqb_refl].
Qed.

Lemma mem_false (s : string) (l : list string) : mem s l = false <-> ~ In s l.
Proof.
  rewrite <- mem_In. destruct (mem s l); split; congruence.
Qed.

Lemma firstSeen_In (k : string) (l : list string) :
  In k (firstSeen l) <-> In k l.
Proof.
  induction l as [| x l IH]; simpl; [reflexivity |].
  rewrite filter_In, IH, negb_true_iff, String.eqb_neq.
  destruct (string_dec x k) as [-> | N]; [tauto |].
  split; [tauto |]. intros [H | H]; [contradiction | right; split; congruence].
Qed.

Lemma firstSeen_mem (k : string) (l : list string) :
  mem k (firstSeen l) = mem k l.
Proof.
  destruct (mem k l) eqn:E.
  - apply mem_In, firstSeen_In, mem_In, E.
  - apply mem_false. rewrite firstSeen_In. now apply mem_false.
Qed.

Lemma NoDup_filter {A} (f : A -> bool) (l : list A) :
  NoDup l -> NoDup (filter f l).
Proof.
  induction 1 as [| x l Hx Hl IH]; simpl; [constructor |].
  destruct (f x); [| exact IH].
  constructor; [| exact IH]. intros H. apply filter_In in H. tauto.
Qed.

Lemma firstSeen_NoDup (l : list string) : NoDup (firstSeen l).
Proof.
  induction l as [| x l IH]; simpl; constructor.
  - intros H. apply filter_In in H. destruct H as [_ H].
    rewrite String.eqb_refl in H. discriminate.
  - now apply NoDup_filter.
Qed.

Lemma firstSeen_snoc (l : list string) (x : string) :
  firstSeen (l ++ [x]) = if mem x l then firstSeen l else firstSeen l ++ [x].
Proof.
  induction l as [| y l IH]; simpl; [reflexivity |].
  rewrite IH. unfold mem in *. simpl.
  destruct (String.eqb x y) eqn:Exy; simpl.
  - destruct (existsb (String.eqb x) l); [reflexivity |].
    rewrite filter_app. simpl. rewrite Exy. simpl. now rewrite app_nil_r.
  - destruct (existsb (String.eqb x) l); [reflexivity |].
    rewrite filter_app. simpl. rewrite Exy. reflexivity.
Qed.

Section PropertyLists.
Context {V : Type}.
Variable F : string -> V.

Lemma get_map (ks : list string) (s : string) :
  JS.get (map (fun k => (k, F k)) ks) s
  = if mem s ks then Some (F s) else None.
Proof.
  induction ks as [| k ks IH]; simpl; [reflexivity |].
  rewrite (String.eqb_sym s k).
  destruct (String.eqb k s) eqn:E; simpl; [| exact IH].
  apply String.eqb_eq in E. now subst.
Qed.

Lemma update_map (ks : list string) (s : string) (v : V) :
  NoDup ks ->
  JS.update (map (fun k => (k, F k)) ks) s v
  = map (fun k => (k, if String.eqb k s then v else F k)) ks.
Proof.
  induction 1 as [| k ks Hk Hks IH]; simpl; [reflexivity |].
  destruct (String.eqb k s) eqn:E.
  - f_equal. apply String.eqb_eq in E. subst k.
    apply map_ext_in. intros k' Hk'.
    destruct (String.eqb k' s) eqn:E'; [| reflexivity].
    apply String.eqb_eq in E'. subst. contradiction.
  - f_equal. exact IH.
Qed.
End PropertyLists.

Lemma get_snoc_new {V} (o : JS.object V) (s : string) (v : V) :
  JS.get o s = None -> JS.get (o ++ [(s, v)]) s = Some v.
Proof.
  induction o as [| [k w] o IH]; simpl.
  - now rewrite String.eqb_refl.
  - destruct (String.eqb k s); [discriminate | exact IH].
Qed.

Lemma update_snoc_new {V} (o : JS.object V) (s : string) (v w : V) :
  JS.get o s = None ->
  JS.update (o ++ [(s, v)]) s w = o ++ [(s, w)].
Proof.
  induction o as [| [k u] o IH]; simpl.
  - now rewrite String.eqb_refl.
  - destruct (String.eqb k s); [discriminate |].
    intros H. f_equal. now apply IH.
Qed.

(** A key with a hyphen in it is not an array index: creating it appends
    it after all existing keys. *)
Lemma hyphen_not_digits (a r : string) :
  forallb JS.isDigit (list_ascii_of_string (a ++ String "-" r)) = false.
Proof.
  induction a as [| c a IH]; simpl; [reflexivity |].
  rewrite IH. apply andb_false_r.
Qed.

Lemma arrayIndex_hyphen (a r : string) :
  JS.arrayIndex (a ++ String "-" r) = None.
Proof. unfold JS.arrayIndex. now rewrite hyphen_not_digits. Qed.

Lemma noHyphen_with_hyphen (a r : string) :
  noHyphen (a ++ String "-" r) = false.
Proof.
  induction a as [| c a IH]; simpl; [reflexivity |].
  rewrite IH. apply andb_false_r.
Qed.

(** No inherited property name contains a hyphen. *)
Lemma inherited_hyphen (a r : string) :
  JS.inherited (a ++ String "-" r) = false.
Proof.
  unfold JS.inherited.
  destruct (existsb _ _) eqn:E; [| reflexivity].
  apply existsb_exists in E. destruct E as [k [Hk E]].
  apply String.eqb_eq in E. subst k.
  assert (H : forallb noHyphen JS.objectPrototype = true) by reflexivity.
  rewrite forallb_forall in H. apply H in Hk.
  now rewrite noHyphen_with_hyphen in Hk.
Qed.

Lemma lookup_hyphen {V} (o : JS.object V) (a r : string) :
  JS.lookup o (a ++ String "-" r)
  = match JS.get o (a ++ String "-" r) with
    | Some v => JS.Own v
    | None => JS.Missing
    end.
Proof. unfold JS.lookup. now rewrite inherited_hyphen. Qed.

Lemma set_new_hyphen {V} (o : JS.object V) (a r : string) (v : V) :
  JS.get o (a ++ String "-" r) = None ->
  JS.set o (a ++ String "-" r) v = o ++ [((a ++ String "-" r)%string, v)].
Proof.
  intros H. unfold JS.set, JS.has. now rewrite H, arrayIndex_hyphen.
Qed.

(* ================================================================== *)
(** * The field resolver *)
(* ================================================================== *)

Section Resolver.
Import ProjectBuilder.

Lemma fuzzyGet_not_NaN (r : row) (keyPart : string) :
  JS.isNaN (fuzzyGet r keyPart) = false.
Proof.
  unfold fuzzyGet. destruct r as [o |]; [| reflexivity].
  destruct (findKey o keyPart) as [[| c k] |]; try reflexivity.
  destruct (JS.isNaN (JS.parseFloat (cell o (String c k)))) eqn:E;
    [reflexivity | exact E].
Qed.

(** A string that contains a non-empty string is not empty. *)
Lemma includes_nonempty (s p : string) :
  p <> "" -> JS.includes s p = true -> s <> "".
Proof.
  intros Hp H ->. destruct p as [| a p']; [now apply Hp |].
  simpl in H. discriminate.
Qed.

Lemma toLowerCase_nonempty (s : string) :
  s <> "" -> JS.toLowerCase s <> "".
Proof. destruct s; [congruence | simpl; discriminate]. Qed.

(** Searching the keys and looking the found key up is searching the
    properties: the first property whose key passes the test. *)
Lemma find_keys_get {V} (test : string -> bool) (o : JS.object V) :
  match find test (JS.keys o) with
  | Some k => exists v, find (fun kv => test (fst kv)) o = Some (k, v)
                        /\ JS.get o k = Some v
  | None => find (fun kv => test (fst kv)) o = None
  end.
Proof.
  induction o as [| [k v] o IH]; simpl; [reflexivity |].
  destruct (test k) eqn:Ek.
  - exists v. now rewrite String.eqb_refl.
  - destruct (find test (JS.keys o)) as [k' |] eqn:Ef.
    + destruct IH as [v' [H1 H2]]. exists v'. split; [exact H1 |].
      destruct (String.eqb k k') eqn:Ekk; [| exact H2].
      apply String.eqb_eq in Ekk. subst k'.
      apply find_some in Ef. destruct Ef as [_ Ef]. congruence.
    + exact IH.
Qed.
End Resolver.

(** What fuzzyGet returns for any key part: the first match decides, and
    a match on the empty key counts as none. *)
Lemma fuzzyGet_spec (o : JS.object JS.value) (keyPart : string) :
  ProjectBuilder.fuzzyGet (Some o) keyPart =
    match firstMatch o keyPart with
    | Some (String _ _, v) =>
        if JS.isNaN (JS.parseFloat v) then JS.zero else JS.parseFloat v
    | _ => JS.zero
    end.
Proof.
  unfold ProjectBuilder.fuzzyGet, ProjectBuilder.findKey, firstMatch.
  pose proof (find_keys_get
                (fun k => JS.includes (JS.toLowerCase k)
                                      (JS.toLowerCase keyPart)) o) as H.
  cbv beta in H.
  destruct (find _ (JS.keys o)) as [k |].
  - destruct H as [v [H1 H2]]. rewrite H1.
    destruct k as [| c k]; [reflexivity |].
    unfold ProjectBuilder.cell. now rewrite H2.
  - now rewrite H.
Qed.

Lemma firstMatch_key_nonempty (o : JS.object JS.value)
    (keyPart k : string) (v : JS.value) :
  keyPart <> "" -> firstMatch o keyPart = Some (k, v) -> k <> "".
Proof.
  intros Hkp H. apply find_some in H. destruct H as [_ H]. simpl in H.
  apply includes_nonempty in H; [| now apply toLowerCase_nonempty].
  intros ->. now apply H.
Qed.

(** C6.  For every row and every key part the resolver is called with,
    which is one of fourteen literals, none empty, fuzzyGet returns the
    value of the first key, in the row's key order, whose lower-cased form
    contains the lower-cased key part, read by parseFloat; it returns 0
    when no key matches, when that value reads as NaN, and for a falsy
    row.  It is total and never yields NaN. *)
Theorem C6_fuzzyGet_first_match :
  forall (o : JS.object JS.value) (keyPart : string),
    keyPart <> "" ->
    ProjectBuilder.fuzzyGet (Some o) keyPart =
      match firstMatch o keyPart with
      | Some (_, v) =>
          if JS.isNaN (JS.parseFloat v) then JS.zero else JS.parseFloat v
      | None => JS.zero
      end
    /\ ProjectBuilder.fuzzyGet None keyPart = JS.zero
    /\ (forall r, JS.isNaN (ProjectBuilder.fuzzyGet r keyPart) = false).
Proof.
  intros o keyPart Hkp. split; [| split].
  - rewrite fuzzyGet_spec.
    destruct (firstMatch o keyPart) as [[k v] |] eqn:E; [| reflexivity].
    apply (firstMatch_key_nonempty o keyPart k v Hkp) in E.
    destruct k; [now elim E | reflexivity].
  - reflexivity.
  - intros r. apply fuzzyGet_not_NaN.
Qed.

(** C6 on a row whose second key, SIO2_WT, is the first to contain sio2. *)
Lemma C6_fuzzyGet_first_match_witness :
  "SiO2" <> ""
  /\ ProjectBuilder.fuzzyGet
       (Some [ ("Name", JS.VString "x"); ("SIO2_WT", JS.VString "53.5");
               ("sio2", JS.VString "1") ]) "SiO2"
     = lit "53.5".
Proof.
  split; [discriminate |].
  etransitivity.
  - apply (C6_fuzzyGet_first_match
             [ ("Name", JS.VString "x"); ("SIO2_WT", JS.VString "53.5");
               ("sio2", JS.VString "1") ] "SiO2").
    discriminate.
  - vm_compute. reflexivity.
Defined.

(** The empty key part, which no call passes, is where the hypothesis is
    used: every key contains it, and when the first key of the row is the
    empty string the match is falsy, so 0 is returned although that key's
    value reads as 5. *)
Example fuzzyGet_empty_key_part :
  let o := [ ("", JS.VString "5") ] in
  firstMatch o "" = Some ("", JS.VString "5")
  /\ JS.parseFloat (JS.VString "5") = lit "5"
  /\ JS.isNaN (lit "5") = false
  /\ ProjectBuilder.fuzzyGet (Some o) "" = JS.zero
  /\ lit "5" <> JS.zero.
Proof. vm_compute. repeat split; discriminate. Qed.

(** C7.  Each composite lookup of the normaliser takes the first candidate
    that does not resolve to 0, in the fixed order Fe, FexOy; temp,
    temperature; viscosity, log10, Value: a later candidate's value is the
    field exactly when all earlier ones resolve to 0 (the last one also
    when it is 0 itself). *)
Theorem C7_composite_priority :
  forall (r : ProjectBuilder.row) (idx : nat),
    let d := ProjectBuilder.parseRow r idx in
    let get := ProjectBuilder.fuzzyGet r in
    FexOy d = (if JS.strict_neq (get "Fe") JS.zero then get "Fe"
               else get "FexOy")
    /\ temperature d = (if JS.strict_neq (get "temp") JS.zero then get "temp"
                        else get "temperature")
    /\ viscosityValue d =
         (if JS.strict_neq (get "viscosity") JS.zero then get "viscosity"
          else if JS.strict_neq (get "log10") JS.zero then get "log10"
          else get "Value").
Proof.
  intros r idx d get. subst d get. simpl.
  repeat split; try (apply or_first_nonzero; apply fuzzyGet_not_NaN).
  rewrite (or_first_nonzero (JS.or _ _)) by
    (apply or_not_NaN; apply fuzzyGet_not_NaN).
  rewrite (or_first_nonzero (ProjectBuilder.fuzzyGet r "viscosity")) by
    apply fuzzyGet_not_NaN.
  destruct (JS.strict_neq (ProjectBuilder.fuzzyGet r "viscosity") JS.zero)
    eqn:Ev.
  - rewrite Ev. reflexivity.
  - destruct (JS.strict_neq (ProjectBuilder.fuzzyGet r "log10") JS.zero);
      reflexivity.
Qed.

(* ================================================================== *)
(** * The normaliser *)
(* ================================================================== *)

Lemma gt_zero_positive (x : JS.number) :
  JS.gt x JS.zero = true <->
  x = JS.Infinity \/ exists m e, x = S754_finite false m e.
Proof.
  split.
  - destruct x as [s | [] | | [] m e]; simpl; try discriminate; intros _;
      [now left | right; now exists m, e].
  - intros [-> | [m [e ->]]]; reflexivity.
Qed.

Lemma accepted_spec (d : ChemicalData) :
  ProjectBuilder.accepted d = true <->
  JS.gt (temperature d) JS.zero = true
  /\ (JS.strict_neq (viscosityValue d) JS.zero = true
      \/ JS.strict_neq (SiO2 d) JS.zero = true).
Proof.
  unfold ProjectBuilder.accepted.
  rewrite andb_true_iff, orb_true_iff. reflexivity.
Qed.

Lemma processImportedData_cases (rawData : list ProjectBuilder.row) :
  let valid := ProjectBuilder.validData rawData in
  (valid = []
   /\ ProjectBuilder.processImportedData rawData = [Alert NoValidData])
  \/ (valid <> [] /\
      ProjectBuilder.processImportedData rawData =
        [ OnDataLoaded valid;
          OnConnect "Imported File"
            ("Found " ++ JS.decimal (N.of_nat (List.length valid))
                      ++ " rows")%string ]).
Proof.
  unfold ProjectBuilder.processImportedData. cbv zeta.
  destruct (ProjectBuilder.validData rawData) as [| d v] eqn:E.
  - left. split; reflexivity.
  - right. split; [discriminate | reflexivity].
Qed.

(** C1.  A sample is in the normalised output exactly when it was built
    for some row and satisfies [temperature > 0] and
    [viscosityValue !== 0 || SiO2 !== 0]; the samples handed to the
    data-loaded callback are that output, so a sample failing the predicate
    is dropped before anything is grouped. *)
Theorem C1_acceptance_predicate :
  forall rawData : list ProjectBuilder.row,
    (forall d,
        In d (ProjectBuilder.validData rawData) <->
        In d (ProjectBuilder.parsedData rawData)
        /\ JS.gt (temperature d) JS.zero = true
        /\ (JS.strict_neq (viscosityValue d) JS.zero = true
            \/ JS.strict_neq (SiO2 d) JS.zero = true))
    /\ (forall data,
           In (OnDataLoaded data)
              (ProjectBuilder.processImportedData rawData) ->
           data = ProjectBuilder.validData rawData).
Proof.
  intros rawData. split.
  - intros d. unfold ProjectBuilder.validData.
    rewrite filter_In, accepted_spec. reflexivity.
  - intros data H.
    destruct (processImportedData_cases rawData) as [[_ E] | [_ E]];
      rewrite E in H; simpl in H.
    + destruct H as [H | []]. discriminate.
    + destruct H as [H | [H | []]]; [now inversion H | discriminate].
Qed.

(** The identifiers of the samples built from position [idx] on. *)
Lemma mapFrom_sampleID (rows : list ProjectBuilder.row) (idx : nat) :
  map sampleID (JS.mapFrom ProjectBuilder.parseRow idx rows)
  = seq (idx + 1) (List.length rows).
Proof.
  revert idx. induction rows as [| r rows IH]; intros idx; simpl.
  - reflexivity.
  - f_equal. apply IH.
Qed.

Lemma mapFrom_sampleID_lower (rows : list ProjectBuilder.row) (idx : nat) :
  Forall (fun d => idx + 1 <= sampleID d)
         (JS.mapFrom ProjectBuilder.parseRow idx rows).
Proof.
  revert idx. induction rows as [| r rows IH]; intros idx; simpl.
  - constructor.
  - constructor; [simpl; lia |].
    eapply Forall_impl; [| apply (IH (S idx))]. simpl. intros; lia.
Qed.

Lemma Forall_filter {A} (P : A -> Prop) (f : A -> bool) (l : list A) :
  Forall P l -> Forall P (filter f l).
Proof.
  induction 1; simpl; [constructor |].
  destruct (f x); [constructor |]; assumption.
Qed.

Lemma valid_ids_increasing (rows : list ProjectBuilder.row) (idx : nat) :
  StronglySorted lt
    (map sampleID
       (filter ProjectBuilder.accepted
               (JS.mapFrom ProjectBuilder.parseRow idx rows))).
Proof.
  revert idx. induction rows as [| r rows IH]; intros idx; simpl.
  - constructor.
  - destruct (ProjectBuilder.accepted (ProjectBuilder.parseRow r idx)).
    + simpl. constructor; [apply IH |].
      apply Forall_map.
      eapply Forall_impl;
        [| apply Forall_filter, (mapFrom_sampleID_lower rows (S idx))].
      simpl. intros; lia.
    + apply IH.
Qed.

Lemma dense_ids_prefix (rows : list ProjectBuilder.row) (idx : nat) :
  let built := JS.mapFrom ProjectBuilder.parseRow idx rows in
  let kept := filter ProjectBuilder.accepted built in
  map sampleID kept = seq (idx + 1) (List.length kept) <->
  kept = firstn (List.length kept) built.
Proof.
  revert idx. induction rows as [| r rows IH]; intros idx; simpl.
  - split; reflexivity.
  - destruct (ProjectBuilder.accepted (ProjectBuilder.parseRow r idx)) eqn:Ea;
      simpl.
    + specialize (IH (S idx)). simpl in IH.
      replace (S idx + 1) with (S (idx + 1)) in IH by lia.
      split; intros H.
      * f_equal. apply IH. now inversion H.
      * f_equal. apply IH. now inversion H.
    + pose proof (mapFrom_sampleID_lower rows (S idx)) as Hlow.
      apply (Forall_filter _ ProjectBuilder.accepted) in Hlow.
      destruct (filter ProjectBuilder.accepted
                  (JS.mapFrom ProjectBuilder.parseRow (S idx) rows))
        as [| d kept] eqn:Ek; simpl.
      * split; reflexivity.
      * inversion Hlow as [| ? ? Hd _]; subst. split; intros H.
        -- injection H as H _. lia.
        -- injection H as H _. subst d. simpl in Hd. lia.
Qed.

(** C2, as amended.  The sample built for the row at position [i] has
    identifier [i+1]; the identifiers of the normalised output are the
    1-based input positions of the accepted rows, strictly increasing, and
    they are the dense sequence 1..N exactly when the accepted rows are the
    first N rows of the input. *)
Theorem C2_ids_are_input_positions :
  forall rawData : list ProjectBuilder.row,
    let built := ProjectBuilder.parsedData rawData in
    let kept := ProjectBuilder.validData rawData in
    map sampleID built = seq 1 (List.length rawData)
    /\ StronglySorted lt (map sampleID kept)
    /\ incl kept built
    /\ (map sampleID kept = seq 1 (List.length kept) <->
        kept = firstn (List.length kept) built).
Proof.
  intros rawData built kept. subst built kept.
  unfold ProjectBuilder.validData, ProjectBuilder.parsedData, JS.mapi.
  repeat split.
  - apply (mapFrom_sampleID rawData 0).
  - apply valid_ids_increasing.
  - intros d Hd. now apply filter_In in Hd.
  - apply (dense_ids_prefix rawData 0).
  - apply (dense_ids_prefix rawData 0).
Qed.

(** C2 as stated fails: a rejected first row leaves the only accepted
    sample with identifier 2, not 1. *)
Lemma C2_dense_ids_counterexample :
  map sampleID (ProjectBuilder.validData [rowFoo; rowA]) = [2]
  /\ map sampleID (ProjectBuilder.validData [rowFoo; rowA])
     <> seq 1 (List.length (ProjectBuilder.validData [rowFoo; rowA])).
Proof. vm_compute. split; [reflexivity | discriminate]. Qed.

(** C8.  With no accepted sample the import raises the no-valid-data
    alert (not the failure alert of the [catch] branch), calls neither
    callback and leaves the state of App as it was; with accepted samples
    it hands them to the data-loaded callback and connects as
    "Imported File" with the label "Found N rows", N the number of accepted
    rows.  What leaves the import depends on the accepted samples only, so
    rejected rows are not reported. *)
Theorem C8_empty_result_or_handover :
  forall (rawData : list ProjectBuilder.row) (st : App.state),
    let valid := ProjectBuilder.validData rawData in
    let out := ProjectBuilder.processImportedData rawData in
    (valid = [] -> out = [Alert NoValidData] /\ App.run out st = st)
    /\ (valid <> [] ->
        out = [ OnDataLoaded valid;
                OnConnect "Imported File"
                  ("Found " ++ JS.decimal (N.of_nat (List.length valid))
                            ++ " rows")%string ]
        /\ App.viscosityData (App.run out st) = valid
        /\ App.isConnected (App.run out st) = true)
    /\ (forall rawData',
           ProjectBuilder.validData rawData' = valid ->
           ProjectBuilder.processImportedData rawData' = out).
Proof.
  intros rawData st valid out. subst valid out. repeat split.
  - destruct (processImportedData_cases rawData) as [[_ E] | [N _]];
      [exact E | contradiction].
  - destruct (processImportedData_cases rawData) as [[_ E] | [N _]];
      [now rewrite E | contradiction].
  - destruct (processImportedData_cases rawData) as [[E _] | [_ E]];
      [contradiction | exact E].
  - destruct (processImportedData_cases rawData) as [[E _] | [_ E]];
      [contradiction | now rewrite E].
  - destruct (processImportedData_cases rawData) as [[E _] | [_ E]];
      [contradiction | now rewrite E].
  - intros rawData' E. unfold ProjectBuilder.processImportedData.
    now rewrite E.
Qed.

(* ================================================================== *)
(** * The numbers the normaliser produces *)
(* ================================================================== *)

Lemma round_ratio_comparable (neg : bool) (m d : positive) :
  comparable (JS.round_ratio neg m d) = true
  \/ JS.round_ratio neg m d = S754_nan.
Proof.
  unfold JS.round_ratio, SFdiv_core_binary.
  set (e' := Z.min _ _).
  assert (He : (-1074 <= e')%Z).
  { subst e'. pose proof (fexp_ge_emin
      (Zdigits2 (Zpos m) + 0 - (Zdigits2 (Zpos d) + 0))) as H.
    lia. }
  destruct (Z.div_eucl _ _) as [q r].
  apply binary_round_aux_exponent. exact He.
Qed.

Lemma of_decimal_comparable (neg : bool) (m e : Z) :
  comparable (JS.of_decimal neg m e) = true
  \/ JS.of_decimal neg m e = S754_nan.
Proof.
  unfold JS.of_decimal. destruct m as [| p | p]; [now left | | now left].
  destruct e as [| k | k]; try apply round_ratio_comparable;
    left; apply binary_round_exponent; lia.
Qed.

Lemma parseFloatString_comparable (input : string) :
  comparable (JS.parseFloatString input) = true
  \/ JS.parseFloatString input = S754_nan.
Proof.
  unfold JS.parseFloatString.
  destruct (match JS.trimStart input with
            | String "-" r => (true, r)
            | String "+" r => (false, r)
            | _ => (false, JS.trimStart input)
            end) as [neg u].
  destruct (JS.startsWith "Infinity" u); [now left |].
  destruct (JS.spanDigits u) as [ip r1].
  destruct (match r1 with
            | String "." r => JS.spanDigits r
            | _ => ([], r1)
            end) as [fp r2].
  destruct ip, fp; try (now right); apply of_decimal_comparable.
Qed.

Lemma fuzzyGet_comparable (r : ProjectBuilder.row) (keyPart : string) :
  comparable (ProjectBuilder.fuzzyGet r keyPart) = true.
Proof.
  unfold ProjectBuilder.fuzzyGet. destruct r as [o |]; [| reflexivity].
  destruct (ProjectBuilder.findKey o keyPart) as [[| c k] |];
    try reflexivity.
  unfold JS.parseFloat.
  destruct (parseFloatString_comparable
              (JS.ToString (ProjectBuilder.cell o (String c k))))
    as [H | H].
  - destruct (JS.isNaN _); [reflexivity | exact H].
  - rewrite H. reflexivity.
Qed.

Lemma or_comparable (a b : JS.number) :
  comparable a = true -> comparable b = true ->
  comparable (JS.or a b) = true.
Proof. unfold JS.or. destruct (JS.truthy a); auto. Qed.

(** Every sample the normaliser builds has a temperature that denotes a
    value. *)
Lemma parsedData_comparable (rawData : list ProjectBuilder.row) :
  Forall hasTemperature
         (ProjectBuilder.parsedData rawData).
Proof.
  unfold ProjectBuilder.parsedData, JS.mapi. generalize 0%nat.
  induction rawData as [| r rows IH]; intros idx; simpl; constructor.
  - simpl. apply or_comparable; apply fuzzyGet_comparable.
  - apply IH.
Qed.

Lemma validData_comparable (rawData : list ProjectBuilder.row) :
  Forall hasTemperature
         (ProjectBuilder.validData rawData).
Proof. apply Forall_filter, parsedData_comparable. Qed.

Lemma MOCK_DATA_comparable :
  Forall hasTemperature MOCK_DATA.
Proof. repeat constructor. Qed.

(* ================================================================== *)
(** * The delimited-text branch of the upload *)
(* ================================================================== *)

Lemma filter_length_le {A} (f g : A -> bool) (l : list A) :
  (forall x, f x = true -> g x = true) ->
  List.length (filter f l) <= List.length (filter g l).
Proof.
  intros H. induction l as [| x l IH]; simpl; [lia |].
  destruct (f x) eqn:Ef.
  - rewrite (H x Ef). simpl. lia.
  - destruct (g x); simpl; lia.
Qed.

(** A line that survives trimming is not empty: fewer than two non-empty
    lines are fewer than two non-blank ones. *)
Lemma nonBlank_le_nonEmpty (text : string) :
  List.length (nonBlankLines text) <= List.length (nonEmptyLines text).
Proof.
  apply filter_length_le. intros r.
  destruct r; [discriminate | reflexivity].
Qed.

Lemma processImportedData_not_silent (rawData : list ProjectBuilder.row) :
  ProjectBuilder.processImportedData rawData <> [].
Proof.
  destruct (processImportedData_cases rawData) as [[_ E] | [_ E]];
    rewrite E; discriminate.
Qed.

(** C10.  For a file that is not an Excel file and whose text has fewer
    than two non-blank lines (so also when it has fewer than two non-empty
    lines), the upload makes no call at all: no callback, no alert, and no
    run of the normaliser, which always makes one. *)
Theorem C10_short_text_is_silent :
  forall (sheet_to_json : string -> option (list ProjectBuilder.row))
         (f : ProjectBuilder.File),
    ProjectBuilder.isExcel f = false ->
    List.length (nonBlankLines (ProjectBuilder.result f)) < 2
    \/ List.length (nonEmptyLines (ProjectBuilder.result f)) < 2 ->
    let out := ProjectBuilder.handleFileUpload sheet_to_json (Some f) in
    out = []
    /\ (forall rawData, ProjectBuilder.processImportedData rawData <> out)
    /\ (forall st, App.run out st = st).
Proof.
  intros sheet_to_json f Hx Hlines.
  assert (Hn : List.length (nonBlankLines (ProjectBuilder.result f)) < 2).
  { destruct Hlines as [H | H]; [exact H |].
    pose proof (nonBlank_le_nonEmpty (ProjectBuilder.result f)). lia. }
  assert (E : ProjectBuilder.handleFileUpload sheet_to_json (Some f) = []).
  { unfold ProjectBuilder.handleFileUpload. rewrite Hx.
    unfold ProjectBuilder.onTextLoad.
    destruct (ProjectBuilder.result f) as [| c t] eqn:Et; [reflexivity |].
    fold (nonBlankLines (String c t)).
    apply Nat.ltb_lt in Hn. rewrite Hn. reflexivity. }
  rewrite E. repeat split.
  - intros rawData. apply processImportedData_not_silent.
Qed.

(** C10 on a headers-only file. *)
Lemma C10_short_text_is_silent_witness :
  let f := {| ProjectBuilder.name := "melt.csv";
              ProjectBuilder.result := "SiO2,temp,viscosity" |} in
  ProjectBuilder.isExcel f = false
  /\ List.length (nonBlankLines (ProjectBuilder.result f)) = 1
  /\ ProjectBuilder.handleFileUpload (fun _ => None) (Some f) = [].
Proof.
  intros f. split; [reflexivity | split; [reflexivity |]].
  apply (C10_short_text_is_silent (fun _ => None) f).
  - reflexivity.
  - left. vm_compute. lia.
Defined.

(* ================================================================== *)
(** * Grouping *)
(* ================================================================== *)

Lemma signature_hyphen (row : ChemicalData) :
  exists a r, DataView.getCompositionSignature row = (a ++ String "-" r)%string.
Proof. unfold DataView.getCompositionSignature. eexists _, _. reflexivity. Qed.

Lemma signature_nonempty (row : ChemicalData) :
  DataView.getCompositionSignature row <> "".
Proof.
  destruct (signature_hyphen row) as [a [r ->]]. destruct a; discriminate.
Qed.

Lemma withSignature_snoc (k : string) (data : list ChemicalData)
    (row : ChemicalData) :
  withSignature k (data ++ [row])
  = withSignature k data
    ++ (if String.eqb (DataView.getCompositionSignature row) k
        then [row] else []).
Proof. unfold withSignature. rewrite filter_app. reflexivity. Qed.

Lemma withSignature_absent (k : string) (data : list ChemicalData) :
  mem k (map DataView.getCompositionSignature data) = false ->
  withSignature k data = [].
Proof.
  intros H. unfold withSignature.
  induction data as [| d data IH]; simpl in *; [reflexivity |].
  unfold mem in H. simpl in H. apply orb_false_iff in H. destruct H as [H1 H2].
  rewrite String.eqb_sym, H1. now apply IH.
Qed.

(** One step of [data.forEach] on the grouping of the rows before it. *)
Lemma addRow_grouping (data : list ChemicalData) (row : ChemicalData) :
  DataView.addRow (grouping data) row = grouping (data ++ [row]).
Proof.
  unfold DataView.addRow, grouping. cbv zeta.
  set (s := DataView.getCompositionSignature row).
  set (ks := firstSeen (map DataView.getCompositionSignature data)).
  assert (Hks : firstSeen (map DataView.getCompositionSignature (data ++ [row]))
                = if mem s ks then ks else ks ++ [s]).
  { rewrite map_app. simpl. rewrite firstSeen_snoc.
    subst ks. now rewrite firstSeen_mem. }
  rewrite Hks. clear Hks.
  destruct (signature_hyphen row) as [a [r Hs]]. fold s in Hs.
  rewrite Hs in *. rewrite !lookup_hyphen, !get_map.
  destruct (mem (a ++ String "-" r) ks) eqn:Em.
  - rewrite get_map, Em.
    rewrite update_map by apply firstSeen_NoDup.
    apply map_ext. intros k. rewrite withSignature_snoc. fold s.
    rewrite Hs, (String.eqb_sym _ k).
    destruct (String.eqb k (a ++ String "-" r)) eqn:E.
    + apply String.eqb_eq in E. now subst k.
    + now rewrite app_nil_r.
  - assert (Hg : JS.get (map (fun k => (k, withSignature k data)) ks)
                        (a ++ String "-" r) = None)
      by now rewrite get_map, Em.
    rewrite set_new_hyphen by exact Hg.
    rewrite get_snoc_new by exact Hg.
    rewrite update_snoc_new by exact Hg.
    rewrite map_app. simpl. f_equal.
    + apply map_ext_in. intros k Hk. rewrite withSignature_snoc. fold s.
      rewrite Hs.
      destruct (String.eqb (a ++ String "-" r) k) eqn:E.
      * apply String.eqb_eq in E. subst k.
        apply mem_In in Hk. congruence.
      * now rewrite app_nil_r.
    + rewrite withSignature_snoc. fold s. rewrite Hs, String.eqb_refl.
      rewrite withSignature_absent; [reflexivity |].
      subst ks. now rewrite firstSeen_mem in Em.
Qed.

(** After the creation step the group of the row's signature is an own
    array, so [push] is applied to an array. *)
Lemma addRow_pushes (g : DataView.groups) (row : ChemicalData) :
  let sig := DataView.getCompositionSignature row in
  let g1 :=
    match JS.lookup g sig with
    | JS.Missing => JS.set g sig []
    | _ => g
    end in
  exists rows, JS.lookup g1 sig = JS.Own rows.
Proof.
  cbv zeta. destruct (signature_hyphen row) as [a [r ->]].
  rewrite !lookup_hyphen.
  destruct (JS.get g (a ++ String "-" r)) as [rows |] eqn:E.
  - exists rows. now rewrite E.
  - exists []. rewrite set_new_hyphen by exact E.
    now rewrite get_snoc_new.
Qed.

Lemma fold_addRow_grouping (data : list ChemicalData) :
  fold_left DataView.addRow data [] = grouping data.
Proof.
  induction data as [| row data IH] using rev_ind; [reflexivity |].
  rewrite fold_left_app. simpl. rewrite IH. apply addRow_grouping.
Qed.

Lemma groupedData_grouping (data : list ChemicalData) :
  DataView.groupedData data = grouping data.
Proof.
  destruct data as [| d data]; [reflexivity |].
  apply (fold_addRow_grouping (d :: data)).
Qed.

Lemma groupKeys_firstSeen (data : list ChemicalData) :
  DataView.groupKeys data
  = firstSeen (map DataView.getCompositionSignature data).
Proof.
  unfold DataView.groupKeys. rewrite groupedData_grouping.
  unfold grouping, JS.keys. rewrite map_map. apply map_id.
Qed.

Lemma get_groupedData (data : list ChemicalData) (k : string) :
  JS.get (DataView.groupedData data) k
  = if mem k (map DataView.getCompositionSignature data)
    then Some (withSignature k data) else None.
Proof.
  rewrite groupedData_grouping. unfold grouping.
  rewrite get_map. now rewrite firstSeen_mem.
Qed.

Lemma groupKeys_nonempty_strings (data : list ChemicalData) :
  ~ In "" (DataView.groupKeys data).
Proof.
  rewrite groupKeys_firstSeen, firstSeen_In, in_map_iff.
  intros [d [E _]]. now apply signature_nonempty in E.
Qed.

(** C9.  [groupedData] is the grouping read off the sample sequence: the
    keys are the signatures in first-seen order and each group holds the
    samples of its signature in input order.  Each further sample is
    appended to the group of its signature, and the result is a function of
    the sample sequence: grouping the same sequence again gives the same
    keys, contents and order. *)
Theorem C9_grouping_first_seen_order :
  forall data : list ChemicalData,
    DataView.groupedData data
      = map (fun k => (k, withSignature k data))
            (firstSeen (map DataView.getCompositionSignature data))
    /\ (forall row,
           DataView.groupedData (data ++ [row])
             = DataView.addRow (DataView.groupedData data) row
           /\ JS.get (DataView.groupedData (data ++ [row]))
                     (DataView.getCompositionSignature row)
              = Some (withSignature (DataView.getCompositionSignature row) data
                      ++ [row]))
    /\ (forall data', data' = data ->
           DataView.groupedData data' = DataView.groupedData data
           /\ DataView.groupKeys data' = DataView.groupKeys data).
Proof.
  intros data. split; [apply groupedData_grouping | split].
  - intros row. split.
    + rewrite !groupedData_grouping. symmetry. apply addRow_grouping.
    + rewrite get_groupedData, map_app. simpl.
      replace (mem _ _) with true.
      * rewrite withSignature_snoc. now rewrite String.eqb_refl.
      * symmetry. apply mem_In, in_or_app. right. now left.
  - intros data' ->. split; reflexivity.
Qed.

(* ================================================================== *)
(** * Signatures and groups *)
(* ================================================================== *)

Lemma rounded_shape (x : JS.number) : fieldShape (rounded x).
Proof. apply toFixed_shape. Qed.

(** Two samples have the same signature exactly when their eight rounded
    composition fields are pairwise identical. *)
Lemma signature_eq_iff (a b : ChemicalData) :
  DataView.getCompositionSignature a = DataView.getCompositionSignature b
  <-> sameRounded a b.
Proof.
  unfold sameRounded, compositionFields, DataView.getCompositionSignature.
  repeat fold (rounded (SiO2 a)) (rounded (SiO2 b))
    (rounded (Al2O3 a)) (rounded (Al2O3 b))
    (rounded (FexOy a)) (rounded (FexOy b))
    (rounded (Na2O a)) (rounded (Na2O b))
    (rounded (K2O a)) (rounded (K2O b))
    (rounded (CaO a)) (rounded (CaO b))
    (rounded (MgO a)) (rounded (MgO b))
    (rounded (TiO2 a)) (rounded (TiO2 b)).
  split.
  - intros E. simpl in E.
    repeat (apply field_split in E; [| apply rounded_shape ..];
            destruct E as [? E]).
    repeat (constructor; [assumption |]). constructor.
  - intros H.
    repeat (match goal with
            | H : Forall _ (_ :: _) |- _ => inversion H; clear H; subst
            end).
    congruence.
Qed.

Lemma withSignature_In (k : string) (data : list ChemicalData)
    (d : ChemicalData) :
  In d (withSignature k data)
  <-> In d data /\ DataView.getCompositionSignature d = k.
Proof.
  unfold withSignature. rewrite filter_In, String.eqb_eq. reflexivity.
Qed.

Lemma signature_mem (data : list ChemicalData) (d : ChemicalData) :
  In d data ->
  mem (DataView.getCompositionSignature d)
      (map DataView.getCompositionSignature data) = true.
Proof. intros H. apply mem_In, in_map, H. Qed.

(** Two samples of the collection share a group exactly when they have
    the same signature. *)
Lemma sameGroup_iff_signature (data : list ChemicalData)
    (a b : ChemicalData) :
  In a data -> In b data ->
  (sameGroup data a b <->
   DataView.getCompositionSignature a = DataView.getCompositionSignature b).
Proof.
  intros Ha Hb. unfold sameGroup. split.
  - intros [k [rows [Hg [Hra Hrb]]]].
    rewrite get_groupedData in Hg.
    destruct (mem k _); [| discriminate]. inversion Hg; subst rows.
    apply withSignature_In in Hra, Hrb.
    destruct Hra as [_ ->], Hrb as [_ Hrb]. now symmetry.
  - intros E.
    exists (DataView.getCompositionSignature a),
           (withSignature (DataView.getCompositionSignature a) data).
    rewrite get_groupedData, signature_mem by exact Ha.
    rewrite !withSignature_In. auto.
Qed.

(** The sign survives rounding to zero: the printed forms of -0.001 and
    0.001 differ. *)
Example rounded_keeps_sign :
  rounded (lit "-0.001") = "-0.00" /\ rounded (lit "0.001") = "0.00".
Proof. vm_compute. split; reflexivity. Qed.

(** C3, as amended.  Two samples of the collection are placed in the same
    group exactly when their eight composition fields, each printed with
    two decimal digits by [toFixed(2)], are pairwise identical, that is
    when they have the same signature; 53.500001 and 53.4999994 both print
    as 53.50. *)
Theorem C3_same_group_iff_same_rounding :
  forall (data : list ChemicalData) (a b : ChemicalData),
    In a data -> In b data ->
    (sameGroup data a b <-> sameRounded a b)
    /\ (sameRounded a b <->
        DataView.getCompositionSignature a = DataView.getCompositionSignature b)
    /\ rounded (lit "53.500001") = rounded (lit "53.4999994").
Proof.
  intros data a b Ha Hb. split; [| split].
  - rewrite (sameGroup_iff_signature data a b Ha Hb).
    apply signature_eq_iff.
  - symmetry. apply signature_eq_iff.
  - vm_compute. reflexivity.
Qed.

(** C3 on the two values of the rounding example. *)
Lemma C3_same_group_iff_same_rounding_witness :
  let a := silica 1 "53.500001" "1488" in
  let b := silica 2 "53.4999994" "1470" in
  In a [a; b] /\ In b [a; b] /\ sameGroup [a; b] a b.
Proof.
  intros a b.
  assert (Ha : In a [a; b]) by now left.
  assert (Hb : In b [a; b]) by (right; now left).
  split; [exact Ha | split; [exact Hb |]].
  apply (proj1 (C3_same_group_iff_same_rounding [a; b] a b Ha Hb)).
  unfold sameRounded, compositionFields.
  repeat (constructor; [vm_compute; reflexivity |]). constructor.
Defined.

(** C3 as stated fails for fields that differ only beyond the second
    decimal place but lie on either side of a rounding boundary: 1.004 and
    1.006 agree up to the second decimal place, print as 1.00 and 1.01, and
    the two samples get a group each. *)
Lemma C3_rounding_boundary_counterexample :
  let a := silica 1 "1.004" "1450" in
  let b := silica 2 "1.006" "1450" in
  Forall (fun f => truncated2 (f a) = truncated2 (f b)) compositionFields
  /\ truncated2 (SiO2 a) = Some 100%Z
  /\ rounded (SiO2 a) = "1.00" /\ rounded (SiO2 b) = "1.01"
  /\ DataView.groupKeys [a; b]
     = [ "1.00-0.00-0.00-0.00-0.00-0.00-0.00-0.00";
         "1.01-0.00-0.00-0.00-0.00-0.00-0.00-0.00" ]
  /\ ~ sameGroup [a; b] a b.
Proof.
  intros a b. repeat split; try (vm_compute; reflexivity).
  - unfold compositionFields.
    repeat (constructor; [vm_compute; reflexivity |]). constructor.
  - rewrite sameGroup_iff_signature; [| now left | right; now left].
    vm_compute. discriminate.
Qed.

(* ================================================================== *)
(** * Selection *)
(* ================================================================== *)

Lemma keysEffect_member (keys : list string) (sel : string) :
  In sel keys -> sel <> "" -> DataView.keysEffect keys sel = None.
Proof.
  intros Hin Hne. unfold DataView.keysEffect.
  destruct keys as [| k0 keys]; [contradiction |].
  apply mem_In in Hin. unfold mem in Hin. rewrite Hin.
  apply String.eqb_neq in Hne. now rewrite Hne.
Qed.

Lemma keysEffect_stranger (k0 : string) (keys : list string) (sel : string) :
  ~ In sel (k0 :: keys) -> DataView.keysEffect (k0 :: keys) sel = Some k0.
Proof.
  intros Hin. unfold DataView.keysEffect.
  apply mem_false in Hin. unfold mem in Hin. rewrite Hin.
  now rewrite orb_true_r.
Qed.

Lemma commit_empty (dataChanged : bool) (data : list ChemicalData)
    (sel : string) :
  DataView.groupKeys data = [] -> DataView.commit dataChanged data sel = "".
Proof.
  intros H. unfold DataView.commit. rewrite H. now destruct dataChanged.
Qed.

(** C5.  When the grouping has a first key [k]: a commit in which the
    [data] reference changed sets the selection to [k] whatever it was,
    also when it is a key of the new grouping; a commit with the same
    [data] reference keeps a selection that is a key and replaces one that
    is not by [k].  The re-render that follows changes nothing. *)
Theorem C5_selection_policy :
  forall (data : list ChemicalData) (sel k : string) (ks : list string),
    DataView.groupKeys data = k :: ks ->
    (DataView.commit true data sel = k
     /\ DataView.settle true data sel = k)
    /\ (In sel (DataView.groupKeys data) ->
        DataView.commit false data sel = sel
        /\ DataView.settle false data sel = sel)
    /\ (~ In sel (DataView.groupKeys data) ->
        DataView.commit false data sel = k
        /\ DataView.settle false data sel = k).
Proof.
  intros data sel k ks Hk.
  pose proof (groupKeys_nonempty_strings data) as Hne.
  assert (Hkeep : forall s, In s (DataView.groupKeys data) ->
                            DataView.commit false data s = s).
  { intros s Hs. unfold DataView.commit.
    rewrite keysEffect_member; [reflexivity | exact Hs |].
    intros ->. contradiction. }
  assert (Hfirst : In k (DataView.groupKeys data)) by (rewrite Hk; now left).
  assert (Hreset : DataView.commit true data sel = k).
  { unfold DataView.commit. rewrite Hk. reflexivity. }
  assert (Hnew : ~ In sel (DataView.groupKeys data) ->
                 DataView.commit false data sel = k).
  { intros Hs. unfold DataView.commit. rewrite Hk in *.
    now rewrite keysEffect_stranger. }
  unfold DataView.settle. split; [| split].
  - rewrite Hreset. split; [reflexivity | now apply Hkeep].
  - intros Hs. rewrite !Hkeep by assumption. split; reflexivity.
  - intros Hs. rewrite (Hnew Hs). split; [reflexivity | now apply Hkeep].
Qed.

(** C5 on the mock table: a full replace moves the selection from the
    second group to the first. *)
Lemma C5_selection_policy_witness :
  DataView.groupKeys MOCK_DATA
    = [ "53.50-15.33-10.60-2.32-1.87-7.58-7.48-0.94";
        "48.20-13.10-11.20-1.95-0.45-10.80-9.50-1.80" ]
  /\ DataView.commit true MOCK_DATA
       "48.20-13.10-11.20-1.95-0.45-10.80-9.50-1.80"
     = "53.50-15.33-10.60-2.32-1.87-7.58-7.48-0.94".
Proof.
  assert (H : DataView.groupKeys MOCK_DATA
              = [ "53.50-15.33-10.60-2.32-1.87-7.58-7.48-0.94";
                  "48.20-13.10-11.20-1.95-0.45-10.80-9.50-1.80" ])
    by (vm_compute; reflexivity).
  split; [exact H |].
  exact (proj1 (proj1 (C5_selection_policy MOCK_DATA
                         "48.20-13.10-11.20-1.95-0.45-10.80-9.50-1.80"
                         _ _ H))).
Defined.

(* ================================================================== *)
(** * Projection: the stable sort by temperature *)
(* ================================================================== *)

Lemma value_le_trans (x y z : JS.number) :
  value_le x y -> value_le y z -> value_le x z.
Proof. unfold value_le. lia. Qed.

Lemma value_lt_le (x y : JS.number) : value_lt x y -> value_le x y.
Proof. unfold value_lt, value_le. lia. Qed.

Lemma not_value_lt_le (x y : JS.number) : ~ value_lt y x -> value_le x y.
Proof. unfold value_lt, value_le. lia. Qed.

Lemma sameValue_not_lt (x y t : JS.number) :
  sameValue x t = true -> sameValue y t = true -> ~ value_lt y x.
Proof.
  unfold sameValue, value_lt. rewrite !andb_true_iff, !Z.eqb_eq. lia.
Qed.

Section Projection.

Lemma insert_Permutation (x : ChemicalData) (l : list ChemicalData) :
  Permutation (x :: l) (JS.insert DataView.byTemperature x l).
Proof.
  induction l as [| y l IH]; simpl; [apply Permutation_refl |].
  destruct (JS.gt _ _); [| apply Permutation_refl].
  eapply Permutation_trans; [apply perm_swap |]. now apply perm_skip.
Qed.

Lemma sort_Permutation (l : list ChemicalData) :
  Permutation l (JS.sort DataView.byTemperature l).
Proof.
  induction l as [| x l IH]; simpl; [constructor |].
  eapply Permutation_trans; [| apply insert_Permutation].
  now apply perm_skip.
Qed.

(** Whether [x] overtakes [y] during insertion. *)
Lemma overtakes (x y : ChemicalData) :
  hasTemperature x -> hasTemperature y ->
  (JS.gt (DataView.byTemperature x y) JS.zero = true
   <-> value_lt (temperature y) (temperature x)).
Proof. intros Hx Hy. now apply sub_gt_zero. Qed.

Lemma insert_ascending (x : ChemicalData) (l : list ChemicalData) :
  hasTemperature x -> Forall hasTemperature l -> ascending l ->
  ascending (JS.insert DataView.byTemperature x l).
Proof.
  unfold ascending. intros Hx Hl Hs.
  induction l as [| y l IH]; simpl.
  - constructor; constructor.
  - inversion Hl as [| ? ? Hy Hl']; subst.
    inversion Hs as [| ? ? Hs' Hall]; subst.
    destruct (JS.gt _ _) eqn:E.
    + apply (overtakes x y Hx Hy) in E.
      constructor; [now apply IH |].
      eapply Permutation_Forall; [apply insert_Permutation |].
      constructor; [now apply value_lt_le | exact Hall].
    + assert (Hxy : value_le (temperature x) (temperature y)).
      { apply not_value_lt_le. intros H.
        apply (overtakes x y Hx Hy) in H. congruence. }
      constructor; [exact Hs |].
      constructor; [exact Hxy |].
      eapply Forall_impl; [| exact Hall].
      intros z Hz. now apply (value_le_trans _ (temperature y)).
Qed.

Lemma sort_ascending (l : list ChemicalData) :
  Forall hasTemperature l ->
  ascending (JS.sort DataView.byTemperature l).
Proof.
  induction 1 as [| x l Hx Hl IH]; simpl; [constructor |].
  apply insert_ascending; [exact Hx | | exact IH].
  eapply Permutation_Forall; [apply sort_Permutation | exact Hl].
Qed.

(** Insertion only overtakes samples of another temperature. *)
Lemma insert_atTemperature (t : JS.number) (x : ChemicalData)
    (l : list ChemicalData) :
  hasTemperature x -> Forall hasTemperature l ->
  atTemperature t (JS.insert DataView.byTemperature x l)
  = atTemperature t (x :: l).
Proof.
  intros Hx Hl. induction Hl as [| y l Hy Hl IH]; [reflexivity |].
  simpl JS.insert. destruct (JS.gt _ _) eqn:E; [| reflexivity].
  apply (overtakes x y Hx Hy) in E.
  unfold atTemperature in *. simpl in *. rewrite IH.
  destruct (sameValue (temperature x) t) eqn:Ex;
    destruct (sameValue (temperature y) t) eqn:Ey; try reflexivity.
  exfalso. exact (sameValue_not_lt _ _ _ Ex Ey E).
Qed.

Lemma sort_atTemperature (t : JS.number) (l : list ChemicalData) :
  Forall hasTemperature l ->
  atTemperature t (JS.sort DataView.byTemperature l) = atTemperature t l.
Proof.
  induction 1 as [| x l Hx Hl IH]; [reflexivity |].
  simpl JS.sort. rewrite insert_atTemperature.
  - unfold atTemperature in *. simpl. now rewrite IH.
  - exact Hx.
  - eapply Permutation_Forall; [apply sort_Permutation | exact Hl].
Qed.
End Projection.

(** Neither the empty selection nor a signature names an inherited
    property. *)
Lemma selection_not_inherited (sig : string) :
  sig = "" \/ (exists d, sig = DataView.getCompositionSignature d) ->
  JS.inherited sig = false.
Proof.
  intros [-> | [d ->]]; [reflexivity |].
  destruct (signature_hyphen d) as [a [r ->]]. apply inherited_hyphen.
Qed.

(** The projection is the sorted copy of the samples that carry the
    selected signature. *)
Lemma currentData_sort (data : list ChemicalData) (sig : string) :
  JS.inherited sig = false ->
  DataView.currentData data sig
  = Some (JS.sort DataView.byTemperature (withSignature sig data)).
Proof.
  intros Hsig. unfold DataView.currentData, JS.lookup.
  rewrite get_groupedData, Hsig.
  destruct (mem sig (map DataView.getCompositionSignature data)) eqn:Em.
  - destruct sig; [| reflexivity].
    apply mem_In, in_map_iff in Em. destruct Em as [d [E _]].
    now apply signature_nonempty in E.
  - rewrite (withSignature_absent sig data Em). now destruct sig.
Qed.

(** C4.  On samples whose temperatures denote values (as those of every
    imported collection do) and for a selection that names no inherited
    property (the empty selection and every signature): the projection of
    a signature that is a key is the group's samples in ascending order of
    temperature, the samples of any one temperature in their original
    relative order; the projection of a signature that is not a key is
    empty. *)
Theorem C4_projection_sorted_stable :
  forall (data : list ChemicalData) (sig : string),
    Forall hasTemperature data ->
    JS.inherited sig = false ->
    (JS.get (DataView.groupedData data) sig = None ->
     DataView.currentData data sig = Some [])
    /\ (forall rows,
           JS.get (DataView.groupedData data) sig = Some rows ->
           exists out,
             DataView.currentData data sig = Some out
             /\ Permutation rows out
             /\ ascending out
             /\ (forall t, atTemperature t out = atTemperature t rows)).
Proof.
  intros data sig Hdata Hsig.
  rewrite (currentData_sort data sig Hsig), get_groupedData.
  destruct (mem sig (map DataView.getCompositionSignature data)) eqn:Em;
    split; try discriminate.
  - intros rows H. injection H as <-.
    assert (Hrows : Forall hasTemperature (withSignature sig data))
      by now apply Forall_filter.
    eexists. split; [reflexivity |]. split; [| split].
    + apply sort_Permutation.
    + now apply sort_ascending.
    + intros t. now apply sort_atTemperature.
  - intros _. now rewrite (withSignature_absent sig data Em).
Qed.


(** C4 on the stability example: temperatures 1450, 1420, 1450 in the
    order A, B, C are projected as B, A, C. *)
Lemma C4_projection_sorted_stable_witness :
  let data := [ silica 1 "53.5" "1450"; silica 2 "53.5" "1420";
                silica 3 "53.5" "1450" ] in
  let sig := "53.50-0.00-0.00-0.00-0.00-0.00-0.00-0.00" in
  Forall hasTemperature data
  /\ JS.inherited sig = false
  /\ option_map (map sampleID) (DataView.currentData data sig)
     = Some [2; 1; 3]
  /\ exists out, DataView.currentData data sig = Some out /\ ascending out.
Proof.
  intros data sig.
  assert (H : Forall hasTemperature data)
    by (repeat constructor).
  assert (Hi : JS.inherited sig = false) by reflexivity.
  split; [exact H | split; [exact Hi | split; [vm_compute; reflexivity |]]].
  destruct (C4_projection_sorted_stable data sig H Hi) as [_ Hsome].
  destruct (Hsome data) as [out [E [_ [Ha _]]]]; [vm_compute; reflexivity |].
  exists out. split; assumption.
Defined.

(** The two-row scenario: both rows are accepted, they form one group, and
    the projection lists 1470 before 1488. *)
Example scenario_two_rows :
  let data := ProjectBuilder.validData [rowA; rowB] in
  map sampleID data = [1; 2]
  /\ DataView.groupKeys data = ["53.50-0.00-0.00-0.00-0.00-0.00-0.00-0.00"]
  /\ option_map
       (map (fun d => (JS.numberToString (temperature d),
                       JS.numberToString (viscosityValue d))))
       (DataView.currentData data "53.50-0.00-0.00-0.00-0.00-0.00-0.00-0.00")
     = Some [("1470", "2.232"); ("1488", "2.268")].
Proof. vm_compute. repeat split. Qed.

(** The row without a recognisable key is rejected, and the import
    signals that nothing valid was found. *)
Example scenario_unrecognised_row :
  ProjectBuilder.validData [rowFoo] = []
  /\ ProjectBuilder.processImportedData [rowFoo] = [Alert NoValidData].
Proof. vm_compute. split; reflexivity. Qed.

(* ================================================================== *)
(** * The groups partition the samples *)
(* ================================================================== *)

Local Open Scope list_scope.
Local Open Scope nat_scope.

Lemma filter_split_Permutation {A} (p q : A -> bool) (l : list A) :
  (forall x, p x = true -> q x = false) ->
  Permutation (filter p l ++ filter q l) (filter (fun x => p x || q x) l).
Proof.
  intros Hpq. induction l as [| x l IH]; simpl; [constructor |].
  destruct (p x) eqn:Ep; simpl.
  - rewrite (Hpq x Ep). simpl. now constructor.
  - destruct (q x); simpl; [| exact IH].
    etransitivity; [symmetry; apply Permutation_middle |]. now constructor.
Qed.

Lemma filter_all {A} (p : A -> bool) (l : list A) :
  (forall x, In x l -> p x = true) -> filter p l = l.
Proof.
  induction l as [| x l IH]; simpl; intros H; [reflexivity |].
  rewrite (H x (or_introl eq_refl)), IH; [reflexivity |].
  intros y Hy. apply H. now right.
Qed.

(** The groups of distinct signatures, laid end to end, are the samples
    that carry one of these signatures. *)
Lemma concat_withSignature (data : list ChemicalData) (ks : list string) :
  NoDup ks ->
  Permutation
    (List.concat (map (fun k => withSignature k data) ks))
    (filter (fun d => mem (DataView.getCompositionSignature d) ks) data).
Proof.
  induction 1 as [| k ks Hk Hnd IH]; simpl.
  - induction data; simpl; auto.
  - etransitivity; [apply Permutation_app_head, IH |].
    unfold withSignature.
    etransitivity; [apply filter_split_Permutation |].
    + intros d E. apply String.eqb_eq in E. subst k.
      now apply mem_false.
    + erewrite filter_ext; [reflexivity |].
      intros d. simpl. now rewrite String.eqb_sym.
Qed.

(** The group of a key has a first row. *)
Lemma withSignature_first (data : list ChemicalData) (k : string) :
  In k (DataView.groupKeys data) ->
  exists d rest, withSignature k data = d :: rest.
Proof.
  rewrite groupKeys_firstSeen, firstSeen_In, in_map_iff.
  intros [d [E Hd]].
  destruct (withSignature k data) as [| d0 rest] eqn:W.
  - exfalso. assert (H : In d (withSignature k data))
      by (apply withSignature_In; split; assumption).
    rewrite W in H. destruct H.
  - now exists d0, rest.
Qed.

Lemma lookup_groupedData (data : list ChemicalData) (k : string) :
  In k (DataView.groupKeys data) ->
  JS.lookup (DataView.groupedData data) k = JS.Own (withSignature k data).
Proof.
  intros Hk. unfold JS.lookup. rewrite get_groupedData.
  rewrite groupKeys_firstSeen, firstSeen_In in Hk.
  apply mem_In in Hk. now rewrite Hk.
Qed.

Lemma groupKeys_nil (data : list ChemicalData) :
  DataView.groupKeys data = [] <-> data = [].
Proof.
  rewrite groupKeys_firstSeen. destruct data; simpl; split; congruence.
Qed.

(** X1.  The groups partition the samples: the keys are pairwise distinct,
    no group is empty, a group holds exactly the samples of the input that
    carry its signature, and the groups laid end to end are a rearrangement
    of the input, so that every sample sits in exactly one group and the
    group sizes add up to the number of samples. *)
Theorem X1_groups_partition_the_samples :
  forall data : list ChemicalData,
    NoDup (DataView.groupKeys data)
    /\ Permutation (List.concat (map snd (DataView.groupedData data))) data
    /\ (forall k rows,
           In (k, rows) (DataView.groupedData data) ->
           rows <> []
           /\ forall d, In d rows
                        <-> In d data /\ DataView.getCompositionSignature d = k).
Proof.
  intros data. split; [| split].
  - rewrite groupKeys_firstSeen. apply firstSeen_NoDup.
  - rewrite groupedData_grouping. unfold grouping. rewrite map_map. simpl.
    etransitivity; [apply concat_withSignature, firstSeen_NoDup |].
    rewrite filter_all; [reflexivity |].
    intros d Hd. rewrite firstSeen_mem. now apply signature_mem.
  - intros k rows H. rewrite groupedData_grouping in H. unfold grouping in H.
    apply in_map_iff in H. destruct H as [k' [E Hk]].
    injection E as -> <-.
    split; [| intros d; apply withSignature_In].
    rewrite <- groupKeys_firstSeen in Hk.
    destruct (withSignature_first data k Hk) as [d [rest ->]]. discriminate.
Qed.

(* ================================================================== *)
(** * The dropdown *)
(* ================================================================== *)

(** X2.  [sampleOptions] never throws.  It lists one entry per group, in
    the order of the keys, whose value is the key and whose label is taken
    from the first sample of the input that carries the signature. *)
Theorem X2_sampleOptions_first_rows :
  forall data : list ChemicalData,
    exists opts,
      DataView.sampleOptions data = Some opts
      /\ Forall2
           (fun k o =>
              DataView.value o = k
              /\ exists firstRow rest,
                   withSignature k data = firstRow :: rest
                   /\ DataView.label o = DataView.labelOf firstRow)
           (DataView.groupKeys data) opts.
Proof.
  intros data. unfold DataView.sampleOptions.
  assert (H : forall k, In k (DataView.groupKeys data) ->
                        In k (DataView.groupKeys data)) by auto.
  revert H. generalize (DataView.groupKeys data) at 1 3 4 as ks.
  induction ks as [| k ks IH]; intros H; simpl.
  - exists []. split; [reflexivity | constructor].
  - destruct IH as [opts [E F]]; [intros k' Hk'; apply H; now right |].
    rewrite E. unfold DataView.sampleOption.
    rewrite lookup_groupedData by (apply H; now left).
    destruct (withSignature_first data k (H k (or_introl eq_refl)))
      as [d [rest W]].
    rewrite W. simpl.
    eexists. split; [reflexivity |].
    constructor; [| exact F]. simpl. split; [reflexivity |].
    now exists d, rest.
Qed.

(* ================================================================== *)
(** * The sample shown and the selection *)
(* ================================================================== *)

Lemma sameValue_refl (x : JS.number) : sameValue x x = true.
Proof. unfold sameValue. now rewrite !Z.eqb_refl. Qed.

Lemma ascending_head (d : ChemicalData) (l : list ChemicalData) :
  ascending (d :: l) ->
  forall d', In d' (d :: l) -> value_le (temperature d) (temperature d').
Proof.
  intros H d' [<- | Hd'].
  - right. split; [reflexivity | lia].
  - apply StronglySorted_inv in H. destruct H as [_ H].
    rewrite Forall_forall in H. now apply H.
Qed.

(** X3.  For samples whose temperatures denote values and a selection that
    names no inherited property, [currentSample] is the coldest sample of the
    selected group, and among equally cold ones the first of the input;
    it is undefined exactly when no sample carries the selected
    signature. *)
Theorem X3_currentSample_is_the_coldest :
  forall (data : list ChemicalData) (sig : string),
    Forall hasTemperature data ->
    JS.inherited sig = false ->
    match DataView.currentSample data sig with
    | Some d =>
        In d data /\ DataView.getCompositionSignature d = sig
        /\ (forall d', In d' data ->
                       DataView.getCompositionSignature d' = sig ->
                       value_le (temperature d) (temperature d'))
        /\ exists rest,
             atTemperature (temperature d) (withSignature sig data) = d :: rest
    | None =>
        forall d', In d' data -> DataView.getCompositionSignature d' <> sig
    end.
Proof.
  intros data sig HT Hin. unfold DataView.currentSample.
  rewrite (currentData_sort data sig Hin).
  assert (HW : Forall hasTemperature (withSignature sig data))
    by apply Forall_filter, HT.
  pose proof (sort_Permutation (withSignature sig data)) as HP.
  pose proof (sort_ascending _ HW) as HA.
  pose proof (fun t => sort_atTemperature t _ HW) as HS.
  destruct (JS.sort DataView.byTemperature (withSignature sig data))
    as [| d out] eqn:E; simpl.
  - apply Permutation_sym, Permutation_nil in HP.
    intros d' Hd' Hs.
    assert (H : In d' (withSignature sig data))
      by (apply withSignature_In; now split).
    rewrite HP in H. destruct H.
  - assert (Hd : In d (withSignature sig data)).
    { eapply Permutation_in; [apply Permutation_sym, HP | now left]. }
    apply withSignature_In in Hd. destruct Hd as [Hd Hs].
    split; [exact Hd |]. split; [exact Hs |]. split.
    + intros d' Hd' Hs'. apply (ascending_head d out HA).
      eapply Permutation_in; [apply HP |].
      apply withSignature_In. now split.
    + specialize (HS (temperature d)). simpl in HS.
      rewrite sameValue_refl in HS. eexists. symmetry. exact HS.
Qed.

(** X3 on three samples of one composition at 1450, 1420 and 1420
    degrees: the second is shown. *)
Lemma X3_currentSample_is_the_coldest_witness :
  let data := [ silica 1 "53.5" "1450"; silica 2 "53.5" "1420";
                silica 3 "53.5" "1420" ] in
  let sig := "53.50-0.00-0.00-0.00-0.00-0.00-0.00-0.00" in
  Forall hasTemperature data
  /\ JS.inherited sig = false
  /\ DataView.currentSample data sig = Some (silica 2 "53.5" "1420")
  /\ DataView.getCompositionSignature (silica 2 "53.5" "1420") = sig.
Proof.
  intros data sig.
  assert (H : Forall hasTemperature data) by (repeat constructor).
  assert (Hi : JS.inherited sig = false) by reflexivity.
  assert (E : DataView.currentSample data sig = Some (silica 2 "53.5" "1420"))
    by (vm_compute; reflexivity).
  split; [exact H | split; [exact Hi | split; [exact E |]]].
  pose proof (X3_currentSample_is_the_coldest data sig H Hi) as T.
  rewrite E in T. apply T.
Defined.

Lemma commit_is_key (dataChanged : bool) (data : list ChemicalData)
    (sel : string) :
  DataView.groupKeys data <> [] ->
  In (DataView.commit dataChanged data sel) (DataView.groupKeys data).
Proof.
  intros Hne. unfold DataView.commit.
  destruct (DataView.groupKeys data) as [| k0 ks] eqn:Hk; [congruence |].
  assert (H1 : In match DataView.keysEffect (k0 :: ks) sel with
                  | Some v => v
                  | None => sel
                  end (k0 :: ks)).
  { destruct (mem sel (k0 :: ks)) eqn:Em.
    - destruct (DataView.keysEffect (k0 :: ks) sel) as [v |] eqn:E.
      + unfold DataView.keysEffect in E.
        destruct (_ || _) in E; [| discriminate].
        injection E as <-. now left.
      + now apply mem_In.
    - rewrite keysEffect_stranger; [now left | now apply mem_false]. }
  destruct dataChanged; [simpl; now left | exact H1].
Qed.

(** X4.  Whatever the selection was and whether or not the data changed,
    the selection a commit leaves is the empty string when there is no
    data and a key of the grouping otherwise.  A further commit keeps it,
    so the component settles after one commit; and for it the projection
    is defined, and empty only when there is no data. *)
Theorem X4_committed_selection_is_shown :
  forall (dataChanged : bool) (data : list ChemicalData) (sel : string),
    let s := DataView.commit dataChanged data sel in
    (data = [] -> s = "")
    /\ (data <> [] -> In s (DataView.groupKeys data))
    /\ DataView.commit false data s = s
    /\ DataView.settle dataChanged data sel = s
    /\ exists rows,
         DataView.currentData data s = Some rows
         /\ (rows = [] <-> data = []).
Proof.
  intros dataChanged data sel s.
  assert (Hempty : data = [] -> s = "").
  { intros ->. apply commit_empty. reflexivity. }
  assert (Hkey : data <> [] -> In s (DataView.groupKeys data)).
  { intros Hd. apply commit_is_key. now rewrite groupKeys_nil. }
  assert (Hfix : DataView.commit false data s = s).
  { destruct data as [| d data].
    - rewrite (Hempty eq_refl). reflexivity.
    - assert (Hs : In s (DataView.groupKeys (d :: data)))
        by (apply Hkey; discriminate).
      unfold DataView.commit at 1.
      rewrite keysEffect_member; [reflexivity | exact Hs |].
      intros E. rewrite E in Hs.
      exact (groupKeys_nonempty_strings _ Hs). }
  split; [exact Hempty |]. split; [exact Hkey |]. split; [exact Hfix |].
  split; [exact Hfix |].
  destruct data as [| d data].
  - rewrite (Hempty eq_refl). exists []. split; reflexivity.
  - assert (Hs : In s (DataView.groupKeys (d :: data)))
      by (apply Hkey; discriminate).
    destruct (withSignature_first _ _ Hs) as [d0 [rest W]].
    rewrite currentData_sort.
    + eexists. split; [reflexivity |].
      split; [| discriminate].
      intros E. pose proof (sort_Permutation (withSignature s (d :: data))) as P.
      rewrite E, W in P. now apply Permutation_sym, Permutation_nil in P.
    + apply selection_not_inherited. right.
      rewrite groupKeys_firstSeen, firstSeen_In, in_map_iff in Hs.
      destruct Hs as [d1 [E _]]. now exists d1.
Qed.

Lemma StronglySorted_lt_NoDup (l : list nat) : StronglySorted lt l -> NoDup l.
Proof.
  induction 1 as [| x l Hs IH Hx]; constructor; [| exact IH].
  intros Hin. rewrite Forall_forall in Hx. specialize (Hx x Hin). lia.
Qed.

(** The samples of a group have distinct identifiers when those of the
    input do. *)
Lemma withSignature_distinct_ids (k : string) (data : list ChemicalData) :
  NoDup (map sampleID data) -> NoDup (map sampleID (withSignature k data)).
Proof.
  unfold withSignature. induction data as [| d data IH]; simpl; intros H;
    [constructor |].
  apply NoDup_cons_iff in H. destruct H as [Hd Hrest].
  destruct (String.eqb (DataView.getCompositionSignature d) k); simpl;
    [| now apply IH].
  constructor; [| now apply IH].
  rewrite in_map_iff. intros [d' [E Hd']]. apply filter_In in Hd'.
  apply Hd, in_map_iff. exists d'. tauto.
Qed.

(** X5.  For what an import hands over, the projection of the signature
    of any sample is defined; it is a rearrangement of the group that is
    ascending in temperature and keeps the input order of equal
    temperatures, and its rows have pairwise distinct identifiers. *)
Theorem X5_projection_of_an_import :
  forall (rawData : list ProjectBuilder.row) (d : ChemicalData),
    let data := ProjectBuilder.validData rawData in
    let sig := DataView.getCompositionSignature d in
    exists out,
      DataView.currentData data sig = Some out
      /\ Permutation (withSignature sig data) out
      /\ ascending out
      /\ (forall t, atTemperature t out
                    = atTemperature t (withSignature sig data))
      /\ NoDup (map sampleID out).
Proof.
  intros rawData d data sig.
  assert (Hsig : JS.inherited sig = false)
    by (apply selection_not_inherited; right; now exists d).
  assert (Hrows : Forall hasTemperature (withSignature sig data))
    by apply Forall_filter, validData_comparable.
  eexists. split; [now apply currentData_sort |].
  split; [apply sort_Permutation |].
  split; [now apply sort_ascending |].
  split; [intros t; now apply sort_atTemperature |].
  eapply Permutation_NoDup;
    [apply Permutation_map, sort_Permutation |].
  apply withSignature_distinct_ids, StronglySorted_lt_NoDup.
  apply (valid_ids_increasing rawData 0).
Qed.

(* ================================================================== *)
(** * Text fields and the case of keys *)
(* ================================================================== *)

(** What fuzzyGetStr returns for any key part. *)
Lemma fuzzyGetStr_spec (o : JS.object JS.value) (keyPart : string) :
  ProjectBuilder.fuzzyGetStr (Some o) keyPart =
    match firstMatch o keyPart with
    | Some (String _ _, v) => JS.ToString v
    | _ => ""
    end.
Proof.
  unfold ProjectBuilder.fuzzyGetStr, ProjectBuilder.findKey, firstMatch.
  pose proof (find_keys_get
                (fun k => JS.includes (JS.toLowerCase k)
                                      (JS.toLowerCase keyPart)) o) as H.
  cbv beta in H.
  destruct (find _ (JS.keys o)) as [k |].
  - destruct H as [v [H1 H2]]. rewrite H1.
    destruct k as [| c k]; [reflexivity |].
    unfold ProjectBuilder.cell. now rewrite H2.
  - now rewrite H.
Qed.

(** X6.  For every row and every non-empty key part, fuzzyGetStr returns
    the value of the first key, in the row's key order, whose lower-cased
    form contains the lower-cased key part, converted to a string (so
    ["undefined"] for a cell that is undefined); it returns the empty
    string when no key matches and for a falsy row. *)
Theorem X6_fuzzyGetStr_first_match :
  forall (o : JS.object JS.value) (keyPart : string),
    keyPart <> "" ->
    ProjectBuilder.fuzzyGetStr (Some o) keyPart =
      match firstMatch o keyPart with
      | Some (_, v) => JS.ToString v
      | None => ""
      end
    /\ ProjectBuilder.fuzzyGetStr None keyPart = "".
Proof.
  intros o keyPart Hkp. split; [| reflexivity].
  rewrite fuzzyGetStr_spec.
  destruct (firstMatch o keyPart) as [[k v] |] eqn:E; [| reflexivity].
  apply (firstMatch_key_nonempty o keyPart k v Hkp) in E.
  destruct k; [now elim E | reflexivity].
Qed.

(** X6 on a row whose first key containing remark holds no cell. *)
Lemma X6_fuzzyGetStr_first_match_witness :
  "remark" <> ""
  /\ ProjectBuilder.fuzzyGetStr
       (Some [ ("SiO2", JS.VString "53.5"); ("Remarks", JS.VUndefined);
               ("remark", JS.VString "Hawaii") ]) "remark"
     = "undefined".
Proof.
  split; [discriminate |].
  etransitivity.
  - apply (X6_fuzzyGetStr_first_match
             [ ("SiO2", JS.VString "53.5"); ("Remarks", JS.VUndefined);
               ("remark", JS.VString "Hawaii") ] "remark").
    discriminate.
  - reflexivity.
Defined.

Lemma lowerChar_idem (c : ascii) :
  JS.lowerChar (JS.lowerChar c) = JS.lowerChar c.
Proof. destruct c as [[] [] [] [] [] [] [] []]; reflexivity. Qed.

Lemma toLowerCase_idem (s : string) :
  JS.toLowerCase (JS.toLowerCase s) = JS.toLowerCase s.
Proof.
  induction s as [| c s IH]; simpl; [reflexivity |].
  now rewrite lowerChar_idem, IH.
Qed.

Lemma toLowerCase_eq_empty (s t : string) :
  JS.toLowerCase s = JS.toLowerCase t -> (s = "" <-> t = "").
Proof. destruct s, t; simpl; intros H; split; congruence. Qed.

Lemma find_map {A B} (g : A -> B) (p : B -> bool) (l : list A) :
  find p (map g l) = option_map g (find (fun x => p (g x)) l).
Proof.
  induction l as [| x l IH]; simpl; [reflexivity |].
  destruct (p (g x)); [reflexivity | exact IH].
Qed.

Lemma find_ext {A} (p q : A -> bool) (l : list A) :
  (forall x, p x = q x) -> find p l = find q l.
Proof.
  intros H. induction l as [| x l IH]; simpl; [reflexivity |].
  now rewrite H, IH.
Qed.

Lemma firstMatch_renameKeys (rename : string -> string)
    (o : JS.object JS.value) (keyPart keyPart' : string) :
  JS.toLowerCase keyPart' = JS.toLowerCase keyPart ->
  (forall k, JS.toLowerCase (rename k) = JS.toLowerCase k) ->
  firstMatch (renameKeys rename o) keyPart'
  = option_map (fun kv => (rename (fst kv), snd kv)) (firstMatch o keyPart).
Proof.
  intros Hp Hr. unfold firstMatch, renameKeys. rewrite find_map, Hp.
  f_equal. apply find_ext. intros [k v]. simpl. now rewrite Hr.
Qed.

(** X7.  Both resolvers ignore the case of letters, in the key part and in
    the keys of the row: replacing the key part by one with the same
    lower-cased form, and every key by one with the same lower-cased form,
    changes neither result. *)
Theorem X7_lookup_ignores_case :
  forall (rename : string -> string) (o : JS.object JS.value)
         (keyPart keyPart' : string),
    JS.toLowerCase keyPart' = JS.toLowerCase keyPart ->
    (forall k, JS.toLowerCase (rename k) = JS.toLowerCase k) ->
    ProjectBuilder.fuzzyGet (Some (renameKeys rename o)) keyPart'
      = ProjectBuilder.fuzzyGet (Some o) keyPart
    /\ ProjectBuilder.fuzzyGetStr (Some (renameKeys rename o)) keyPart'
       = ProjectBuilder.fuzzyGetStr (Some o) keyPart.
Proof.
  intros rename o keyPart keyPart' Hp Hr.
  rewrite !fuzzyGet_spec, !fuzzyGetStr_spec.
  rewrite (firstMatch_renameKeys rename o keyPart keyPart' Hp Hr).
  destruct (firstMatch o keyPart) as [[k v] |]; simpl; [| now split].
  pose proof (toLowerCase_eq_empty _ _ (Hr k)) as He.
  destruct k as [| c k], (rename _) as [| c' k'] eqn:E; try now split.
  - destruct He as [_ He]. discriminate (He eq_refl).
  - destruct He as [He _]. discriminate (He eq_refl).
Qed.

(** X7 on a row with its keys in lower case, asked for sio2. *)
Lemma X7_lookup_ignores_case_witness :
  ProjectBuilder.fuzzyGet
    (Some (renameKeys JS.toLowerCase
             [ ("Name", JS.VString "x"); ("SIO2_WT", JS.VString "53.5") ]))
    "sio2"
  = ProjectBuilder.fuzzyGet
      (Some [ ("Name", JS.VString "x"); ("SIO2_WT", JS.VString "53.5") ])
      "SiO2".
Proof.
  apply (X7_lookup_ignores_case JS.toLowerCase
           [ ("Name", JS.VString "x"); ("SIO2_WT", JS.VString "53.5") ]
           "SiO2" "sio2").
  - reflexivity.
  - apply toLowerCase_idem.
Defined.

(* ================================================================== *)
(** * What the normaliser needs and what it builds *)
(* ================================================================== *)

Lemma startsWith_app (p q s : string) :
  JS.startsWith (p ++ q) s = true -> JS.startsWith p s = true.
Proof.
  revert s. induction p as [| a p IH]; intros s; simpl; [reflexivity |].
  destruct s as [| b s]; [discriminate |].
  rewrite !andb_true_iff. intros [H1 H2]. split; [exact H1 | now apply IH].
Qed.

(** A string that contains a string contains its prefixes. *)
Lemma includes_app (s p q : string) :
  JS.includes s (p ++ q) = true -> JS.includes s p = true.
Proof.
  induction s as [| c s IH]; simpl.
  - rewrite !orb_false_r. apply startsWith_app.
  - rewrite !orb_true_iff. intros [H | H]; [left | right; auto].
    now apply (startsWith_app p q).
Qed.

Lemma findKey_none (o : JS.object JS.value) (keyPart : string) :
  (forall k, In k (JS.keys o) ->
             JS.includes (JS.toLowerCase k) (JS.toLowerCase keyPart) = false) ->
  ProjectBuilder.findKey o keyPart = None.
Proof.
  intros H. unfold ProjectBuilder.findKey.
  destruct (find _ (JS.keys o)) as [k |] eqn:E; [| reflexivity].
  apply find_some in E. destruct E as [Hk E]. rewrite (H k Hk) in E.
  discriminate.
Qed.

Lemma lacksTemperature_rejected (r : ProjectBuilder.row) (idx : nat) :
  lacksTemperature r ->
  ProjectBuilder.accepted (ProjectBuilder.parseRow r idx) = false.
Proof.
  intros H. unfold ProjectBuilder.accepted.
  assert (E : temperature (ProjectBuilder.parseRow r idx) = JS.zero);
    [| now rewrite E].
  simpl. unfold ProjectBuilder.fuzzyGet.
  destruct r as [o |]; [| reflexivity].
  assert (Ht : ProjectBuilder.findKey o "temp" = None)
    by (apply findKey_none; exact H).
  assert (Hl : ProjectBuilder.findKey o "temperature" = None).
  { apply findKey_none. intros k Hk.
    destruct (JS.includes _ _) eqn:E; [| reflexivity].
    change (JS.toLowerCase "temperature")
      with ("temp" ++ "erature")%string in E.
    apply includes_app in E. now rewrite (H k Hk) in E. }
  now rewrite Ht, Hl.
Qed.

(** X8.  A table in which no row has a key containing temp, in any case,
    yields no valid sample: every row is rejected, nothing is handed over,
    and the import alerts that no valid data was found. *)
Theorem X8_no_temperature_column_no_import :
  forall rawData : list ProjectBuilder.row,
    Forall lacksTemperature rawData ->
    ProjectBuilder.validData rawData = []
    /\ ProjectBuilder.processImportedData rawData = [Alert NoValidData].
Proof.
  intros rawData H.
  assert (E : ProjectBuilder.validData rawData = []).
  { unfold ProjectBuilder.validData, ProjectBuilder.parsedData, JS.mapi.
    generalize 0. induction H as [| r rows Hr _ IH]; intros idx; simpl;
      [reflexivity |].
    now rewrite (lacksTemperature_rejected r idx Hr). }
  split; [exact E |].
  unfold ProjectBuilder.processImportedData. now rewrite E.
Qed.

(** X8 on a row without a recognisable key and a falsy row. *)
Lemma X8_no_temperature_column_no_import_witness :
  Forall lacksTemperature [rowFoo; None]
  /\ ProjectBuilder.processImportedData [rowFoo; None] = [Alert NoValidData].
Proof.
  assert (H : Forall lacksTemperature [rowFoo; None]).
  { repeat constructor. intros k [<- | []]. reflexivity. }
  split; [exact H |].
  apply (X8_no_temperature_column_no_import [rowFoo; None] H).
Defined.

(** X9.  No numeric field of a sample the normaliser builds is NaN,
    whatever the rows hold; so neither is one of a sample it hands over. *)
Theorem X9_no_field_is_NaN :
  forall rawData : list ProjectBuilder.row,
    Forall (fun d => Forall (fun f => JS.isNaN (f d) = false) numericFields)
           (ProjectBuilder.parsedData rawData)
    /\ Forall (fun d => Forall (fun f => JS.isNaN (f d) = false) numericFields)
              (ProjectBuilder.validData rawData).
Proof.
  intros rawData.
  assert (H : Forall (fun d => Forall (fun f => JS.isNaN (f d) = false)
                                      numericFields)
                     (ProjectBuilder.parsedData rawData)).
  { unfold ProjectBuilder.parsedData, JS.mapi. generalize 0.
    induction rawData as [| r rows IH]; intros idx; simpl; constructor;
      [| apply IH].
    repeat constructor; simpl;
      repeat apply or_not_NaN; apply fuzzyGet_not_NaN. }
  split; [exact H | apply Forall_filter, H].
Qed.

(** X10.  The remark of a normalised sample is the first non-empty text
    among the fields found for remark, source and name, in that order, and
    the empty string when all three are empty.  The dropdown labels the
    sample with its identifier followed by that text, and with the word
    Sample followed by its identifier when the text is empty. *)
Theorem X10_label_priority :
  forall (r : ProjectBuilder.row) (idx : nat),
    let d := ProjectBuilder.parseRow r idx in
    let get := ProjectBuilder.fuzzyGetStr r in
    let text :=
      if negb (isEmpty (get "remark")) then get "remark"
      else if negb (isEmpty (get "source")) then get "source"
      else get "name" in
    Remark d = Some text
    /\ DataView.labelOf d
       = if isEmpty text
         then ("Sample " ++ JS.decimal (N.of_nat (idx + 1)))%string
         else (JS.decimal (N.of_nat (idx + 1)) ++ " - " ++ text)%string.
Proof.
  intros r idx d get text. subst d get text.
  unfold DataView.labelOf. simpl.
  destruct (ProjectBuilder.fuzzyGetStr r "remark") as [| c1 s1];
    [| split; reflexivity].
  destruct (ProjectBuilder.fuzzyGetStr r "source") as [| c2 s2];
    [| split; reflexivity].
  destruct (ProjectBuilder.fuzzyGetStr r "name") as [| c3 s3];
    split; reflexivity.
Qed.

(* ================================================================== *)
(** * The row object of a text line *)
(* ================================================================== *)

Section SetGet.
Context {V : Type}.
Implicit Types (o : JS.object V) (k : string) (v : V).

Lemma get_update o k k' v :
  JS.get (JS.update o k v) k'
  = if String.eqb k k' then
      match JS.get o k with Some _ => Some v | None => None end
    else JS.get o k'.
Proof.
  induction o as [| [k0 v0] o IH]; simpl.
  - now destruct (String.eqb k k').
  - destruct (String.eqb k0 k) eqn:E0; simpl.
    + apply String.eqb_eq in E0. subst k0.
      destruct (String.eqb k k'); reflexivity.
    + rewrite IH. destruct (String.eqb k k') eqn:E.
      * apply String.eqb_eq in E. subst k'. now rewrite E0.
      * reflexivity.
Qed.

Lemma get_insertIndex o i k k' v :
  JS.get o k = None ->
  JS.get (JS.insertIndex o i k v) k'
  = if String.eqb k k' then Some v else JS.get o k'.
Proof.
  induction o as [| [k0 v0] o IH]; simpl; [reflexivity |].
  destruct (String.eqb k0 k) eqn:E0; [discriminate |]. intros Hk.
  destruct (JS.arrayIndex k0) as [j |]; [destruct (j <? i)%Z |]; simpl;
    try reflexivity.
  rewrite (IH Hk). destruct (String.eqb k k') eqn:E; [| reflexivity].
  apply String.eqb_eq in E. subst k'. now rewrite E0.
Qed.

Lemma get_app o o' k :
  JS.get (o ++ o') k
  = match JS.get o k with Some w => Some w | None => JS.get o' k end.
Proof.
  induction o as [| [k0 v0] o IH]; simpl; [reflexivity |].
  destruct (String.eqb k0 k); [reflexivity | exact IH].
Qed.

(** Reading after writing: the key written holds the value written, every
    other key what it held. *)
Lemma get_set o k k' v :
  JS.get (JS.set o k v) k' = if String.eqb k k' then Some v else JS.get o k'.
Proof.
  unfold JS.set, JS.has.
  destruct (JS.get o k) as [w |] eqn:E.
  - rewrite get_update, E. reflexivity.
  - destruct (JS.arrayIndex k) as [i |].
    + now rewrite get_insertIndex.
    + rewrite get_app. simpl.
      destruct (String.eqb k k') eqn:E'.
      * apply String.eqb_eq in E'. subst k'. now rewrite E.
      * now destruct (JS.get o k').
Qed.

Lemma get_In_keys o k : JS.get o k <> None <-> In k (JS.keys o).
Proof.
  induction o as [| [k0 v0] o IH]; simpl; [tauto |].
  destruct (String.eqb k0 k) eqn:E.
  - apply String.eqb_eq in E. split; [now left | discriminate].
  - apply String.eqb_neq in E. rewrite IH. tauto.
Qed.

Lemma keys_update o k v : JS.keys (JS.update o k v) = JS.keys o.
Proof.
  induction o as [| [k0 v0] o IH]; simpl; [reflexivity |].
  destruct (String.eqb k0 k); simpl; [reflexivity | now rewrite IH].
Qed.

Lemma keys_insertIndex o i k v :
  Permutation (k :: JS.keys o) (JS.keys (JS.insertIndex o i k v)).
Proof.
  induction o as [| [k0 v0] o IH]; simpl; [reflexivity |].
  destruct (JS.arrayIndex k0) as [j |]; [destruct (j <? i)%Z |]; simpl;
    try reflexivity.
  etransitivity; [apply perm_swap |]. now constructor.
Qed.

(** Writing keeps the keys distinct. *)
Lemma keys_set_NoDup o k v :
  NoDup (JS.keys o) -> NoDup (JS.keys (JS.set o k v)).
Proof.
  intros H. unfold JS.set, JS.has.
  destruct (JS.get o k) as [w |] eqn:E.
  - now rewrite keys_update.
  - assert (Hk : ~ In k (JS.keys o)).
    { intros Hin. apply get_In_keys in Hin. congruence. }
    destruct (JS.arrayIndex k) as [i |].
    + eapply Permutation_NoDup; [apply keys_insertIndex |].
      now constructor.
    + unfold JS.keys. rewrite map_app. simpl.
      eapply Permutation_NoDup; [apply Permutation_cons_append |].
      now constructor.
Qed.
End SetGet.

Section LineObject.
Variable values : list string.

Lemma forEach_assign_get (hs : list string) (idx : nat)
    (acc : JS.object JS.value) (h : string) :
  JS.get (JS.forEachFrom (assignCell values) idx hs acc) h
  = match (if String.eqb h "__proto__" then None
           else lastIndexFrom h idx hs) with
    | Some i => Some (cellAt values i)
    | None => JS.get acc h
    end.
Proof.
  revert idx acc. induction hs as [| x hs IH]; intros idx acc; simpl.
  - now destruct (String.eqb h "__proto__").
  - rewrite IH. destruct (String.eqb h "__proto__") eqn:Ep;
      unfold assignCell.
    + destruct (String.eqb x "__proto__") eqn:Ex; [reflexivity |].
      rewrite get_set. destruct (String.eqb x h) eqn:E; [| reflexivity].
      apply String.eqb_eq in E. congruence.
    + destruct (lastIndexFrom h (S idx) hs); [reflexivity |].
      destruct (String.eqb x h) eqn:E.
      * apply String.eqb_eq in E. subst x. rewrite Ep, get_set.
        now rewrite String.eqb_refl.
      * destruct (String.eqb x "__proto__"); [reflexivity |].
        now rewrite get_set, E.
Qed.

Lemma forEach_assign_NoDup (hs : list string) (idx : nat)
    (acc : JS.object JS.value) :
  NoDup (JS.keys acc) ->
  NoDup (JS.keys (JS.forEachFrom (assignCell values) idx hs acc)).
Proof.
  revert idx acc. induction hs as [| x hs IH]; intros idx acc H; simpl;
    [exact H |].
  apply IH. unfold assignCell.
  destruct (String.eqb x "__proto__"); [exact H |].
  now apply keys_set_NoDup.
Qed.

Lemma forEach_assign_plain (hs : list string) (idx : nat)
    (acc : JS.object JS.value) :
  NoDup hs ->
  (forall h, In h hs ->
             h <> "__proto__" /\ JS.arrayIndex h = None
             /\ ~ In h (JS.keys acc)) ->
  JS.forEachFrom (assignCell values) idx hs acc
  = acc ++ JS.mapFrom (fun h i => (h, cellAt values i)) idx hs.
Proof.
  intros Hnd. revert idx acc.
  induction Hnd as [| x hs Hx Hnd IH]; intros idx acc H; simpl.
  - now rewrite app_nil_r.
  - destruct (H x (or_introl eq_refl)) as [Hp [Ha Hk]].
    unfold assignCell at 2. apply String.eqb_neq in Hp. rewrite Hp.
    unfold JS.set, JS.has.
    destruct (JS.get acc x) eqn:E.
    + exfalso. apply Hk, get_In_keys. congruence.
    + rewrite Ha, IH.
      * now rewrite <- app_assoc.
      * intros h Hh. destruct (H h (or_intror Hh)) as [Hp' [Ha' Hk']].
        repeat split; try assumption.
        unfold JS.keys. rewrite map_app, in_app_iff. simpl.
        intros [Hin | [<- | []]]; [now apply Hk' | contradiction].
Qed.
End LineObject.

(** The row object of a line under distinct headers that are neither
    array indices nor [__proto__]: one property per column, in the order of
    the columns. *)
Lemma lineObject_columns (headers : list string) (rowStr : string) :
  NoDup headers ->
  Forall (fun h => h <> "__proto__" /\ JS.arrayIndex h = None) headers ->
  ProjectBuilder.lineObject headers rowStr
  = JS.mapi (fun h i => (h, cellAt (JS.split "," rowStr) i)) headers.
Proof.
  intros Hnd Hp. unfold ProjectBuilder.lineObject, JS.mapi.
  rewrite <- (app_nil_l (JS.mapFrom _ 0 headers)).
  apply (forEach_assign_plain (JS.split "," rowStr)); [exact Hnd |].
  intros h Hh. rewrite Forall_forall in Hp. destruct (Hp h Hh) as [H1 H2].
  repeat split; auto.
Qed.

(** X12.  The object built for a data line has each key once.  Under a
    header other than [__proto__] it holds the cell of the last column
    with that header, which is undefined when the line has fewer cells,
    and nothing under a name that is no header; a header [__proto__]
    leaves no property. *)
Theorem X12_lineObject_last_column_wins :
  forall (headers : list string) (rowStr : string),
    let obj := ProjectBuilder.lineObject headers rowStr in
    let values := JS.split "," rowStr in
    NoDup (JS.keys obj)
    /\ JS.get obj "__proto__" = None
    /\ (forall h,
           h <> "__proto__" ->
           JS.get obj h = match lastIndexFrom h 0 headers with
                          | Some i => Some (cellAt values i)
                          | None => None
                          end).
Proof.
  intros headers rowStr obj values. subst obj.
  unfold ProjectBuilder.lineObject. fold values. split; [| split].
  - apply (forEach_assign_NoDup values). constructor.
  - now rewrite (forEach_assign_get values).
  - intros h Hh. rewrite (forEach_assign_get values).
    apply String.eqb_neq in Hh. rewrite Hh.
    now destruct (lastIndexFrom h 0 headers).
Qed.

(** X13.  Under pairwise distinct headers, none an array index and none
    [__proto__], the object built for a data line lists the headers in
    column order, each with the cell of its column, undefined past the end
    of the line. *)
Theorem X13_lineObject_column_order :
  forall (headers : list string) (rowStr : string),
    NoDup headers ->
    Forall (fun h => h <> "__proto__" /\ JS.arrayIndex h = None) headers ->
    ProjectBuilder.lineObject headers rowStr
    = JS.mapi (fun h i => (h, cellAt (JS.split "," rowStr) i)) headers.
Proof. exact lineObject_columns. Qed.

(** X13 on a line that is one cell short. *)
Lemma X13_lineObject_column_order_witness :
  NoDup ["SiO2"; "temp"; "viscosity"]
  /\ Forall (fun h => h <> "__proto__" /\ JS.arrayIndex h = None)
            ["SiO2"; "temp"; "viscosity"]
  /\ ProjectBuilder.lineObject ["SiO2"; "temp"; "viscosity"] "53.5,1488"
     = [ ("SiO2", JS.VString "53.5"); ("temp", JS.VString "1488");
         ("viscosity", JS.VUndefined) ].
Proof.
  assert (Hn : NoDup ["SiO2"; "temp"; "viscosity"]).
  { repeat constructor; simpl; intuition discriminate. }
  assert (Hp : Forall (fun h => h <> "__proto__" /\ JS.arrayIndex h = None)
                      ["SiO2"; "temp"; "viscosity"]).
  { repeat constructor; discriminate. }
  split; [exact Hn | split; [exact Hp |]].
  etransitivity.
  - apply (X13_lineObject_column_order
             ["SiO2"; "temp"; "viscosity"] "53.5,1488" Hn Hp).
  - reflexivity.
Defined.

Lemma firstMatch_columns (values headers : list string) (keyPart : string)
    (idx i : nat) (h : string) :
  nth_error headers i = Some h ->
  JS.includes (JS.toLowerCase h) (JS.toLowerCase keyPart) = true ->
  (forall j h', j < i -> nth_error headers j = Some h' ->
                JS.includes (JS.toLowerCase h') (JS.toLowerCase keyPart)
                = false) ->
  firstMatch (JS.mapFrom (fun h i => (h, cellAt values i)) idx headers) keyPart
  = Some (h, cellAt values (idx + i)).
Proof.
  revert idx i. induction headers as [| x hs IH]; intros idx i Hi Hm Hb.
  - destruct i; discriminate.
  - destruct i as [| i]; simpl in Hi.
    + injection Hi as ->. unfold firstMatch. simpl. rewrite Hm.
      now rewrite Nat.add_0_r.
    + unfold firstMatch. simpl. rewrite (Hb 0 x); [| lia | reflexivity].
      fold (firstMatch (JS.mapFrom (fun h i => (h, cellAt values i))
                                   (S idx) hs) keyPart).
      rewrite (IH (S idx) i Hi Hm).
      * now rewrite Nat.add_succ_r.
      * intros j h' Hj Hn. apply (Hb (S j) h'); [lia | exact Hn].
Qed.

(** X14.  For a data line under pairwise distinct headers, none an array
    index and none [__proto__], both resolvers read the cell of the
    leftmost column whose lower-cased header contains the lower-cased key
    part: fuzzyGet its number (0 when it reads as NaN, as a missing cell
    does), fuzzyGetStr its text (["undefined"] for a missing cell). *)
Theorem X14_field_is_leftmost_matching_column :
  forall (headers : list string) (rowStr keyPart : string) (i : nat)
         (h : string),
    NoDup headers ->
    Forall (fun h => h <> "__proto__" /\ JS.arrayIndex h = None) headers ->
    nth_error headers i = Some h ->
    JS.includes (JS.toLowerCase h) (JS.toLowerCase keyPart) = true ->
    (forall j h', j < i -> nth_error headers j = Some h' ->
                  JS.includes (JS.toLowerCase h') (JS.toLowerCase keyPart)
                  = false) ->
    keyPart <> "" ->
    let r := Some (ProjectBuilder.lineObject headers rowStr) in
    let v := cellAt (JS.split "," rowStr) i in
    ProjectBuilder.fuzzyGet r keyPart
    = (if JS.isNaN (JS.parseFloat v) then JS.zero else JS.parseFloat v)
    /\ ProjectBuilder.fuzzyGetStr r keyPart = JS.ToString v.
Proof.
  intros headers rowStr keyPart i h Hnd Hp Hi Hm Hb Hk r v. subst r v.
  rewrite fuzzyGet_spec, fuzzyGetStr_spec.
  rewrite (lineObject_columns headers rowStr Hnd Hp).
  unfold JS.mapi.
  rewrite (firstMatch_columns _ headers keyPart 0 i h Hi Hm Hb).
  assert (Hh : h <> "").
  { apply includes_nonempty in Hm; [| now apply toLowerCase_nonempty].
    intros ->. now apply Hm. }
  destruct h; [congruence |]. split; reflexivity.
Qed.

(** X14 on a line whose second and third headers both contain sio2, and
    which stops before the remark column. *)
Lemma X14_field_is_leftmost_matching_column_witness :
  let headers := ["Name"; "SiO2 wt"; "sio2"; "temp"; "remark"] in
  let r := Some (ProjectBuilder.lineObject headers "x,53.5,1,1488") in
  ProjectBuilder.fuzzyGet r "SiO2" = lit "53.5"
  /\ ProjectBuilder.fuzzyGetStr r "remark" = "undefined".
Proof.
  intros headers r.
  assert (Hn : NoDup headers).
  { repeat constructor; simpl; intuition discriminate. }
  assert (Hp : Forall (fun h => h <> "__proto__" /\ JS.arrayIndex h = None)
                      headers).
  { repeat constructor; discriminate. }
  split.
  - etransitivity.
    + apply (X14_field_is_leftmost_matching_column
               headers "x,53.5,1,1488" "SiO2" 1 "SiO2 wt" Hn Hp);
        [reflexivity | reflexivity | | discriminate].
      intros j h' Hj Hh. destruct j; [| lia].
      injection Hh as <-. reflexivity.
    + vm_compute. reflexivity.
  - etransitivity.
    + apply (X14_field_is_leftmost_matching_column
               headers "x,53.5,1,1488" "remark" 4 "remark" Hn Hp);
        [reflexivity | reflexivity | | discriminate].
      intros j h' Hj Hh.
      do 4 (destruct j as [| j]; [injection Hh as <-; reflexivity |]). lia.
    + reflexivity.
Defined.

(* ================================================================== *)
(** * An upload and the state of the application *)
(* ================================================================== *)

Lemma onTextLoad_cases (text : string) :
  ProjectBuilder.onTextLoad text = []
  \/ exists rawData,
       ProjectBuilder.onTextLoad text
       = ProjectBuilder.processImportedData rawData.
Proof.
  unfold ProjectBuilder.onTextLoad.
  destruct text as [| c t]; [now left |].
  destruct (_ <? 2); [now left |].
  destruct (filter _ _) as [| r0 rest]; [now left |].
  right. eexists. reflexivity.
Qed.

(** What running the effects of the normaliser does to the state. *)
Lemma run_processImportedData (rawData : list ProjectBuilder.row)
    (st : App.state) :
  let st' := App.run (ProjectBuilder.processImportedData rawData) st in
  st' = st
  \/ (App.viscosityData st' <> []
      /\ (exists rawData',
             App.viscosityData st' = ProjectBuilder.validData rawData')
      /\ App.isConnected st' = true
      /\ App.connectedDbInfo st'
         = Some ("Imported File",
                 "Found "
                 ++ JS.decimal (N.of_nat (List.length (App.viscosityData st')))
                 ++ " rows")%string
      /\ DataView.emptyState (App.isConnected st') (App.viscosityData st')
         = false).
Proof.
  destruct (processImportedData_cases rawData) as [[_ E] | [Hne E]];
    rewrite E; [now left | right].
  simpl. split; [exact Hne |]. split; [now exists rawData |].
  split; [reflexivity |]. split; [reflexivity |].
  destruct (ProjectBuilder.validData rawData); [now elim Hne | reflexivity].
Qed.

(** X11.  Whatever file is chosen and whatever the spreadsheet decoder
    does, an upload either leaves the state of the application as it was
    (nothing chosen, a short text, a decoding failure, no valid row) or
    replaces the data by a non-empty list of accepted samples, marks the
    application connected, labels the source as an imported file with the
    number of samples shown, and takes the view out of its empty state.
    It never empties the data. *)
Theorem X11_upload_keeps_or_replaces :
  forall (sheet_to_json : string -> option (list ProjectBuilder.row))
         (file : option ProjectBuilder.File) (st : App.state),
    let st' :=
      App.run (ProjectBuilder.handleFileUpload sheet_to_json file) st in
    st' = st
    \/ (App.viscosityData st' <> []
        /\ (exists rawData,
               App.viscosityData st' = ProjectBuilder.validData rawData)
        /\ App.isConnected st' = true
        /\ App.connectedDbInfo st'
           = Some ("Imported File",
                   "Found "
                   ++ JS.decimal (N.of_nat (List.length (App.viscosityData st')))
                   ++ " rows")%string
        /\ DataView.emptyState (App.isConnected st') (App.viscosityData st')
           = false).
Proof.
  intros sheet_to_json file st st'. subst st'.
  unfold ProjectBuilder.handleFileUpload.
  destruct file as [f |]; [| now left].
  destruct (ProjectBuilder.isExcel f).
  - destruct (sheet_to_json _) as [jsonData |];
      [apply run_processImportedData | now left].
  - destruct (onTextLoad_cases (ProjectBuilder.result f)) as [E | [rawData E]];
      rewrite E; [now left | apply run_processImportedData].
Qed.

(* ================================================================== *)
(** * The files of a generated answer *)
(* ================================================================== *)

Section Generated.
Import ProjectBuilder.

Lemma splitFrom_nonempty (skip : nat) (s : string) : splitFrom skip s <> [].
Proof.
  revert skip. induction s as [| c r IH]; intros skip; simpl; [discriminate |].
  destruct skip as [| n]; [| apply IH].
  destruct (matchDelimiter _); [discriminate |].
  destruct (splitFrom 0 r); discriminate.
Qed.

(** The pieces after the first come in pairs, a capture and a chunk, so
    the loop never reads past the end. *)
Lemma filesFrom_split (skip : nat) (s : string) :
  filesFrom (tl (splitFrom skip s)) <> None.
Proof.
  revert skip. induction s as [| c r IH]; intros skip; simpl; [discriminate |].
  destruct skip as [| n]; [| apply IH].
  destruct (matchDelimiter _) as [capture |].
  - cbn [tl]. specialize (IH (13 + String.length capture)).
    pose proof (splitFrom_nonempty (13 + String.length capture) r) as Hne.
    destruct (splitFrom _ r) as [| p ps]; [congruence |].
    cbn [tl] in IH. cbn [filesFrom].
    destruct (filesFrom ps); [discriminate | congruence].
  - specialize (IH 0).
    destruct (splitFrom 0 r) as [| p ps]; [discriminate | exact IH].
Qed.

Lemma parseGeneratedOutput_total (text : string) :
  exists file files,
    forall st,
      parseGeneratedOutput text st
      = Some {| loading := loading st; activeTab := activeTab st;
                generatedFiles := file :: files; selectedFileIndex := 0 |}.
Proof.
  unfold parseGeneratedOutput, splitFiles.
  pose proof (filesFrom_split 0 text) as H.
  destruct (filesFrom (tl (splitFrom 0 text))) as [[| f files] |];
    [| | congruence]; eexists; eexists; intros st; reflexivity.
Qed.

(** X15.  [parseGeneratedOutput] never throws, whatever the text: it
    leaves a list of files that is not empty and selects its first entry,
    so the file the code tab reads exists; the other fields of the tab are
    left alone. *)
Theorem X15_parseGeneratedOutput_selects_a_file :
  forall (text : string) (st : codeView),
    exists st' file,
      parseGeneratedOutput text st = Some st'
      /\ generatedFiles st' <> []
      /\ selectedFileIndex st' = 0
      /\ selectedFile st' = Some file
      /\ loading st' = loading st /\ activeTab st' = activeTab st.
Proof.
  intros text st.
  destruct (parseGeneratedOutput_total text) as [file [files E]].
  eexists. exists file. split; [apply E |]. simpl.
  split; [discriminate |]. repeat split.
Qed.

Lemma splitFrom_undelimited (s : string) :
  delimited s = false -> splitFrom 0 s = [s].
Proof.
  induction s as [| c r IH]; [reflexivity |].
  cbn [delimited splitFrom].
  destruct (matchDelimiter (String c r)); [discriminate |].
  intros H. now rewrite (IH H).
Qed.

(** X16.  A text in which the delimiter matches nowhere becomes a single
    file named generated_script.py whose content is the whole text,
    untrimmed. *)
Theorem X16_undelimited_answer_is_one_script :
  forall (text : string) (st : codeView),
    delimited text = false ->
    parseGeneratedOutput text st
    = Some {| loading := loading st; activeTab := activeTab st;
              generatedFiles :=
                [ {| GeneratedFile.name := "generated_script.py";
                     GeneratedFile.content := text |} ];
              selectedFileIndex := 0 |}.
Proof.
  intros text st H. unfold parseGeneratedOutput, splitFiles.
  now rewrite (splitFrom_undelimited text H).
Qed.

(** X16 on a text with an unfinished delimiter. *)
Lemma X16_undelimited_answer_is_one_script_witness :
  let text := " --- FILE: a.py" in
  let st := {| loading := true; activeTab := Code; generatedFiles := [];
               selectedFileIndex := 3 |} in
  delimited text = false
  /\ option_map generatedFiles (parseGeneratedOutput text st)
     = Some [ {| GeneratedFile.name := "generated_script.py";
                 GeneratedFile.content := " --- FILE: a.py" |} ].
Proof.
  intros text st. split; [reflexivity |].
  rewrite (X16_undelimited_answer_is_one_script text st); reflexivity.
Defined.

Lemma startsWith_before (c : ascii) (p t rest : string) :
  lacks c p = true ->
  JS.startsWith p (t ++ String c rest) = JS.startsWith p t.
Proof.
  revert t. induction p as [| a p IH]; intros t H; [reflexivity |].
  simpl in H. apply andb_true_iff in H. destruct H as [Ha Hp].
  destruct t as [| b t]; simpl.
  - apply negb_true_iff in Ha. now rewrite Ha.
  - now rewrite IH.
Qed.

Lemma matchDelimiter_startsWith (s : string) :
  JS.startsWith "--- FILE: " s = false -> matchDelimiter s = None.
Proof. unfold matchDelimiter. now intros ->. Qed.

(** A piece of text that holds no delimiter prefix and ends its line
    stays in the chunk it is in. *)
Lemma splitFrom_chunk (body rest : string) :
  JS.includes body "--- FILE: " = false ->
  splitFrom 0 (body ++ String newline rest)
  = match splitFrom 0 rest with
    | p :: ps => (body ++ String newline p)%string :: ps
    | [] => []
    end.
Proof.
  induction body as [| c b IH]; intros H.
  - cbn [append splitFrom]. rewrite matchDelimiter_startsWith by reflexivity.
    pose proof (splitFrom_nonempty 0 rest).
    destruct (splitFrom 0 rest); [congruence | reflexivity].
  - cbn [JS.includes] in H. apply orb_false_iff in H. destruct H as [H1 H2].
    cbn [append splitFrom].
    rewrite matchDelimiter_startsWith.
    + rewrite (IH H2). pose proof (splitFrom_nonempty 0 rest).
      destruct (splitFrom 0 rest); [congruence | reflexivity].
    + change (String c (b ++ String newline rest))
        with (String c b ++ String newline rest)%string.
      rewrite startsWith_before; [exact H1 | reflexivity].
Qed.

Lemma noWhiteSpace_head (c : ascii) :
  JS.isWhiteSpace c = false ->
  Ascii.eqb " " c = false /\ isLineTerminator c = false.
Proof.
  intros H. split.
  - destruct (Ascii.eqb " " c) eqn:E; [| reflexivity].
    apply Ascii.eqb_eq in E. subst c. discriminate.
  - unfold isLineTerminator. unfold JS.isWhiteSpace in H.
    destruct (JS.code c =? 10) eqn:E1;
      [apply Nat.eqb_eq in E1; rewrite E1 in H; discriminate |].
    destruct (JS.code c =? 13) eqn:E2;
      [apply Nat.eqb_eq in E2; rewrite E2 in H; discriminate |].
    reflexivity.
Qed.

(** The lazy capture stops at the end of a name without white space. *)
Lemma lazyCapture_name (n rest : string) :
  noWhiteSpace n = true ->
  lazyCapture (n ++ " ---" ++ rest) = Some n.
Proof.
  induction n as [| c n IH]; intros H; [reflexivity |].
  simpl in H. apply andb_true_iff in H. destruct H as [Hc Hn].
  apply negb_true_iff in Hc.
  destruct (noWhiteSpace_head c Hc) as [H1 H2].
  change (String c n ++ " ---" ++ rest)%string
    with (String c (n ++ " ---" ++ rest)).
  cbn [lazyCapture JS.startsWith]. rewrite H1, H2. cbn [andb].
  now rewrite (IH Hn).
Qed.

Lemma splitFrom_skip (k : nat) (n s : string) :
  splitFrom (k + String.length n) (n ++ s) = splitFrom k s.
Proof.
  induction n as [| c n IH]; simpl.
  - now rewrite Nat.add_0_r.
  - now rewrite Nat.add_succ_r.
Qed.

(** A delimiter line ends the chunk before it and yields its name. *)
Lemma splitFrom_line (n rest : string) :
  noWhiteSpace n = true ->
  splitFrom 0 ("--- FILE: " ++ n ++ " ---" ++ rest)
  = "" :: n :: splitFrom 0 rest.
Proof.
  intros H. set (X := (n ++ " ---" ++ rest)%string).
  cbn [append splitFrom].
  unfold matchDelimiter. cbn [JS.startsWith Ascii.eqb Bool.eqb andb drop].
  subst X. rewrite (lazyCapture_name n rest H).
  do 2 f_equal.
  change (13 + String.length n)
    with (S (S (S (S (S (S (S (S (S (4 + String.length n)))))))))).
  cbn [splitFrom]. rewrite splitFrom_skip. reflexivity.
Qed.

Lemma trimStart_snoc (s : string) (w : ascii) :
  JS.isWhiteSpace w = true ->
  JS.trimStart (s ++ String w "")
  = match JS.trimStart s with
    | EmptyString => EmptyString
    | t => (t ++ String w "")%string
    end.
Proof.
  intros Hw. induction s as [| c s IH]; simpl.
  - now rewrite Hw.
  - destruct (JS.isWhiteSpace c); [exact IH | reflexivity].
Qed.

Lemma trimEnd_snoc (t : string) (w : ascii) :
  JS.isWhiteSpace w = true -> JS.trimEnd (t ++ String w "") = JS.trimEnd t.
Proof.
  intros Hw. induction t as [| c t IH]; simpl.
  - now rewrite Hw.
  - now rewrite IH.
Qed.

Lemma trim_snoc (s : string) (w : ascii) :
  JS.isWhiteSpace w = true -> JS.trim (s ++ String w "") = JS.trim s.
Proof.
  intros Hw. unfold JS.trim. rewrite (trimStart_snoc s w Hw).
  destruct (JS.trimStart s) as [| c t]; [reflexivity |].
  apply (trimEnd_snoc (String c t) w Hw).
Qed.

Lemma trim_noWhiteSpace (s : string) : noWhiteSpace s = true -> JS.trim s = s.
Proof.
  intros H. unfold JS.trim.
  assert (E : JS.trimStart s = s).
  { destruct s as [| c s]; [reflexivity |].
    simpl in *. apply andb_true_iff in H. destruct H as [Hc _].
    apply negb_true_iff in Hc. now rewrite Hc. }
  rewrite E. clear E. induction s as [| c s IH]; [reflexivity |].
  simpl in *. apply andb_true_iff in H. destruct H as [Hc Hs].
  apply negb_true_iff in Hc. rewrite (IH Hs), Hc. now destruct s.
Qed.

Lemma splitFrom_render (files : list GeneratedFile.t) :
  Forall plain files ->
  exists parts,
    splitFrom 0 (render files) = "" :: parts
    /\ filesFrom parts = Some (map trimmed files).
Proof.
  induction 1 as [| f files [Hn Hc] _ [parts [E F]]].
  - exists []. split; reflexivity.
  - exists (GeneratedFile.name f
            :: (String newline (GeneratedFile.content f)
                ++ String newline "")%string
            :: parts).
    split.
    + cbn [render]. rewrite (splitFrom_line _ _ Hn).
      do 2 f_equal. unfold lineBreak.
      change (String newline "" ++ GeneratedFile.content f
              ++ String newline "" ++ render files)%string
        with (String newline (GeneratedFile.content f)
              ++ String newline (render files))%string.
      rewrite splitFrom_chunk, E; [reflexivity |].
      cbn [JS.includes]. rewrite Hc. reflexivity.
    + cbn [filesFrom]. rewrite F. cbn [map]. do 2 f_equal.
      unfold trimmed. f_equal.
      * now apply trim_noWhiteSpace.
      * change (String newline (GeneratedFile.content f)
                ++ String newline "")%string
          with (String newline (GeneratedFile.content f ++ String newline "")).
        unfold JS.trim at 1. cbn [JS.trimStart].
        change (JS.isWhiteSpace newline) with true. cbv iota.
        apply (trim_snoc _ newline). reflexivity.
Qed.

(** X17.  An answer in the format the prompt asks for is read back as
    its files: for one or more files whose names hold no white space and
    whose contents hold no delimiter prefix, each announced by a delimiter
    line and followed by its content, the parser returns the same names
    in the same order with the contents trimmed, and selects the first.
    Lines of introduction before the first delimiter are dropped. *)
Theorem X17_delimited_answer_round_trip :
  forall (files : list GeneratedFile.t) (intro : string) (st : codeView),
    files <> [] ->
    Forall plain files ->
    JS.includes intro "--- FILE: " = false ->
    let parsed :=
      Some {| loading := loading st; activeTab := activeTab st;
              generatedFiles := map trimmed files;
              selectedFileIndex := 0 |} in
    parseGeneratedOutput (render files) st = parsed
    /\ parseGeneratedOutput (intro ++ lineBreak ++ render files) st = parsed.
Proof.
  intros files intro st Hne Hp Hi parsed. subst parsed.
  destruct (splitFrom_render files Hp) as [parts [E F]].
  assert (Hm : map trimmed files <> [])
    by (destruct files; [congruence | discriminate]).
  unfold parseGeneratedOutput, splitFiles. split.
  - rewrite E. cbn [tl]. rewrite F.
    destruct (map trimmed files); [congruence | reflexivity].
  - unfold lineBreak.
    change (intro ++ String newline "" ++ render files)%string
      with (intro ++ String newline (render files))%string.
    rewrite (splitFrom_chunk intro _ Hi), E. cbn [tl]. rewrite F.
    destruct (map trimmed files); [congruence | reflexivity].
Qed.

(** X17 on an answer of two files after a line of introduction. *)
Lemma X17_delimited_answer_round_trip_witness :
  let files :=
    [ {| GeneratedFile.name := "main.py";
         GeneratedFile.content := "print(1)" |};
      {| GeneratedFile.name := "src/features.py";
         GeneratedFile.content := " x = 2 " |} ] in
  let st := {| loading := true; activeTab := Code; generatedFiles := [];
               selectedFileIndex := 1 |} in
  files <> [] /\ Forall plain files
  /\ JS.includes "Here are the files:" "--- FILE: " = false
  /\ option_map (map GeneratedFile.content)
       (option_map generatedFiles
          (parseGeneratedOutput
             ("Here are the files:" ++ lineBreak ++ render files) st))
     = Some [ "print(1)"; "x = 2" ].
Proof.
  intros files st.
  assert (Hne : files <> []) by discriminate.
  assert (Hp : Forall plain files) by (repeat constructor).
  assert (Hi : JS.includes "Here are the files:" "--- FILE: " = false)
    by reflexivity.
  split; [exact Hne | split; [exact Hp | split; [exact Hi |]]].
  destruct (X17_delimited_answer_round_trip
              files "Here are the files:" st Hne Hp Hi) as [_ E].
  rewrite E. reflexivity.
Defined.

(** X18.  With an API key present, [handleGenerate] ends with the code
    tab active, the loading flag cleared and a list of files that is not
    empty.  When a text arrived, the files are those of
    [parseGeneratedOutput] and the first is selected.  When none arrived,
    the list is the single entry error.log and the selected index is the
    one from before, so that the selected file exists only if that index
    was 0. *)
Theorem X18_handleGenerate_outcomes :
  forall (API_KEY : string) (generated : option string) (st : codeView),
    API_KEY <> "" ->
    exists st',
      handleGenerate API_KEY generated st = Completed st'
      /\ loading st' = false /\ activeTab st' = Code
      /\ generatedFiles st' <> []
      /\ match generated with
         | Some text =>
             option_map generatedFiles (parseGeneratedOutput text st)
             = Some (generatedFiles st')
             /\ selectedFileIndex st' = 0
             /\ selectedFile st' <> None
         | None =>
             generatedFiles st' = [errorLog]
             /\ selectedFileIndex st' = selectedFileIndex st
             /\ (selectedFile st' = None <-> 0 < selectedFileIndex st)
         end.
Proof.
  intros API_KEY generated st Hk.
  destruct API_KEY as [| c k]; [congruence |].
  cbn [handleGenerate].
  destruct generated as [text |].
  - destruct (parseGeneratedOutput_total text) as [file [files E]].
    rewrite !E. eexists. split; [reflexivity |]. cbn.
    repeat split; discriminate.
  - eexists. split; [reflexivity |]. cbn.
    split; [reflexivity |]. split; [reflexivity |]. split; [discriminate |].
    split; [reflexivity |]. split; [reflexivity |].
    unfold selectedFile. cbn. destruct (selectedFileIndex st) as [| n]; cbn.
    + split; [discriminate | lia].
    + split; [lia |]. intros _. now destruct n.
Qed.

(** X18 on a failed generation while the third file was selected. *)
Lemma X18_handleGenerate_outcomes_witness :
  let file := {| GeneratedFile.name := "a.py"; GeneratedFile.content := "" |} in
  let st := selectFile 2 {| loading := false; activeTab := Code;
                            generatedFiles := [file; file; file];
                            selectedFileIndex := 0 |} in
  "key" <> ""
  /\ exists st',
       handleGenerate "key" None st = Completed st'
       /\ generatedFiles st' = [errorLog]
       /\ selectedFile st' = None.
Proof.
  intros file st. split; [discriminate |].
  destruct (X18_handleGenerate_outcomes "key" None st)
    as [st' [E [_ [_ [_ [Hf [_ Hs]]]]]]]; [discriminate |].
  exists st'. split; [exact E |]. split; [exact Hf |].
  apply Hs. simpl. lia.
Defined.

End Generated.

(* ================================================================== *)
(** * The chat and the key *)
(* ================================================================== *)

Section Conversation.
Import ProjectBuilder.

Lemma alternating_app (h t : list ChatMessage.t) :
  alternating h = true -> alternating (h ++ t) = alternating t.
Proof.
  assert (H : (alternating h = true -> alternating (h ++ t) = alternating t)
              /\ (forall q, alternating (q :: h) = true ->
                            alternating ((q :: h) ++ t) = alternating t)).
  { induction h as [| a h [IH1 IH2]].
    - split; [reflexivity | discriminate].
    - split; [apply IH2 |].
      intros q. cbn [alternating app].
      destruct (isQuestion q && isAnswer a); [| discriminate].
      cbn [andb]. exact IH1. }
  apply H.
Qed.

(** X19.  With an API key present, [handleSendMessage] sends the
    override, or the typed question when there is none or it is empty.  A
    blank message changes nothing.  Any other message extends the history
    by exactly two entries, the question of the user and then the answer
    of the model, clears the input and leaves the thinking flag off.  The
    content of the answer is what the service resolved with, which is
    undefined when the response held no text, and the apology when the
    service rejected.  A history of exchanges stays a history of
    exchanges. *)
Theorem X19_chat_history_alternates :
  forall (apology API_KEY : string) (msgOverride : option string)
         (reply : answer) (st : chat),
    API_KEY <> "" ->
    alternating (chatHistory st) = true ->
    let msg :=
      JS.or_str (match msgOverride with Some m => m | None => "" end)
                (questionInput st) in
    exists st',
      handleSendMessage apology API_KEY msgOverride reply st = Completed st'
      /\ alternating (chatHistory st') = true
      /\ (JS.trim msg = "" -> st' = st)
      /\ (JS.trim msg <> "" ->
          chatHistory st'
          = chatHistory st
            ++ [ {| ChatMessage.role := ChatMessage.user;
                    ChatMessage.content := Some msg |};
                 {| ChatMessage.role := ChatMessage.model;
                    ChatMessage.content :=
                      match reply with
                      | Resolved (Some text) => Some text
                      | Resolved None => None
                      | Rejected => Some apology
                      end |} ]
          /\ questionInput st' = "" /\ isChatThinking st' = false).
Proof.
  intros apology API_KEY msgOverride reply st Hk Ha msg.
  destruct API_KEY as [| c k]; [congruence |].
  cbn [handleSendMessage]. fold msg.
  destruct (String.eqb (JS.trim msg) "") eqn:E.
  - apply String.eqb_eq in E. exists st.
    split; [reflexivity |]. split; [exact Ha |]. split; [reflexivity |].
    congruence.
  - eexists. split; [reflexivity |].
    cbn [chatHistory questionInput isChatThinking].
    rewrite <- app_assoc. cbn [app].
    split; [| split].
    + rewrite (alternating_app _ _ Ha).
      cbn [alternating isQuestion isAnswer ChatMessage.role
           ChatMessage.content].
      now rewrite E.
    + apply String.eqb_neq in E. congruence.
    + intros _. split; [| split; reflexivity].
      now destruct reply as [[text |] |].
Qed.

(** X19 on the second question of a conversation, sent by override over
    a blank input, the service resolving without text: the answer appended
    holds no content. *)
Lemma X19_chat_history_alternates_witness :
  let exchange :=
    [ {| ChatMessage.role := ChatMessage.user;
         ChatMessage.content := Some "Why Arrhenius?" |};
      {| ChatMessage.role := ChatMessage.model;
         ChatMessage.content := Some "Because of the activation energy." |} ] in
  let st := {| chatHistory := exchange; questionInput := "  ";
               isChatThinking := false |} in
  "key" <> ""
  /\ alternating (chatHistory st) = true
  /\ exists st',
       handleSendMessage "sorry" "key" (Some "And NBO/T?") (Resolved None) st
       = Completed st'
       /\ alternating (chatHistory st') = true
       /\ chatHistory st'
          = exchange
            ++ [ {| ChatMessage.role := ChatMessage.user;
                    ChatMessage.content := Some "And NBO/T?" |};
                 {| ChatMessage.role := ChatMessage.model;
                    ChatMessage.content := None |} ].
Proof.
  intros exchange st.
  assert (Hk : "key" <> "") by discriminate.
  assert (Ha : alternating (chatHistory st) = true) by reflexivity.
  split; [exact Hk | split; [exact Ha |]].
  destruct (X19_chat_history_alternates
              "sorry" "key" (Some "And NBO/T?") (Resolved None) st Hk Ha)
    as [st' [E [Ha' [_ Hext]]]].
  exists st'. split; [exact E | split; [exact Ha' |]].
  apply Hext. discriminate.
Defined.

(** X20.  Verifying a key that is not blank settles what the two guarded
    handlers do next.  When the check succeeds, the status is valid, the
    key is stored as typed, and neither handler stops at the key guard.
    When it fails, the status is invalid, the stored key is erased, and
    both handlers stop at the guard, whatever key was stored before. *)
Theorem X20_verification_gates_the_key :
  forall (ping : string -> bool) (apology : string) (st : App.keyState),
    JS.trim (App.keyInput st) <> "" ->
    let st' := App.handleVerifyKey ping st in
    if ping (App.keyInput st) then
      App.keyStatus st' = App.valid
      /\ App.API_KEY st' = App.keyInput st
      /\ (forall generated view,
             handleGenerate (App.API_KEY st') generated view <> MissingKey)
      /\ (forall msgOverride reply c,
             handleSendMessage apology (App.API_KEY st') msgOverride reply c
             <> MissingKey)
    else
      App.keyStatus st' = App.invalid
      /\ App.API_KEY st' = ""
      /\ (forall generated view,
             handleGenerate (App.API_KEY st') generated view = MissingKey)
      /\ (forall msgOverride reply c,
             handleSendMessage apology (App.API_KEY st') msgOverride reply c
             = MissingKey).
Proof.
  intros ping apology st Hk st'. subst st'. unfold App.handleVerifyKey.
  apply String.eqb_neq in Hk. rewrite Hk.
  destruct (App.keyInput st) as [| c k] eqn:Ei; [discriminate |].
  cbn [GeminiService.validateApiKey].
  destruct (ping (String c k));
    cbn [App.keyStatus App.API_KEY handleGenerate handleSendMessage].
  - split; [reflexivity |]. split; [reflexivity |].
    split; [discriminate |].
    intros msgOverride reply ch.
    match goal with |- (if ?b then _ else _) <> _ => destruct b end;
      discriminate.
  - repeat split.
Qed.

(** X20 on a key the service rejects while an older key is stored. *)
Lemma X20_verification_gates_the_key_witness :
  let st := App.handleKeyChange "wrong"
              {| App.keyInput := "old"; App.keyStatus := App.valid;
                 App.API_KEY := "old" |} in
  JS.trim (App.keyInput st) <> ""
  /\ App.API_KEY (App.handleVerifyKey (fun _ => false) st) = "".
Proof.
  intros st. split; [discriminate |].
  apply (X20_verification_gates_the_key (fun _ => false) "sorry" st).
  discriminate.
Defined.

End Conversation.

(* ================================================================== *)
(** * The text branch reads the non-blank lines *)
(* ================================================================== *)

Lemma onTextLoad_lines (text : string) :
  ProjectBuilder.onTextLoad text
  = match nonBlankLines text with
    | r0 :: (_ :: _) as rest =>
        ProjectBuilder.processImportedData
          (map (fun rowStr =>
                  Some (ProjectBuilder.lineObject
                          (map JS.trim (JS.split "," r0)) rowStr))
               rest)
    | _ => []
    end.
Proof.
  unfold ProjectBuilder.onTextLoad.
  destruct text as [| c t]; [reflexivity |].
  fold (nonBlankLines (String c t)).
  destruct (nonBlankLines (String c t)) as [| r0 [| r1 rest]]; reflexivity.
Qed.

(** X21.  What the upload of a text file does is decided by the
    non-blank lines of the text alone: two texts with the same non-blank
    lines, in the same order, lead to the same calls.  The upload makes no
    call exactly when there are fewer than two such lines. *)
Theorem X21_text_upload_reads_non_blank_lines :
  forall (sheet_to_json : string -> option (list ProjectBuilder.row))
         (f : ProjectBuilder.File),
    ProjectBuilder.isExcel f = false ->
    let out := ProjectBuilder.handleFileUpload sheet_to_json (Some f) in
    (out = [] <-> List.length (nonBlankLines (ProjectBuilder.result f)) < 2)
    /\ (forall f',
           ProjectBuilder.isExcel f' = false ->
           nonBlankLines (ProjectBuilder.result f')
           = nonBlankLines (ProjectBuilder.result f) ->
           ProjectBuilder.handleFileUpload sheet_to_json (Some f') = out).
Proof.
  intros sheet_to_json f Hx out. subst out.
  unfold ProjectBuilder.handleFileUpload. rewrite Hx, onTextLoad_lines.
  split.
  - destruct (nonBlankLines (ProjectBuilder.result f)) as [| r0 [| r1 rest]];
      simpl; split; try reflexivity; try lia.
    + intros H. now apply processImportedData_not_silent in H.
  - intros f' Hx' E. now rewrite Hx', onTextLoad_lines, E.
Qed.

(** X21 on a text with blank lines and the same text without them. *)
Lemma X21_text_upload_reads_non_blank_lines_witness :
  let nl := String ProjectBuilder.newline "" in
  let f := {| ProjectBuilder.name := "melt.csv";
              ProjectBuilder.result :=
                ("SiO2,temp,viscosity" ++ nl ++ nl ++ "  " ++ nl
                 ++ "53.5,1488,2.268" ++ nl)%string |} in
  let f' := {| ProjectBuilder.name := "melt.txt";
               ProjectBuilder.result :=
                 ("SiO2,temp,viscosity" ++ nl ++ "53.5,1488,2.268")%string |} in
  ProjectBuilder.isExcel f = false
  /\ ProjectBuilder.handleFileUpload (fun _ => None) (Some f')
     = ProjectBuilder.handleFileUpload (fun _ => None) (Some f).
Proof.
  intros nl f f'. split; [reflexivity |].
  apply (X21_text_upload_reads_non_blank_lines (fun _ => None) f);
    reflexivity.
Defined.

(* ================================================================== *)
(** * Sessions *)
(* ================================================================== *)

Lemma act_keeps_data
    (sheet_to_json : string -> option (list ProjectBuilder.row))
    (st : App.state) (a : action) :
  let st' := act sheet_to_json st a in
  st' = st \/ (App.viscosityData st' <> [] /\ App.isConnected st' = true).
Proof.
  destruct a as [file | isLocal config]; unfold act.
  - unfold ProjectBuilder.handleFileUpload.
    destruct file as [f |]; [| now left].
    assert (H : forall rawData,
               let st' := App.run (ProjectBuilder.processImportedData rawData) st in
               st' = st
               \/ (App.viscosityData st' <> [] /\ App.isConnected st' = true)).
    { intros rawData. pose proof (run_processImportedData rawData st) as R.
      cbv zeta in *. destruct R as [E | R]; [now left | right].
      split; apply R. }
    destruct (ProjectBuilder.isExcel f).
    + destruct (sheet_to_json _); [apply H | now left].
    + destruct (onTextLoad_cases (ProjectBuilder.result f)) as [E | [rawData E]];
        rewrite E; [now left | apply H].
  - unfold ProjectBuilder.handleTestConnection.
    destruct isLocal; [right | now left].
    simpl. split; [discriminate | reflexivity].
Qed.

(** X22.  Once the view has left its empty state it never returns to it:
    through any sequence of uploads and mock connections, whatever the
    files and whatever the spreadsheet decoder does, the application stays
    connected and its data stay non-empty. *)
Theorem X22_view_never_returns_to_empty_state :
  forall (sheet_to_json : string -> option (list ProjectBuilder.row))
         (actions : list action) (st : App.state),
    showsEmptyState st = false ->
    let st' := session sheet_to_json actions st in
    showsEmptyState st' = false
    /\ App.isConnected st' = true
    /\ App.viscosityData st' <> [].
Proof.
  intros sheet_to_json actions.
  assert (Hshow : forall st, showsEmptyState st = false <->
                             App.isConnected st = true
                             /\ App.viscosityData st <> []).
  { intros st. unfold showsEmptyState, DataView.emptyState.
    destruct (App.isConnected st), (App.viscosityData st); simpl; split;
      try discriminate; try (intros [H1 H2]; congruence).
    intros _. split; [reflexivity | discriminate]. }
  induction actions as [| a actions IH]; intros st H st'; subst st'.
  - split; [exact H | now apply Hshow].
  - unfold session. cbn [fold_left]. apply IH.
    destruct (act_keeps_data sheet_to_json st a) as [E | [Hd Hc]].
    + now rewrite E.
    + apply Hshow. now split.
Qed.

(** X22 on a session of a spreadsheet that fails to decode, a cancelled
    file dialog and a mock connection away from the local host. *)
Lemma X22_view_never_returns_to_empty_state_witness :
  let st := {| App.viscosityData := MOCK_DATA; App.isConnected := true;
               App.connectedDbInfo := None |} in
  let bad := {| ProjectBuilder.name := "bad.xlsx";
                ProjectBuilder.result := "" |} in
  showsEmptyState st = false
  /\ showsEmptyState
       (session (fun _ => None)
                [ Upload (Some bad); Upload None;
                  TestConnection false ProjectBuilder.initialConfig ] st)
     = false.
Proof.
  intros st bad. split; [reflexivity |].
  apply (X22_view_never_returns_to_empty_state (fun _ => None)).
  reflexivity.
Defined.

(* ================================================================== *)
(** * Edits of the configuration *)
(* ================================================================== *)

Lemma readKey_withKey (db : DbConfig) (k key : ProjectBuilder.DbKey)
    (v : string) :
  readKey (ProjectBuilder.withKey db k v) key
  = if sameKey k key then Some v else readKey db key.
Proof. destruct k, key; reflexivity. Qed.

(** X23.  Edits of the database fields touch nothing else: after any
    sequence of edits the target, the features, the test size and the
    model type are those of before, and each database field holds the
    value last written under its key, or its old value if the key was
    never edited.  The mock connection, on a local host, loads the mock
    table and reports the host and the database of the edited
    configuration; elsewhere it does nothing. *)
Theorem X23_edits_and_the_mock_connection :
  forall (edits : list (ProjectBuilder.DbKey * string))
         (config : TrainingConfig),
    let config' := edited edits config in
    let field key :=
      match lastWritten key edits with
      | Some v => Some v
      | None => readKey (dbConfig config) key
      end in
    (target config', features config', testSize config', modelType config')
      = (target config, features config, testSize config, modelType config)
    /\ (forall key, readKey (dbConfig config') key = field key)
    /\ ProjectBuilder.handleTestConnection true config'
       = [ OnDataLoaded MOCK_DATA;
           OnConnect
             match lastWritten ProjectBuilder.KeyHost edits with
             | Some v => v
             | None => host (dbConfig config)
             end
             match lastWritten ProjectBuilder.KeyDatabase edits with
             | Some v => v
             | None => database (dbConfig config)
             end ]
    /\ ProjectBuilder.handleTestConnection false config' = [].
Proof.
  intros edits config config' field. subst config' field.
  assert (H : (target (edited edits config), features (edited edits config),
               testSize (edited edits config), modelType (edited edits config))
              = (target config, features config, testSize config,
                 modelType config)
              /\ forall key,
                   readKey (dbConfig (edited edits config)) key
                   = match lastWritten key edits with
                     | Some v => Some v
                     | None => readKey (dbConfig config) key
                     end).
  { revert config. induction edits as [| [k v] edits IH]; intros config.
    - split; reflexivity.
    - unfold edited. cbn [fold_left fst snd].
      destruct (IH (ProjectBuilder.updateDbConfig k v config)) as [E R].
      split; [exact E |]. intros key. unfold edited in R. rewrite R.
      cbn [lastWritten].
      destruct (lastWritten key edits); [reflexivity |].
      cbn [ProjectBuilder.updateDbConfig dbConfig].
      rewrite readKey_withKey. now destruct (sameKey k key). }
  destruct H as [E R]. split; [exact E |]. split; [exact R |].
  split; [| reflexivity].
  pose proof (R ProjectBuilder.KeyHost) as Hh.
  pose proof (R ProjectBuilder.KeyDatabase) as Hd.
  cbn [readKey] in Hh, Hd.
  unfold ProjectBuilder.handleTestConnection. cbn [negb].
  destruct (lastWritten ProjectBuilder.KeyHost edits);
    destruct (lastWritten ProjectBuilder.KeyDatabase edits);
    injection Hh as ->; injection Hd as ->; reflexivity.
Qed.
